(** * glottolog3: reference import and languoid classification

    A shallow embedding of [glottolog3/scripts/import_refs.py] (the loop of
    [main] that merges bibliography records into the catalog) and of the
    sub-classification lookup [Languoid.screfs] of [glottolog3/models.py],
    followed by the properties established about them. *)

From Stdlib Require Import ZArith Ascii String List Lia.
From stdpp Require Import gmap strings list fin_maps sorting.

Local Open Scope Z_scope.

(* ===================================================================== *)
(** * Python built-ins used by the script *)
(* ===================================================================== *)

(** Text is modelled by [string]: one character per code point below 256.
    An uncaught exception aborts the whole run, so fallible steps return a
    value of [result]. *)

Inductive exn : Type :=
  | AssertionError
  | ValueError (text : string)
  | KeyError (key : string).

Inductive result (A : Type) : Type :=
  | Ok (a : A)
  | Raise (e : exn).
Arguments Ok {A} a.
Arguments Raise {A} e.

Global Instance result_bind : MBind result := λ A B k r,
  match r with
  | Ok a => k a
  | Raise e => Raise e
  end.

Module Py.

(** [unicode.isspace] on the code points below 256. *)
Definition isspace (c : ascii) : bool :=
  let n := N_of_ascii c in
  ((9 <=? n) && (n <=? 13) || (28 <=? n) && (n <=? 32)
   || (n =? 133) || (n =? 160))%N.

Definition isdigit (c : ascii) : bool :=
  let n := N_of_ascii c in ((48 <=? n) && (n <=? 57))%N.

Definition digit_value (c : ascii) : Z := Z.of_N (N_of_ascii c) - 48.

Fixpoint lstrip (s : string) : string :=
  match s with
  | String c t => if isspace c then lstrip t else s
  | EmptyString => EmptyString
  end.

Definition rstrip (s : string) : string := String.rev (lstrip (String.rev s)).

(** [s.strip()] *)
Definition strip (s : string) : string := rstrip (lstrip s).

(** [c in s] for a one-character [c]. *)
Fixpoint contains (c : ascii) (s : string) : bool :=
  match s with
  | String d t => if Ascii.eqb c d then true else contains c t
  | EmptyString => false
  end.

(** [s.split(c, 1)]: the text before the first [c] and the text after it;
    [None] when [c] does not occur (Python then returns the one-element
    list [[s]]). *)
Fixpoint split_once (c : ascii) (s : string) : option (string * string) :=
  match s with
  | String d t =>
      if Ascii.eqb c d then Some (EmptyString, t)
      else match split_once c t with
           | Some (a, b) => Some (String d a, b)
           | None => None
           end
  | EmptyString => None
  end.

(** [s.split(c)] *)
Fixpoint split (c : ascii) (s : string) : list string :=
  match s with
  | String d t =>
      if Ascii.eqb c d then EmptyString :: split c t
      else match split c t with
           | w :: ws => String d w :: ws
           | [] => [String d EmptyString]
           end
  | EmptyString => [EmptyString]
  end.

Fixpoint all_digits (s : string) : bool :=
  match s with
  | String c t => isdigit c && all_digits t
  | EmptyString => true
  end.

Fixpoint digits_value (acc : Z) (s : string) : Z :=
  match s with
  | String c t => digits_value (10 * acc + digit_value c) t
  | EmptyString => acc
  end.

Definition unsigned_int (s : string) : option Z :=
  match s with
  | EmptyString => None
  | _ => if all_digits s then Some (digits_value 0 s) else None
  end.

(** [int(s)]: surrounding white space, an optional sign, decimal digits;
    [ValueError] otherwise. *)
Definition int (s : string) : result Z :=
  let body := strip s in
  let parsed :=
    match body with
    | String "-" t => Z.opp <$> unsigned_int t
    | String "+" t => unsigned_int t
    | _ => unsigned_int body
    end in
  match parsed with
  | Some n => Ok n
  | None => Raise (ValueError s)
  end.

Fixpoint nat_digits (fuel : nat) (n : N) (acc : string) : string :=
  match fuel with
  | O => acc
  | S fuel' =>
      let acc' := String (ascii_of_N (48 + n mod 10)) acc in
      if (n <? 10)%N then acc' else nat_digits fuel' (n / 10)%N acc'
  end.

(** ['%s' % n] for an integer. *)
Definition str_of_Z (z : Z) : string :=
  let n := Z.abs_N z in
  let digits := nat_digits (S (N.to_nat (N.log2 n))) n EmptyString in
  if z <? 0 then String "-" digits else digits.

(** [sep.join(l)] *)
Fixpoint join (sep : string) (l : list string) : string :=
  match l with
  | [] => EmptyString
  | [x] => x
  | x :: xs => x +:+ sep +:+ join sep xs
  end.

(** [sorted(l, key=key)], whose sort is stable: an element goes before
    the first one of the sorted rest whose key is not smaller. *)
Fixpoint insert_by {A} (key : A → Z) (x : A) (l : list A) : list A :=
  match l with
  | [] => [x]
  | y :: l' => if key x <=? key y then x :: l else y :: insert_by key x l'
  end.

Definition sorted {A} (key : A → Z) (l : list A) : list A :=
  foldr (insert_by key) [] l.

End Py.

(* ===================================================================== *)
(** * The compiled patterns *)
(* ===================================================================== *)

Module Re.

(** [pattern.search(s)]: the match at the leftmost position where the
    pattern matches, [m] being the match anchored at a position. *)
Fixpoint search {A} (m : string → option A) (s : string) : option A :=
  match m s with
  | Some x => Some x
  | None =>
      match s with
      | String _ t => search m t
      | EmptyString => None
      end
  end.

Definition is12 (c : ascii) : bool := Ascii.eqb c "1" || Ascii.eqb c "2".

(** [[0-9]] *)
Definition digit (c : ascii) : bool := Py.isdigit c.

(** [\s] of a pattern compiled without the UNICODE flag. *)
Definition space (c : ascii) : bool := Ascii.is_space c.

(** [(?P<year>(1|2)[0-9]{3})] at the head of [s]: the group and the rest. *)
Definition year_group (s : string) : option (string * string) :=
  match s with
  | String a (String b (String c (String d rest))) =>
      if is12 a && digit b && digit c && digit d
      then Some (String a (String b (String c (String d EmptyString))), rest)
      else None
  | _ => None
  end.

Fixpoint skip_digits (s : string) : string :=
  match s with
  | String c t => if digit c then skip_digits t else s
  | EmptyString => EmptyString
  end.

(** [(\-[0-9]+)?\]] at the head of [s]. *)
Definition pref_tail (s : string) : bool :=
  match s with
  | String "]" _ => true
  | String "-" (String d t) =>
      digit d && match skip_digits t with
                 | String "]" _ => true
                 | _ => false
                 end
  | _ => false
  end.

(** [PREF_YEAR_PATTERN.match(s)]: the group [year]. *)
Definition PREF_YEAR_PATTERN_match (s : string) : option string :=
  match s with
  | String "[" t =>
      match year_group t with
      | Some (y, r) => if pref_tail r then Some y else None
      | None => None
      end
  | _ => None
  end.

(** [PREF_YEAR_PATTERN.search(s)]: the group [year] of the leftmost match. *)
Definition PREF_YEAR_PATTERN (s : string) : option string :=
  search PREF_YEAR_PATTERN_match s.

(** [YEAR_PATTERN.match(s)]: the group [year]. *)
Definition YEAR_PATTERN_match (s : string) : option string :=
  fst <$> year_group s.

(** [YEAR_PATTERN.search(s)]: the group [year] of the leftmost match. *)
Definition YEAR_PATTERN (s : string) : option string :=
  search YEAR_PATTERN_match s.

Definition roman (c : ascii) : bool :=
  Py.contains c "ivxlcdmIVXLCDM".

(** The longest prefix of [s] whose characters satisfy [p], and the rest. *)
Fixpoint span (p : ascii → bool) (s : string) : string * string :=
  match s with
  | String c t =>
      if p c then let '(a, b) := span p t in (String c a, b)
      else (EmptyString, s)
  | EmptyString => (EmptyString, EmptyString)
  end.

(** A non-empty run of [p], then [+], then a non-empty run of [q], at the
    head of [s]: both runs. The runs are greedy and giving characters
    back never lets the rest match. *)
Definition plus_match (p q : ascii → bool) (s : string)
  : option (string * string) :=
  match span p s with
  | (EmptyString, _) => None
  | (a, String "+" t) =>
      match span q t with
      | (EmptyString, _) => None
      | (b, _) => Some (a, b)
      end
  | _ => None
  end.

(** [ROMANPAGESPATTERNra.search(s)]: the groups [(roman, arabic)]. *)
Definition ROMANPAGESPATTERNra (s : string) : option (string * string) :=
  search (plus_match roman digit) s.

(** [ROMANPAGESPATTERNar.search(s)]: the groups [(roman, arabic)]. *)
Definition ROMANPAGESPATTERNar (s : string) : option (string * string) :=
  match search (plus_match digit roman) s with
  | Some (a, r) => Some (r, a)
  | None => None
  end.

(** [[a-z\_]] *)
Definition name_char (c : ascii) : bool :=
  let n := N_of_ascii c in ((97 <=? n) && (n <=? 122) || (n =? 95))%N.

Definition not_rparen (c : ascii) : bool := negb (Ascii.eqb c ")").

(** [DOCTYPE_PATTERN.match(s)]: the group [name] and the text after the
    match. The pattern is
    [(?P<name>[a-z\_]+)\s*(\((?P<comment>[^\)]+)\))?\s*(\;|$)]. *)
Definition DOCTYPE_PATTERN_match (s : string) : option (string * string) :=
  match span name_char s with
  | (EmptyString, _) => None
  | (name, r1) =>
      let r2 := (span space r1).2 in
      let r3 :=
        match r2 with
        | String "(" t =>
            match span not_rparen t with
            | (EmptyString, _) => None
            | (_, String ")" r) => Some r
            | _ => None
            end
        | _ => Some r2
        end in
      match r3 with
      | None => None
      | Some r3 =>
          match (span space r3).2 with
          | EmptyString => Some (name, EmptyString)
          | String ";" r5 => Some (name, r5)
          | _ => None
          end
      end
  end.

(** [skip] characters of the last match are still to be passed over. *)
Fixpoint finditer_go (skip : nat) (s : string) : list string :=
  match skip with
  | S k =>
      match s with
      | String _ t => finditer_go k t
      | EmptyString => []
      end
  | O =>
      match DOCTYPE_PATTERN_match s with
      | Some (name, rest) =>
          name ::
          match s with
          | String _ t =>
              finditer_go (String.length s - String.length rest - 1) t
          | EmptyString => []
          end
      | None =>
          match s with
          | String _ t => finditer_go O t
          | EmptyString => []
          end
      end
  end.

(** [[m.group('name') for m in DOCTYPE_PATTERN.finditer(s)]] *)
Definition DOCTYPE_PATTERN (s : string) : list string := finditer_go O s.

End Re.

(** Lines 267-277 of [main], on the raw year text: the bracketed year is
    preferred over the first four-digit number. *)
Definition extract_year (raw : string) : result (option Z) :=
  match Re.PREF_YEAR_PATTERN raw with
  | Some y => n ← Py.int y; Ok (Some n)
  | None =>
      match Re.YEAR_PATTERN raw with
      | Some y => n ← Py.int y; Ok (Some n)
      | None => Ok None
      end
  end.


(* ===================================================================== *)
(** * Tables of [import_refs.py] *)
(* ===================================================================== *)

(** [FIELD_MAP]: source key, and its target column or the empty text. *)
Definition FIELD_MAP : list (string * string) :=
  [
   ("abstract", ""); ("added", ""); ("additional_items", "");
    ("address", "address"); ("adress", "address"); ("adviser", "");
    ("aiatsis_callnumber", ""); ("aiatsis_code", "");
    ("aiatsis_reference_language", ""); ("alnumcodes", ""); ("anlanote", "");
    ("anlclanguage", ""); ("anlctype", ""); ("annote", ""); ("asjp_name", "");
    ("audiofile", ""); ("author", "author"); ("author_note", "");
    ("author_statement", ""); ("booktitle", "booktitle");
    ("booktitle_english", ""); ("bwonote", ""); ("call_number", "");
    ("citation", ""); ("class_loc", ""); ("collection", ""); ("comments", "");
    ("contains_also", ""); ("contributed", ""); ("copies", "");
    ("copyright", ""); ("country", ""); ("coverage", ""); ("crossref", "");
    ("de", ""); ("degree", ""); ("digital_formats", "");
    ("document_type", ""); ("doi", ""); ("domain", "");
    ("edition", "edition"); ("edition_note", ""); ("editor", "editor");
    ("english_title", ""); ("extra_hash", ""); ("extrahash", "");
    ("file", ""); ("fn", ""); ("fnnote", ""); ("folder", ""); ("format", "");
    ("german_subject_headings", ""); ("glottolog_ref_id", "");
    ("guldemann_location", ""); ("hhnote", ""); ("hhtype", "");
    ("howpublished", ""); ("id", ""); ("inlg", "inlg"); ("institution", "");
    ("isbn", ""); ("issn", ""); ("issue", ""); ("jfmnote", "");
    ("journal", "journal"); ("key", ""); ("keywords", ""); ("langcode", "");
    ("langnote", ""); ("languoidbase_ids", ""); ("lapollanote", "");
    ("last_changed", ""); ("lccn", ""); ("lcode", ""); ("lgcde", "");
    ("lgcode", ""); ("lgcoe", ""); ("lgcosw", ""); ("lgfamily", "");
    ("macro_area", ""); ("modified", ""); ("month", "");
    ("mpi_eva_library_shelf", ""); ("mpifn", ""); ("no_inventaris", "");
    ("note", "note"); ("notes", "note"); ("number", "number");
    ("numberofpages", ""); ("numner", "number"); ("oages", "pages");
    ("oldhhfn", ""); ("oldhhfnnote", ""); ("omnote", "");
    ("other_editions", ""); ("otomanguean_heading", ""); ("owner", "");
    ("ozbib_id", "ozbib_id"); ("ozbibnote", ""); ("ozbibreftype", "");
    ("paged", "pages"); ("pages", "pages"); ("pagex", "pages");
    ("permission", ""); ("pgaes", "pages"); ("phdthesis", "");
    ("prepages", ""); ("publisher", "publisher"); ("pubnote", "");
    ("rating", ""); ("read", ""); ("relatedresource", "");
    ("replication", ""); ("reprint", ""); ("restrictions", "");
    ("review", ""); ("school", "school"); ("seanote", "");
    ("seifarttype", ""); ("series", "series"); ("series_english", "");
    ("shelf_location", ""); ("shorttitle", ""); ("sil_id", "");
    ("source", ""); ("src", ""); ("srctrickle", ""); ("stampeann", "");
    ("stampedesc", ""); ("status", ""); ("subject", "subject");
    ("subject_headings", "subject_headings"); ("subsistence_note", "");
    ("superseded", ""); ("thanks", ""); ("thesistype", ""); ("timestamp", "");
    ("title", "title"); ("title_english", ""); ("titlealt", ""); ("typ", "");
    ("umi_id", ""); ("url", "url"); ("vernacular_title", "");
    ("volume", "volume"); ("volumr", "volume"); ("weball_lgs", "");
    ("year", "year"); ("yeartitle", "")
  ].

(** [CONVERTER = {'ozbib_id': int}], keyed by the source key. *)
Definition CONVERTER_keys : list string := ["ozbib_id"].

(* ===================================================================== *)
(** * Values, records and entities *)
(* ===================================================================== *)

(** The values held by the keyword dictionary [kw] and by the columns of a
    reference: [None], an integer, a text, or the [jsondata] dictionary. *)
Inductive value : Type :=
  | VNone
  | VInt (n : Z)
  | VStr (s : string)
  | VDict (d : gmap string string).

Global Instance value_eq_dec : EqDecision value.
Proof. solve_decision. Defined.

(** Truth value of [if v:]. *)
Definition truthy (v : value) : bool :=
  match v with
  | VNone => false
  | VInt n => negb (n =? 0)
  | VStr s => negb (bool_decide (s = EmptyString))
  | VDict d => negb (bool_decide (d = ∅))
  end.

(** ['%s' % v]; [main] never formats a dictionary. *)
Definition str_of_value (v : value) : string :=
  match v with
  | VNone => "None"
  | VInt n => Py.str_of_Z n
  | VStr s => s
  | VDict _ => "{}"
  end.

(** A record of the bibliography: [rec.id], [rec.genre] and its fields. *)
Record Record_ : Type := mkRecord {
  rec_id : string;
  rec_genre : string;
  rec_fields : gmap string string;
}.

(** [rec.get(key)] followed by the test [if value:]. *)
Definition rec_get (rec : Record_) (key : string) : option string :=
  match rec_fields rec !! key with
  | Some v => if bool_decide (v = EmptyString) then None else Some v
  | None => None
  end.

(** A row of [Provider], [Macroarea] or [Doctype]. *)
Record Entity : Type := mkEntity {
  ent_pk : Z;
  ent_id : string;
}.

Global Instance Entity_eq_dec : EqDecision Entity.
Proof. solve_decision. Defined.

(** A row of [Ref]: its columns by name (an absent column is [None]) and
    its three relationship collections. *)
Record Ref : Type := mkRef {
  attrs : gmap string value;
  macroareas : list Entity;
  providers : list Entity;
  doctypes : list Entity;
}.

Definition getattr (ref : Ref) (k : string) : value :=
  default VNone (attrs ref !! k).

Definition setattr (ref : Ref) (k : string) (v : value) : Ref :=
  mkRef (<[k := v]> (attrs ref)) (macroareas ref) (providers ref) (doctypes ref).

(** [kw.get(k)] *)
Definition kw_get (kw : gmap string value) (k : string) : value :=
  default VNone (kw !! k).

(** [kw['jsondata']] *)
Definition kw_jsondata (kw : gmap string value) : gmap string string :=
  match kw !! "jsondata" with
  | Some (VDict d) => d
  | _ => ∅
  end.

(** [kw['jsondata'].get(k, '')] *)
Definition jsondata_get (kw : gmap string value) (k : string) : string :=
  default EmptyString (kw_jsondata kw !! k).

(** What the script takes from elsewhere: helpers of the package that are
    not part of these sources, [slug] of clld, and the orders in which
    Python happens to enumerate a dictionary or a set. *)
Record helpers : Type := mkHelpers {
  (** [glottolog3.lib.bibtex.unescape] *)
  unescape : string → string;
  (** [glottolog3.lib.util.roman_to_int] *)
  roman_to_int : string → Z;
  (** [glottolog3.scripts.util.compute_pages]: start, end and number *)
  compute_pages : string → option Z * option Z * option Z;
  (** [clld.util.slug] *)
  slug : string → string;
  (** [FIELD_MAP.items()] *)
  field_items : list (string * string);
  (** [kw.keys()] *)
  kw_keys : gmap string value → list string;
  (** the enumeration of [set(l)] *)
  set_order : list string → list string;
}.

(* ===================================================================== *)
(** * Parsing a record into [kw] (lines 244-302) *)
(* ===================================================================== *)

Section Parse.
Context (h : helpers).

(** [kw] as initialised on lines 244-249. *)
Definition kw_init (id_ : Z) (rec : Record_) : gmap string value :=
  <["pk" := VInt id_]>
  (<["bibtex_type" := VStr (rec_genre rec)]>
  (<["id" := VStr (Py.str_of_Z id_)]>
  (<["jsondata" := VDict {["bibtexkey" := rec_id rec]}]> ∅))).

(** [CONVERTER.get(source, lambda x: x)(value)] *)
Definition convert (source text : string) : result value :=
  if bool_decide (source ∈ CONVERTER_keys)
  then n ← Py.int text; Ok (VInt n)
  else Ok (VStr text).

(** One round of the loop on lines 251-258. *)
Definition map_field (rec : Record_) (kw : gmap string value)
    (item : string * string) : result (gmap string value) :=
  let '(source, target) := item in
  match rec_get rec source with
  | Some raw =>
      let text := unescape h raw in
      if bool_decide (target = EmptyString)
      then Ok (<["jsondata" := VDict (<[source := text]> (kw_jsondata kw))]> kw)
      else v ← convert source text; Ok (<[target := v]> kw)
  | None => Ok kw
  end.

Fixpoint map_fields (rec : Record_) (items : list (string * string))
    (kw : gmap string value) : result (gmap string value) :=
  match items with
  | [] => Ok kw
  | item :: items' => kw' ← map_field rec kw item; map_fields rec items' kw'
  end.

(** Lines 261-265: a numeric [numberofpages] gives [pages_int]; a
    [ValueError] is passed over. *)
Definition numberofpages_step (rec : Record_) (kw : gmap string value)
    : gmap string value :=
  match rec_get rec "numberofpages" with
  | Some raw =>
      match Py.int (Py.strip raw) with
      | Ok n => <["pages_int" := VInt n]> kw
      | Raise _ => kw
      end
  | None => kw
  end.

(** Lines 267-277. *)
Definition year_step (kw : gmap string value) : result (gmap string value) :=
  match kw_get kw "year" with
  | VStr y =>
      if truthy (VStr y) then
        oy ← extract_year y;
        match oy with
        | Some n => Ok (<["year_int" := VInt n]> kw)
        | None => Ok kw
        end
      else Ok kw
  | _ => Ok kw
  end.

(** [[s.strip() for s in p.split(':', 1)]] of a text [p] holding a colon. *)
Definition split_publisher (p : string) : option (string * string) :=
  match Py.split_once ":" p with
  | Some (a, b) => Some (Py.strip a, Py.strip b)
  | None => None
  end.

(** Lines 279-284. *)
Definition publisher_step (kw : gmap string value) : gmap string value :=
  match kw_get kw "publisher" with
  | VStr p =>
      if truthy (VStr p) then
        match split_publisher p with
        | Some (address, publisher) =>
            if bool_decide (kw !! "address" = None
                            ∨ kw !! "address" = Some (VStr address))
            then <["publisher" := VStr publisher]>
                   (<["address" := VStr address]> kw)
            else kw
        | None => kw
        end
      else kw
  | _ => kw
  end.

(** [kw[k] = v] unless [v] is [None]. *)
Definition set_if_some (k : string) (v : option Z) (kw : gmap string value)
    : gmap string value :=
  match v with
  | Some n => <[k := VInt n]> kw
  | None => kw
  end.

(** Lines 286-302. *)
Definition pages_step (kw : gmap string value) : result (gmap string value) :=
  match kw_get kw "pages" with
  | VStr pages =>
      if truthy (VStr pages) then
        let m := match Re.ROMANPAGESPATTERNra pages with
                 | Some m => Some m
                 | None => Re.ROMANPAGESPATTERNar pages
                 end in
        match m with
        | Some (roman, arabic) =>
            match kw !! "pages_int" with
            | None =>
                n ← Py.int arabic;
                Ok (<["pages_int" := VInt (roman_to_int h roman + n)]> kw)
            | Some _ => Ok kw
            end
        | None =>
            let '(start, end_, number) := compute_pages h pages in
            Ok (set_if_some "pages_int" number
                  (set_if_some "endpage_int" end_
                     (set_if_some "startpage_int" start kw)))
        end
      else Ok kw
  | _ => Ok kw
  end.

(** Lines 244-302: the keyword dictionary of a record. *)
Definition parse_record (id_ : Z) (rec : Record_) : result (gmap string value) :=
  kw ← map_fields rec (field_items h) (kw_init id_ rec);
  let kw := numberofpages_step rec kw in
  kw ← year_step kw;
  let kw := publisher_step kw in
  pages_step kw.

End Parse.

(* ===================================================================== *)
(** * Merging a record into the catalog (lines 229-386) *)
(* ===================================================================== *)

(** Modelled from the spec: [update_relationship] of
    [glottolog3/scripts/util.py] is called by [main] but is not part of these
    sources. The specification's reconciler takes the existing ordered
    collection and the desired members, appends the desired members that
    the collection lacks, removes nothing, and returns the added members
    together with a flag telling whether some existing member is absent
    from the desired ones. The first component is the collection after the
    call (the argument is updated in place). *)
Definition update_relationship (col new : list Entity)
    : list Entity * (list Entity * bool) :=
  let added := filter (λ x, x ∉ col) (remove_dups new) in
  let removed := bool_decide (Exists (λ x, x ∉ new) col) in
  (col ++ added, (added, removed)).

(** The change log: reference id, then column, then old and new text. *)
Abbreviation change_log := (gmap string (gmap string (string * string))).

(** The name-to-row maps built by [get_map] before the loop. *)
Record lookups : Type := mkLookups {
  provider_map : gmap string Entity;
  macroarea_map : gmap string Entity;
  doctype_map : gmap string Entity;
}.

(** The catalog and the counters of a run. *)
Record state : Type := mkState {
  st_db : gmap Z Ref;
  st_changes : change_log;
  st_count : Z;
  st_skipped : Z;
}.

(** How the loop body left a record: too sparse, already known in a mode
    other than [update], or merged with the final value of [changed]. *)
Inductive outcome : Type :=
  | Skipped
  | Known
  | Merged (changed : bool).

Section Merge.
Context (h : helpers).

(** [ref.id], the key of the change log. *)
Definition ref_id (ref : Ref) : string := str_of_value (getattr ref "id").

(** [copy(self.jsondata) or {}] *)
Definition ref_jsondata (ref : Ref) : gmap string string :=
  match getattr ref "jsondata" with
  | VDict o => o
  | _ => ∅
  end.

(** [ref.update_jsondata] of clld, called with the entries of [d]: a copy
    of the stored dictionary, updated with [d], is stored back. *)
Definition update_jsondata (ref : Ref) (d : gmap string string) : Ref :=
  setattr ref "jsondata" (VDict (d ∪ ref_jsondata ref)).

(** Lines 321-324. *)
Definition record_change (changes : change_log) (id k old new : string)
    : change_log :=
  <[id := <[k := (old, new)]> (default ∅ (changes !! id))]> changes.

(** Lines 325-326. *)
Definition mirror_title (ref : Ref) : Ref :=
  if truthy (getattr ref "title")
  then setattr ref "description" (getattr ref "title")
  else ref.

(** One round of the loop on lines 305-326. *)
Definition update_attr (kw : gmap string value)
    (acc : Ref * bool * change_log) (k : string) : Ref * bool * change_log :=
  let '(ref, changed, changes) := acc in
  if bool_decide (k = "pk") then acc
  else
    let new := kw_get kw k in
    let v := getattr ref k in
    let '(ref, changed, changes) :=
      if bool_decide (new ≠ v) then
        if bool_decide (k = "jsondata")
        then (update_jsondata ref (kw_jsondata kw), changed, changes)
        else
          let ref' := setattr ref k new in
          (ref', true,
           record_change changes (ref_id ref') k
             (str_of_value v) (str_of_value new))
      else (ref, changed, changes) in
    (mirror_title ref, changed, changes).

(** Lines 304-326: the update path. *)
Definition update_ref (kw : gmap string value) (ref : Ref)
    (changes : change_log) : Ref * bool * change_log :=
  foldl (update_attr kw) (ref, false, changes) (kw_keys h kw).

(** Line 329: the create path. *)
Definition new_ref (kw : gmap string value) : Ref :=
  let name := str_of_value (default (VStr "na") (kw !! "author"))
              +:+ " " +:+
              str_of_value (default (VStr "nd") (kw !! "year")) in
  mkRef (<["name" := VStr name]> kw) [] [] [].

(** Lines 331-334; a row is always true as a condition. The collection
    after the call comes with the result ([None] is [false]). *)
Definition append (attr : list Entity) (obj : Entity) : list Entity * bool :=
  if bool_decide (obj ∉ attr) then (attr ++ [obj], true) else (attr, false).

(** [set(filter(None, [s.strip() for s in text.split(',')]))] *)
Definition tag_names (text : string) : list string :=
  set_order h
    (filter (λ s : string, s ≠ EmptyString) (Py.strip <$> Py.split "," text)).

(** [m[k]] *)
Definition map_get (m : gmap string Entity) (k : string) : result Entity :=
  match m !! k with
  | Some e => Ok e
  | None => Raise (KeyError k)
  end.

Fixpoint map_get_all (m : gmap string Entity) (ks : list string)
    : result (list Entity) :=
  match ks with
  | [] => Ok []
  | k :: ks' => e ← map_get m k; es ← map_get_all m ks'; Ok (e :: es)
  end.

(** Lines 345-347. *)
Fixpoint append_providers (m : gmap string Entity) (names : list string)
    (attr : list Entity) (changed : bool) : result (list Entity * bool) :=
  match names with
  | [] => Ok (attr, changed)
  | name :: names' =>
      obj ← map_get m (slug h name);
      let '(attr', result) := append attr obj in
      append_providers m names' attr' (changed || result)
  end.

(** Lines 338-339: the macro-areas named by the record. *)
Definition desired_macroareas (maps : lookups) (kw : gmap string value)
    : result (list Entity) :=
  map_get_all (macroarea_map maps) (tag_names (jsondata_get kw "macro_area")).

(** Lines 351-352: the doctypes named by the record. *)
Definition desired_doctypes (maps : lookups) (kw : gmap string value)
    : result (list Entity) :=
  map_get_all (doctype_map maps) (Re.DOCTYPE_PATTERN (jsondata_get kw "hhtype")).

(** Lines 336-356: the three relationship collections. *)
Definition reconcile (maps : lookups) (kw : gmap string value) (ref : Ref)
    (changed : bool) : result (Ref * bool) :=
  ms ← desired_macroareas maps kw;
  let '(macroareas', (a, r)) := update_relationship (macroareas ref) ms in
  let changed := changed || negb (bool_decide (a = [])) || r in
  '(providers', changed) ←
    append_providers (provider_map maps) (tag_names (jsondata_get kw "src"))
      (providers ref) changed;
  ds ← desired_doctypes maps kw;
  let '(doctypes', (a, r)) := update_relationship (doctypes ref) ds in
  let changed := changed || negb (bool_decide (a = [])) || r in
  Ok (mkRef (attrs ref) macroareas' providers' doctypes', changed).

(** Lines 358-359, on the dictionary [kw['jsondata']]. *)
Definition bracket_lgcode (d : gmap string string) : gmap string string :=
  let lgcode := default EmptyString (d !! "lgcode") in
  if bool_decide (String.length lgcode = 3%nat)
  then <["lgcode" := "[" +:+ lgcode +:+ "]"]> d
  else d.

(** Lines 380-383. *)
Definition finalize (ref : Ref) : Ref :=
  let ref := setattr ref "doctypes_str"
               (VStr (Py.join ", " (ent_id <$> doctypes ref))) in
  setattr ref "providers_str"
    (VStr (Py.join ", " (ent_id <$> providers ref))).

(** Lines 241-383 for a record that is neither sparse nor passed over.
    On the create path the new row holds the very dictionary
    [kw['jsondata']], so the rewriting of line 359 shows in the row; on
    the update path [update_jsondata] has stored a copy. Returns the row,
    [changed], the change log and the final [kw['jsondata']]. *)
Definition merge (maps : lookups) (id_ : Z) (rec : Record_)
    (existing : option Ref) (changes : change_log)
    : result (Ref * bool * change_log * gmap string string) :=
  kw ← parse_record h id_ rec;
  let '(ref, changed, changes) :=
    match existing with
    | Some ref => update_ref kw ref changes
    | None => (new_ref kw, true, changes)
    end in
  '(ref, changed) ← reconcile maps kw ref changed;
  let jsondata := bracket_lgcode (kw_jsondata kw) in
  let ref := match existing with
             | Some _ => ref
             | None => setattr ref "jsondata" (VDict jsondata)
             end in
  let ref := if (changed : bool) then finalize ref else ref in
  Ok (ref, changed, changes, jsondata).

(** The body of the loop on lines 229-386 ([print] leaves no trace). *)
Definition body (mode : string) (known_ids : gset Z) (maps : lookups)
    (st : state) (rec : Record_) : result (state * outcome) :=
  if bool_decide (size (rec_fields rec) < 6)%nat
  then Ok (mkState (st_db st) (st_changes st) (st_count st)
             (st_skipped st + 1), Skipped)
  else
    match rec_get rec "glottolog_ref_id" with
    | None => Raise AssertionError
    | Some raw =>
        id_ ← Py.int raw;
        if bool_decide (mode ≠ "update" ∧ id_ ∈ known_ids)
        then Ok (st, Known)
        else
          '(ref, changed, changes, _) ←
            merge maps id_ rec (st_db st !! id_) (st_changes st);
          Ok (mkState (<[id_ := ref]> (st_db st)) changes
                (if (changed : bool) then st_count st + 1 else st_count st)
                (st_skipped st),
              Merged changed)
    end.

Fixpoint loop (mode : string) (known_ids : gset Z) (maps : lookups)
    (st : state) (bib : list Record_) : result state :=
  match bib with
  | [] => Ok st
  | rec :: bib' =>
      '(st', _) ← body mode known_ids maps st rec;
      loop mode known_ids maps st' bib'
  end.

(** [main], from the catalog [db]: the loop over the records of the
    bibliography. [update_providers] and [update_reflang], which run
    before and after it, are not part of these sources. *)
Definition main (mode : string) (maps : lookups) (bib : list Record_)
    (db : gmap Z Ref) : result state :=
  loop mode (dom db) maps (mkState db ∅ 0 0) bib.

End Merge.

(* ===================================================================== *)
(** * Languoids ([models.py]) *)
(* ===================================================================== *)

Module Models.

(** A value set of a languoid: the id of its parameter, its description
    and its references (by key). *)
Record ValueSet : Type := mkValueSet {
  parameter_id : string;
  description : option string;
  references : list Z;
}.

(** A row of [Languoid]. *)
Record Languoid : Type := mkLanguoid {
  pk : Z;
  father_pk : option Z;
  valuesets : list ValueSet;
}.

(** The languoid table, by primary key. *)
Abbreviation table := (gmap Z Languoid).

(** [self.father] *)
Definition father (t : table) (l : Languoid) : option Languoid :=
  match father_pk l with
  | Some p => t !! p
  | None => None
  end.

(** [{vs.parameter.id: vs for vs in self.valuesets}] *)
Definition valueset_dict (l : Languoid) : gmap string ValueSet :=
  foldl (λ d vs, <[parameter_id vs := vs]> d) ∅ (valuesets l).

(** [self.classification(type_)], for [type_] in [['fc', 'sc']]. *)
Definition classification (l : Languoid) (type_ : string) : option ValueSet :=
  valueset_dict l !! type_.

Definition _crefs (l : Languoid) (t : string) : list Z :=
  match classification l t with
  | Some c => references c
  | None => []
  end.

(** [self.screfs]; [None] when [fuel] calls do not reach the end. *)
Fixpoint screfs (fuel : nat) (t : table) (l : Languoid) : option (list Z) :=
  match fuel with
  | O => None
  | S fuel' =>
      match _crefs l "sc" with
      | [] =>
          match father t l with
          | Some f => screfs fuel' t f
          | None => Some []
          end
      | res => Some res
      end
  end.

(** The father links from [l] end after [n] steps at a languoid that has
    no father. *)
Inductive chain (t : table) : Languoid → nat → Prop :=
  | chain_root l : father t l = None → chain t l O
  | chain_step l f n : father t l = Some f → chain t f n → chain t l (S n).

(** [self.crefs], with [year_int r] for [r.source.year_int]; [None] when
    [fuel] calls of [screfs] do not reach the end. *)
Definition crefs (fuel : nat) (year_int : Z → option Z) (t : table)
    (l : Languoid) : option (list Z) :=
  match screfs fuel t l with
  | Some inherited =>
      Some (Py.sorted (λ r, - default 0 (year_int r))
              (_crefs l "fc" ++ inherited))
  | None => None
  end.

(** ['inlg inlg_code subject subject_headings keywords ozbib_id'.split()] *)
Definition bibtex_attrs : list string :=
  ["inlg"; "inlg_code"; "subject"; "subject_headings"; "keywords";
   "ozbib_id"].

(** [Ref.__bibtex__] *)
Definition __bibtex__ (ref : Ref) : gmap string string :=
  foldl (λ res attr,
           let v := getattr ref attr in
           if truthy v then <[attr := str_of_value v]> res else res)
    ∅ bibtex_attrs.

End Models.

(* ===================================================================== *)
(** * A concrete instance of the helpers *)
(* ===================================================================== *)

Module Sample.

Definition roman_digit (c : ascii) : Z :=
  if Py.contains c "iI" then 1 else if Py.contains c "vV" then 5
  else if Py.contains c "xX" then 10 else if Py.contains c "lL" then 50
  else if Py.contains c "cC" then 100 else if Py.contains c "dD" then 500
  else if Py.contains c "mM" then 1000 else 0.

(** Roman numerals with subtractive notation, in either case. *)
Fixpoint roman_to_int (s : string) : Z :=
  match s with
  | EmptyString => 0
  | String c t =>
      let v := roman_digit c in
      match t with
      | String d _ => if v <? roman_digit d then roman_to_int t - v
                      else roman_to_int t + v
      | EmptyString => v
      end
  end.

(** Page ranges [start-end] only: start, end and their count. *)
Definition compute_pages (pages : string) : option Z * option Z * option Z :=
  match Py.split_once "-" pages with
  | Some (a, b) =>
      match Py.unsigned_int a, Py.unsigned_int b with
      | Some x, Some y => (Some x, Some y, Some (y - x + 1))
      | _, _ => (None, None, None)
      end
  | None => (None, None, None)
  end.

(** No escapes to undo, names that are their own slugs, and the
    enumerations in the order of the tables. *)
Definition helpers : helpers :=
  mkHelpers (λ s, s) roman_to_int compute_pages (λ s, s)
    FIELD_MAP (λ kw, (map_to_list kw).*1) remove_dups.

Definition A : Entity := mkEntity 1 "a".
Definition B : Entity := mkEntity 2 "b".
Definition C : Entity := mkEntity 3 "c".
Definition grammar : Entity := mkEntity 10 "grammar".
Definition africa : Entity := mkEntity 20 "africa".

Definition maps : lookups := {|
  provider_map := list_to_map [("a", A); ("b", B); ("c", C)];
  macroarea_map := list_to_map [("Africa", africa)];
  doctype_map := list_to_map [("grammar", grammar)];
|}.

(** A record of six fields and more. *)
Definition record (extra : list (string * string)) : Record_ :=
  mkRecord "key2014" "book"
    (list_to_map (extra ++
       [("glottolog_ref_id", "7"); ("author", "Doe, J."); ("year", "[1987]");
        ("title", "A grammar"); ("publisher", "Berlin: Mouton");
        ("src", "b, c")])).

(** The scenario of the specification: a family with the
    sub-classification reference 1 and its child with none. *)
Definition family : Models.Languoid :=
  Models.mkLanguoid 1 None [Models.mkValueSet "sc" (Some "x") [1]].
Definition child : Models.Languoid :=
  Models.mkLanguoid 2 (Some 1) [Models.mkValueSet "fc" None [5]].
Definition tree : gmap Z Models.Languoid :=
  <[1 := family]> (<[2 := child]> ∅).

(** A reference already in the catalog, with the providers A and B. *)
Definition stored : Ref := mkRef ∅ [] [A; B] [].

(** A record with a page count and a page range. *)
Definition paged : Record_ :=
  record [("numberofpages", "100"); ("pages", "12-45")].

(** A record with an address that is not the one of the publisher text. *)
Definition addressed : Record_ := record [("address", "Leipzig")].

(** A record with a language code of three letters. *)
Definition coded : Record_ := record [("lgcode", "abc")].

(** The value of a run that raised nothing. *)
Definition value_of {A} (default : A) (r : result A) : A :=
  match r with
  | Ok a => a
  | Raise _ => default
  end.

Definition no_merge : Ref * bool * change_log * gmap string string :=
  (mkRef ∅ [] [] [], false, ∅, ∅).

(** The sample records, parsed and merged. *)
Definition kw0_plain : gmap string value :=
  Eval vm_compute in
    value_of ∅ (map_fields helpers (record []) FIELD_MAP (kw_init 7 (record []))).
Definition kw_plain : gmap string value :=
  Eval vm_compute in value_of ∅ (parse_record helpers 7 (record [])).
Definition kw_paged : gmap string value :=
  Eval vm_compute in value_of ∅ (parse_record helpers 7 paged).
Definition kw_addressed : gmap string value :=
  Eval vm_compute in value_of ∅ (parse_record helpers 7 addressed).
Definition merged_stored : Ref * bool * change_log * gmap string string :=
  Eval vm_compute in
    value_of no_merge (merge helpers maps 7 (record []) (Some stored) ∅).
Definition merged_coded : Ref * bool * change_log * gmap string string :=
  Eval vm_compute in value_of no_merge (merge helpers maps 7 coded None ∅).
Definition kw_coded : gmap string value :=
  Eval vm_compute in value_of ∅ (parse_record helpers 7 coded).

(** The catalog after the record with the language code was imported. *)
Definition imported : state := mkState {[7 := merged_coded.1.1.1]} ∅ 1 0.

(** The same record imported once more, in the mode [update]. *)
Definition updated_ref : Ref :=
  Eval vm_compute in
    (update_ref helpers kw_coded merged_coded.1.1.1 ∅).1.1.
Definition imported_again : state :=
  Eval vm_compute in
    (value_of (imported, Skipped)
       (body helpers "update" {[7]} maps imported coded)).1.

(** A record of five fields, without reference id. *)
Definition scant : Record_ :=
  mkRecord "k" "book" (list_to_map [("author", "A"); ("year", "1987");
     ("title", "T"); ("volume", "2"); ("pages", "3-4")]).

(** A record of six fields without reference id, and one naming a provider
    that no row stands for. *)
Definition anonymous : Record_ :=
  mkRecord "k" "book" (list_to_map [("author", "A"); ("year", "1987");
     ("title", "T"); ("volume", "2"); ("pages", "3-4"); ("note", "n")]).
Definition unprovided : Record_ := record [("src", "b, zzz")].

(** A catalog holding the reference 7, and a run over three records in the
    mode [insert]: one sparse, one for the reference 7 and one for 8. *)
Definition kw_unprovided : gmap string value :=
  Eval vm_compute in value_of ∅ (parse_record helpers 7 unprovided).
Definition catalog7 : gmap Z Ref := {[7 := stored]}.
Definition record8 : Record_ :=
  mkRecord "key8" "article"
    (list_to_map [("glottolog_ref_id", "8"); ("author", "Roe, R.");
       ("year", "2001"); ("title", "Notes"); ("journal", "J");
       ("pages", "xii+34")]).
Definition bib3 : list Record_ := [scant; record []; record8].
Definition no_state : state := mkState ∅ ∅ 0 0.
Definition inserted : state :=
  Eval vm_compute in value_of no_state (main helpers "insert" maps bib3 catalog7).

Definition kw_record8 : gmap string value :=
  Eval vm_compute in value_of ∅ (parse_record helpers 8 record8).

(** The record with the language code, merged into the stored reference. *)
Definition updated_coded : Ref * bool * change_log * gmap string string :=
  Eval vm_compute in
    value_of no_merge (merge helpers maps 7 coded (Some stored) ∅).

(** The years of the sources of the references: the reference 1 is
    dated, the reference 5 is not. *)
Definition dated (r : Z) : option Z := if r =? 1 then Some 1990 else None.

(** A record with an identifier of OZBIB and a language of the text. *)
Definition ozbib : Record_ := record [("ozbib_id", "012"); ("inlg", "German")].
Definition merged_ozbib : Ref * bool * change_log * gmap string string :=
  Eval vm_compute in value_of no_merge (merge helpers maps 7 ozbib None ∅).

Definition kw_paged_only : gmap string value :=
  Eval vm_compute in
    value_of ∅ (parse_record helpers 7 (record [("pages", "12-45")])).

(** A record of six keys of which two are populated, and the state after
    it was imported into an empty catalog. *)
Definition hollow : Record_ :=
  mkRecord "k9" "misc"
    (list_to_map [("glottolog_ref_id", "9"); ("author", "A"); ("title", "");
       ("year", ""); ("volume", ""); ("pages", "")]).
Definition hollow_imported : state :=
  Eval vm_compute in
    (value_of (no_state, Skipped)
       (body helpers "insert" ∅ maps no_state hollow)).1.

(** The sample record with the provider b alone, the catalog after it was
    imported, and the catalog after the sample record itself, which names
    the providers b and c, was then merged in the mode [update]. *)
Definition sourced_b : Record_ := record [("src", "b")].
Definition merged_b : Ref * bool * change_log * gmap string string :=
  Eval vm_compute in value_of no_merge (merge helpers maps 7 sourced_b None ∅).
Definition imported_b : state := mkState {[7 := merged_b.1.1.1]} ∅ 1 0.
Definition imported_bc : state :=
  Eval vm_compute in
    (value_of (imported_b, Skipped)
       (body helpers "update" {[7]} maps imported_b (record []))).1.

Definition merged_new : Ref * bool * change_log * gmap string string :=
  Eval vm_compute in
    value_of no_merge (merge helpers maps 7 (record []) None ∅).

End Sample.

(* ===================================================================== *)
(** * Vocabulary of the statements *)
(* ===================================================================== *)

(** Four characters: 1 or 2, then three digits. *)
Definition four_digit_year (y : string) : Prop :=
  ∃ a b c d, y = String a (String b (String c (String d EmptyString)))
             ∧ Re.is12 a = true ∧ Re.digit b = true
             ∧ Re.digit c = true ∧ Re.digit d = true.

(** What may follow the year inside the brackets: the closing bracket, or
    a dash, one digit or more, and the closing bracket. *)
Definition closing (post : string) : Prop :=
  (∃ r, post = String "]" r)
  ∨ (∃ ds r, post = String "-" (ds +:+ String "]" r)
             ∧ ds ≠ EmptyString ∧ Py.all_digits ds = true).

(** [s] holds the bracketed year [y] right after the prefix [pre]. *)
Definition bracketed_year (s pre y : string) : Prop :=
  ∃ post, s = pre +:+ String "[" (y +:+ post)
          ∧ four_digit_year y ∧ closing post.

(** [s] holds the four-digit number [y] right after the prefix [pre],
    whatever surrounds it. *)
Definition plain_year (s pre y : string) : Prop :=
  ∃ post, s = pre +:+ y +:+ post ∧ four_digit_year y.

(** The providers named by the record, as the loop on lines 345-347
    looks them up one after the other. *)
Definition desired_providers (h : helpers) (maps : lookups)
    (kw : gmap string value) : result (list Entity) :=
  map_get_all (provider_map maps) (slug h <$> tag_names h (jsondata_get kw "src")).

(** [new] is [old] followed by the desired members that [old] lacks, each
    of them once: nothing is removed and nothing is repeated. *)
Definition extends (old new desired : list Entity) : Prop :=
  ∃ added, new = old ++ added ∧ NoDup added
           ∧ ∀ x, x ∈ added ↔ x ∈ desired ∧ x ∉ old.

(** The keys [kw] can hold after parsing: the four initial ones, the
    derived numbers, and the targets of [FIELD_MAP]. *)
Definition kw_columns : list string :=
  ["pk"; "bibtex_type"; "id"; "jsondata"; "pages_int"; "year_int";
   "startpage_int"; "endpage_int"]
  ++ filter (λ t : string, t ≠ EmptyString) FIELD_MAP.*2.

(** [t] is a target of [FIELD_MAP] with the single source [s]. *)
Definition only_source (s t : string) : Prop :=
  (s, t) ∈ FIELD_MAP ∧ Forall (λ p, p.2 = t → p.1 = s) FIELD_MAP.

(** [r'] has the relationship collections of [r]. *)
Definition same_collections (r r' : Ref) : Prop :=
  macroareas r' = macroareas r ∧ providers r' = providers r
  ∧ doctypes r' = doctypes r.

(** The side-bag as the specification describes it: exactly the populated
    source fields whose target in [FIELD_MAP] is empty, each with its
    unescaped text. *)
Definition side_bag_as_claimed (h : helpers) (rec : Record_)
    (bag : gmap string string) : Prop :=
  ∀ k, bag !! k =
       match rec_get rec k with
       | Some raw =>
           if bool_decide ((k, EmptyString) ∈ FIELD_MAP)
           then Some (unescape h raw) else None
       | None => None
       end.

(** The text kept in the side-bag under [k] for the unescaped text [s]:
    a language code of three characters is put in brackets. *)
Definition stored_text (k s : string) : string :=
  if bool_decide (k = "lgcode" ∧ String.length s = 3%nat)
  then "[" +:+ s +:+ "]" else s.

(** The description of the reference mirrors its title, when it has one. *)
Definition mirrored (ref : Ref) : Prop :=
  truthy (getattr ref "title") = true →
  getattr ref "description" = getattr ref "title".

(** Line 230: the record has fewer than six keys. *)
Definition sparse (rec : Record_) : bool :=
  bool_decide (size (rec_fields rec) < 6)%nat.

(** The record carries the reference id [id_] (lines 237-238). *)
Definition carries_id (rec : Record_) (id_ : Z) : Prop :=
  ∃ raw, rec_get rec "glottolog_ref_id" = Some raw ∧ Py.int raw = Ok id_.

(** No character of the text is white space. *)
Fixpoint no_space (s : string) : bool :=
  match s with
  | String c t => negb (Py.isspace c) && no_space t
  | EmptyString => true
  end.

(** The groups [(roman, arabic)] of the page text, as lines 288-290 look
    for them: Roman before Arabic first, then Arabic before Roman. *)
Definition roman_pages (pages : string) : option (string * string) :=
  match Re.ROMANPAGESPATTERNra pages with
  | Some m => Some m
  | None => Re.ROMANPAGESPATTERNar pages
  end.

(** Every character of the text satisfies [p]. *)
Fixpoint all_chars (p : ascii → bool) (s : string) : bool :=
  match s with
  | String c t => p c && all_chars p t
  | EmptyString => true
  end.

(** A name as [DOCTYPE_PATTERN] takes it: one character or more of
    [[a-z_]]. *)
Definition doctype_name (name : string) : Prop :=
  name ≠ EmptyString ∧ all_chars Re.name_char name = true.

(** The number of populated keys of a record: the keys whose value is
    not empty. *)
Definition populated (rec : Record_) : nat :=
  size (filter (λ kv : string * string, kv.2 ≠ EmptyString) (rec_fields rec)).

(** The occurrence with the shortest prefix. *)
Definition leftmost (P : string → string → Prop) (pre y : string) : Prop :=
  P pre y ∧ ∀ pre' y', P pre' y' → (String.length pre ≤ String.length pre')%nat.

(* ===================================================================== *)
(** * Texts and patterns *)
(* ===================================================================== *)

(** Closes [l = r] for a closed [l] that evaluates to [r]. *)
Ltac by_vm :=
  lazymatch goal with
  | |- _ = ?r => vm_cast_no_check (eq_refl r)
  end.

Section Strings.

Lemma app_cons c (s t : string) : String c s +:+ t = String c (s +:+ t).
Proof. reflexivity. Qed.

Lemma app_empty_l (t : string) : EmptyString +:+ t = t.
Proof. reflexivity. Qed.

(** The scan finds the match of the shortest prefix. *)
Lemma search_Some {A} (m : string → option A) s x :
  Re.search m s = Some x ↔
  ∃ pre post, s = pre +:+ post ∧ m post = Some x
    ∧ ∀ pre' post', s = pre' +:+ post' → is_Some (m post') →
        (String.length pre ≤ String.length pre')%nat.
Proof.
  induction s as [|c s IH]; simpl.
  - split.
    + destruct (m EmptyString) eqn:E; [|done]. intros [= ->].
      exists EmptyString, EmptyString. repeat split; auto. simpl. lia.
    + intros (pre & post & Hs & Hm & _).
      destruct pre; [|done]. rewrite app_empty_l in Hs. subst post.
      by rewrite Hm.
  - destruct (m (String c s)) eqn:E.
    + split.
      * intros [= ->]. exists EmptyString, (String c s).
        repeat split; auto. simpl. lia.
      * intros (pre & post & Hs & Hm & Hmin).
        specialize (Hmin EmptyString (String c s) eq_refl).
        rewrite E in Hmin. specialize (Hmin (mk_is_Some _ _ eq_refl)).
        destruct pre; [|simpl in Hmin; lia].
        rewrite app_empty_l in Hs. subst post. congruence.
    + rewrite IH. split.
      * intros (pre & post & -> & Hm & Hmin).
        exists (String c pre), post. repeat split; auto.
        intros pre' post' Hs [y Hy]. destruct pre' as [|c' pre'].
        { rewrite app_empty_l in Hs. subst post'. congruence. }
        rewrite app_cons in Hs. injection Hs as -> Hs.
        simpl. apply le_n_S. eapply Hmin; eauto.
      * intros (pre & post & Hs & Hm & Hmin). destruct pre as [|c' pre].
        { rewrite app_empty_l in Hs. subst post. congruence. }
        rewrite app_cons in Hs. injection Hs as <- Hs.
        exists pre, post. split; [done|]. split; [done|].
        intros pre' post' Hs' Hy.
        specialize (Hmin (String c pre') post').
        rewrite app_cons, <- Hs' in Hmin.
        specialize (Hmin eq_refl Hy). simpl in Hmin. lia.
Qed.

Lemma search_None {A} (m : string → option A) s :
  Re.search m s = None ↔ ∀ pre post, s = pre +:+ post → m post = None.
Proof.
  induction s as [|c s IH]; simpl.
  - split.
    + destruct (m EmptyString) eqn:E; [done|]. intros _ pre post Hs.
      destruct pre; [|done]. rewrite app_empty_l in Hs. by subst.
    + intros H. by rewrite (H EmptyString EmptyString eq_refl).
  - destruct (m (String c s)) eqn:E.
    + split; [done|]. intros H.
      specialize (H EmptyString (String c s) eq_refl). congruence.
    + rewrite IH. split.
      * intros H pre post Hs. destruct pre as [|c' pre].
        { rewrite app_empty_l in Hs. by subst. }
        rewrite app_cons in Hs. injection Hs as -> ->. by eapply H.
      * intros H pre post ->. by apply (H (String c pre) post).
Qed.

Lemma year_group_spec s y r :
  Re.year_group s = Some (y, r) ↔ s = y +:+ r ∧ four_digit_year y.
Proof.
  unfold Re.year_group, four_digit_year. split.
  - destruct s as [|a [|b [|c [|d rest]]]]; try done.
    destruct (Re.is12 a) eqn:Ea, (Re.digit b) eqn:Eb,
      (Re.digit c) eqn:Ec, (Re.digit d) eqn:Ed; simpl; try done.
    intros [= <- <-]. split; [done|]. by exists a, b, c, d.
  - intros [-> (a & b & c & d & -> & Ha & Hb & Hc & Hd)].
    rewrite !app_cons, app_empty_l. by rewrite Ha, Hb, Hc, Hd.
Qed.

Lemma skip_digits_app ds r :
  Py.all_digits ds = true → Re.skip_digits (ds +:+ String "]" r) = String "]" r.
Proof.
  induction ds as [|c ds IH]; simpl; [done|].
  intros [Hc Hds]%andb_prop. rewrite ?app_cons. simpl.
  unfold Re.digit. rewrite Hc. auto.
Qed.

Lemma skip_digits_inv t r :
  Re.skip_digits t = String "]" r →
  ∃ ds, t = ds +:+ String "]" r ∧ Py.all_digits ds = true.
Proof.
  induction t as [|c t IH]; simpl; [done|].
  destruct (Re.digit c) eqn:Ec.
  - intros (ds & -> & Hds)%IH. exists (String c ds). split; [done|].
    simpl. unfold Re.digit in Ec. by rewrite Ec.
  - intros [= -> ->]. by exists EmptyString.
Qed.

Lemma pref_tail_spec post : Re.pref_tail post = true ↔ closing post.
Proof.
  unfold closing. split.
  - destruct post as [|c post]; simpl; [done|].
    destruct (decide (c = "]"%char)) as [->|Hc1]; [intros _; left; eauto|].
    destruct (decide (c = "-"%char)) as [->|Hc2].
    + destruct post as [|d t]; [done|].
      intros [Hd Ht]%andb_prop. right.
      destruct (Re.skip_digits t) as [|c' r] eqn:E; [done|].
      destruct (decide (c' = "]"%char)) as [->|Hc'].
      * apply skip_digits_inv in E as (ds & -> & Hds).
        exists (String d ds), r. repeat split; [done|].
        simpl. unfold Re.digit in Hd. by rewrite Hd.
      * exfalso. revert Ht. clear -Hc'.
        destruct c' as [[] [] [] [] [] [] [] []]; try done.
    + intros H. exfalso. revert H. clear -Hc1 Hc2.
      destruct c as [[] [] [] [] [] [] [] []]; try done;
        destruct post; done.
  - intros [[r ->]|(ds & r & -> & Hne & Hds)]; [done|].
    destruct ds as [|d ds]; [done|]. rewrite app_cons. simpl.
    simpl in Hds. apply andb_prop in Hds as [Hd Hds].
    unfold Re.digit at 1. rewrite Hd. simpl.
    by rewrite skip_digits_app.
Qed.

Lemma PREF_YEAR_PATTERN_match_spec s y :
  Re.PREF_YEAR_PATTERN_match s = Some y ↔ bracketed_year s EmptyString y.
Proof.
  unfold Re.PREF_YEAR_PATTERN_match, bracketed_year. split.
  - destruct s as [|c t]; [done|].
    destruct (decide (c = "["%char)) as [->|Hc].
    + destruct (Re.year_group t) as [[y' r]|] eqn:E; [|done].
      destruct (Re.pref_tail r) eqn:Er; [|done]. intros [= ->].
      apply year_group_spec in E as [-> Hy]. apply pref_tail_spec in Er.
      by exists r.
    + intros H. exfalso. revert H. clear -Hc.
      destruct c as [[] [] [] [] [] [] [] []]; done.
  - intros (post & -> & Hy & Hpost). rewrite app_empty_l.
    assert (Re.year_group (y +:+ post) = Some (y, post)) as ->
      by by apply year_group_spec.
    apply pref_tail_spec in Hpost. by rewrite Hpost.
Qed.

Lemma YEAR_PATTERN_match_spec s y :
  Re.YEAR_PATTERN_match s = Some y ↔ plain_year s EmptyString y.
Proof.
  unfold Re.YEAR_PATTERN_match, plain_year. split.
  - destruct (Re.year_group s) as [[y' r]|] eqn:E; [|done].
    intros [= ->]. apply year_group_spec in E as [-> Hy]. by exists r.
  - intros (post & -> & Hy). rewrite app_empty_l.
    assert (Re.year_group (y +:+ post) = Some (y, post)) as ->
      by by apply year_group_spec.
    done.
Qed.

Lemma app_assoc_s (a b c : string) : (a +:+ b) +:+ c = a +:+ b +:+ c.
Proof. induction a; [done|]. rewrite !app_cons. by f_equal. Qed.

Lemma bracketed_year_shift s pre post y :
  s = pre +:+ post → bracketed_year post EmptyString y ↔ bracketed_year s pre y.
Proof.
  intros ->. unfold bracketed_year. split.
  - intros (p & -> & ?). exists p. by rewrite app_empty_l.
  - intros (p & Hs & ?). exists p. rewrite app_empty_l.
    apply String.app_inj in Hs. by rewrite Hs.
Qed.

Lemma plain_year_shift s pre post y :
  s = pre +:+ post → plain_year post EmptyString y ↔ plain_year s pre y.
Proof.
  intros ->. unfold plain_year. split.
  - intros (p & -> & ?). exists p. by rewrite app_empty_l.
  - intros (p & Hs & ?). exists p. rewrite app_empty_l.
    apply String.app_inj in Hs. by rewrite Hs.
Qed.

Lemma PREF_YEAR_PATTERN_leftmost s pre y :
  leftmost (bracketed_year s) pre y → Re.PREF_YEAR_PATTERN s = Some y.
Proof.
  intros [Hocc Hmin]. apply search_Some.
  destruct Hocc as (post & Hs & Hy & Hpost).
  exists pre, (String "[" (y +:+ post)). split; [done|]. split.
  - apply PREF_YEAR_PATTERN_match_spec. exists post. by rewrite app_empty_l.
  - intros pre' post' Hs' [y' Hy'%PREF_YEAR_PATTERN_match_spec].
    apply (Hmin pre' y'). by apply (bracketed_year_shift _ _ post').
Qed.

Lemma PREF_YEAR_PATTERN_absent s :
  (∀ pre y, ¬ bracketed_year s pre y) → Re.PREF_YEAR_PATTERN s = None.
Proof.
  intros H. apply search_None. intros pre post Hs.
  destruct (Re.PREF_YEAR_PATTERN_match post) as [y|] eqn:E; [|done].
  apply PREF_YEAR_PATTERN_match_spec in E.
  destruct (H pre y). by apply (bracketed_year_shift _ _ post).
Qed.

Lemma YEAR_PATTERN_leftmost s pre y :
  leftmost (plain_year s) pre y → Re.YEAR_PATTERN s = Some y.
Proof.
  intros [Hocc Hmin]. apply search_Some.
  destruct Hocc as (post & Hs & Hy).
  exists pre, (y +:+ post). split; [done|]. split.
  - apply YEAR_PATTERN_match_spec. exists post. by rewrite app_empty_l.
  - intros pre' post' Hs' [y' Hy'%YEAR_PATTERN_match_spec].
    apply (Hmin pre' y'). by apply (plain_year_shift _ _ post').
Qed.

Lemma YEAR_PATTERN_absent s :
  (∀ pre y, ¬ plain_year s pre y) → Re.YEAR_PATTERN s = None.
Proof.
  intros H. apply search_None. intros pre post Hs.
  destruct (Re.YEAR_PATTERN_match post) as [y|] eqn:E; [|done].
  apply YEAR_PATTERN_match_spec in E.
  destruct (H pre y). by apply (plain_year_shift _ _ post).
Qed.

End Strings.

Section Years.

Lemma PREF_YEAR_PATTERN_Some_inv s y :
  Re.PREF_YEAR_PATTERN s = Some y → ∃ pre, leftmost (bracketed_year s) pre y.
Proof.
  intros (pre & post & Hs & Hm & Hmin)%search_Some. exists pre. split.
  - apply (bracketed_year_shift _ _ post); [done|].
    by apply PREF_YEAR_PATTERN_match_spec.
  - intros pre' y' (p & Hs' & Hy').
    apply (Hmin pre' (String "[" (y' +:+ p)) Hs').
    exists y'. apply PREF_YEAR_PATTERN_match_spec. exists p.
    by rewrite app_empty_l.
Qed.

Lemma PREF_YEAR_PATTERN_None_inv s :
  Re.PREF_YEAR_PATTERN s = None → ∀ pre y, ¬ bracketed_year s pre y.
Proof.
  intros H pre y (p & Hs & Hy). eapply search_None in H; [|exact Hs].
  assert (Re.PREF_YEAR_PATTERN_match (String "[" (y +:+ p)) = Some y);
    [|congruence].
  apply PREF_YEAR_PATTERN_match_spec. exists p. by rewrite app_empty_l.
Qed.

Lemma YEAR_PATTERN_Some_inv s y :
  Re.YEAR_PATTERN s = Some y → ∃ pre, leftmost (plain_year s) pre y.
Proof.
  intros (pre & post & Hs & Hm & Hmin)%search_Some. exists pre. split.
  - apply (plain_year_shift _ _ post); [done|].
    by apply YEAR_PATTERN_match_spec.
  - intros pre' y' (p & Hs' & Hy').
    apply (Hmin pre' (y' +:+ p) Hs').
    exists y'. apply YEAR_PATTERN_match_spec. exists p.
    by rewrite app_empty_l.
Qed.

Lemma YEAR_PATTERN_None_inv s :
  Re.YEAR_PATTERN s = None → ∀ pre y, ¬ plain_year s pre y.
Proof.
  intros H pre y (p & Hs & Hy). eapply search_None in H; [|exact Hs].
  assert (Re.YEAR_PATTERN_match (y +:+ p) = Some y); [|congruence].
  apply YEAR_PATTERN_match_spec. exists p. by rewrite app_empty_l.
Qed.

Lemma digit_not_space c : Py.isdigit c = true → Py.isspace c = false.
Proof.
  unfold Py.isdigit, Py.isspace. generalize (N_of_ascii c). intros n H.
  apply andb_prop in H as [H1%N.leb_le H2%N.leb_le].
  destruct (N.leb_spec 9 n), (N.leb_spec n 13), (N.leb_spec 28 n),
    (N.leb_spec n 32), (N.eqb_spec n 133), (N.eqb_spec n 160);
    simpl; try done; lia.
Qed.

Lemma is12_digit a : Re.is12 a = true → Py.isdigit a = true.
Proof.
  unfold Re.is12. intros [->%Ascii.eqb_eq| ->%Ascii.eqb_eq]%orb_prop; done.
Qed.

(** [int] of a matched year never raises. *)
Lemma int_four_digit_year y :
  four_digit_year y → Py.int y = Ok (Py.digits_value 0 y).
Proof.
  intros (a & b & c & d & -> & Ha & Hb & Hc & Hd).
  pose proof (is12_digit _ Ha) as Ha'. unfold Re.digit in *.
  unfold Py.int, Py.strip, Py.rstrip. cbn [Py.lstrip].
  rewrite (digit_not_space a Ha'). cbn [String.rev String.rev_app Py.lstrip].
  rewrite (digit_not_space d Hd). cbn [String.rev String.rev_app].
  unfold Re.is12 in Ha.
  assert (Py.unsigned_int (String a (String b (String c (String d EmptyString))))
          = Some (Py.digits_value 0
                    (String a (String b (String c (String d EmptyString)))))) as Hu.
  { unfold Py.unsigned_int. cbn [Py.all_digits]. by rewrite Ha', Hb, Hc, Hd. }
  apply orb_prop in Ha as [->%Ascii.eqb_eq| ->%Ascii.eqb_eq];
    cbv match; by rewrite Hu.
Qed.

End Years.

(** C7. Year extraction returns the four-digit number of the leftmost
    bracketed year (a bracket, 1 or 2 and three digits, then either the
    closing bracket or a dash, digits and the closing bracket; the digits
    after the dash are dropped); when the text holds no bracketed year, the
    leftmost run of four characters made of 1 or 2 and three digits; and
    [None] when it holds neither. The three sample texts of the
    specification give 1987, 1987 and [None]. *)
Theorem extract_year_spec :
  (∀ raw,
     (∀ pre y, leftmost (bracketed_year raw) pre y →
        extract_year raw = Ok (Some (Py.digits_value 0 y)))
     ∧ ((∀ pre y, ¬ bracketed_year raw pre y) →
        ∀ pre y, leftmost (plain_year raw) pre y →
          extract_year raw = Ok (Some (Py.digits_value 0 y)))
     ∧ ((∀ pre y, ¬ bracketed_year raw pre y) →
        (∀ pre y, ¬ plain_year raw pre y) →
        extract_year raw = Ok None))
  ∧ extract_year "[1987]" = Ok (Some 1987)
  ∧ extract_year "Published 1987, reprinted 1999" = Ok (Some 1987)
  ∧ extract_year "no year" = Ok None.
Proof.
  split; [|by repeat split]. intros raw. unfold extract_year. repeat split.
  - intros pre y Hl. rewrite (PREF_YEAR_PATTERN_leftmost _ _ _ Hl).
    destruct Hl as [(post & _ & Hy & _) _].
    by rewrite (int_four_digit_year _ Hy).
  - intros Hno pre y Hl. rewrite (PREF_YEAR_PATTERN_absent _ Hno).
    rewrite (YEAR_PATTERN_leftmost _ _ _ Hl).
    destruct Hl as [(post & _ & Hy) _].
    by rewrite (int_four_digit_year _ Hy).
  - intros Hno Hno'. rewrite (PREF_YEAR_PATTERN_absent _ Hno).
    by rewrite (YEAR_PATTERN_absent _ Hno').
Qed.

Lemma extract_year_spec_witness :
  extract_year "1999 [1987-2]" = Ok (Some 1987)
  ∧ extract_year "Published 1987, reprinted 1999" = Ok (Some 1987)
  ∧ extract_year "no year" = Ok None.
Proof.
  destruct extract_year_spec as [H _]. split; [|split].
  - destruct (PREF_YEAR_PATTERN_Some_inv "1999 [1987-2]" "1987" eq_refl)
      as [pre Hl].
    exact (proj1 (H "1999 [1987-2]") pre "1987" Hl).
  - destruct (YEAR_PATTERN_Some_inv "Published 1987, reprinted 1999" "1987"
                eq_refl) as [pre Hl].
    exact (proj1 (proj2 (H "Published 1987, reprinted 1999"))
             (PREF_YEAR_PATTERN_None_inv "Published 1987, reprinted 1999"
                eq_refl) pre "1987" Hl).
  - exact (proj2 (proj2 (H "no year"))
             (PREF_YEAR_PATTERN_None_inv "no year" eq_refl)
             (YEAR_PATTERN_None_inv "no year" eq_refl)).
Defined.

(* ===================================================================== *)
(** * Inherited sub-classification references *)
(* ===================================================================== *)

Section Screfs.
Import Models.

Lemma screfs_own fuel t l :
  _crefs l "sc" ≠ [] → screfs (S fuel) t l = Some (_crefs l "sc").
Proof. simpl. by destruct (_crefs l "sc"). Qed.

Lemma screfs_father fuel t l f :
  _crefs l "sc" = [] → father t l = Some f →
  screfs (S fuel) t l = screfs fuel t f.
Proof. simpl. by intros -> ->. Qed.

Lemma screfs_root fuel t l :
  _crefs l "sc" = [] → father t l = None → screfs (S fuel) t l = Some [].
Proof. simpl. by intros -> ->. Qed.

(** More fuel does not change a result. *)
Lemma screfs_mono fuel fuel' t l res :
  screfs fuel t l = Some res → (fuel ≤ fuel')%nat → screfs fuel' t l = Some res.
Proof.
  revert fuel' l. induction fuel as [|fuel IH]; [done|].
  intros [|fuel'] l Hres Hle; [lia|]. simpl in *.
  destruct (_crefs l "sc"); [|done].
  destruct (father t l); [|done]. apply IH; [done|lia].
Qed.

(** A chain of [n] links is walked with [n + 1] calls. *)
Lemma screfs_terminates t l n :
  chain t l n → ∃ res, screfs (S n) t l = Some res.
Proof.
  induction 1 as [l Hroot|l f n Hf _ [res IH]].
  - destruct (decide (_crefs l "sc" = [])) as [He|Hne].
    + exists []. by apply screfs_root.
    + exists (_crefs l "sc"). by apply screfs_own.
  - destruct (decide (_crefs l "sc" = [])) as [He|Hne].
    + exists res. by rewrite (screfs_father _ _ _ f).
    + exists (_crefs l "sc"). by apply screfs_own.
Qed.

End Screfs.

(** C8. For a languoid whose father links end after [n] steps, the lookup
    returns a list [res] with any fuel above [n]; [res] is the languoid's
    own sub-classification references when there are some, otherwise the
    result of the same lookup on its father, and the empty list at a
    languoid with neither references nor father. In the scenario of the
    specification the lookup on the child of the family yields the
    reference of the family. *)
Theorem screfs_inherits (t : gmap Z Models.Languoid) (l : Models.Languoid) (n : nat) :
  Models.chain t l n →
  ∃ res,
    (∀ fuel, (n < fuel)%nat → Models.screfs fuel t l = Some res)
    ∧ (Models._crefs l "sc" ≠ [] → res = Models._crefs l "sc")
    ∧ (Models._crefs l "sc" = [] →
       ∀ f, Models.father t l = Some f →
         ∀ fuel, (n ≤ fuel)%nat → Models.screfs fuel t f = Some res)
    ∧ (Models._crefs l "sc" = [] → Models.father t l = None → res = [])
    ∧ Models.screfs 2 Sample.tree Sample.child = Some [1%Z]
    ∧ Models.screfs 1 Sample.tree Sample.family = Some [1%Z].
Proof.
  intros Hchain. destruct (screfs_terminates t l n Hchain) as [res Hres].
  exists res. split; [|split; [|split; [|split]]].
  - intros fuel Hfuel. apply (screfs_mono (S n)); [done|lia].
  - intros Hne. rewrite screfs_own in Hres by done. congruence.
  - intros He f Hf fuel Hfuel. rewrite (screfs_father _ _ _ f) in Hres by done.
    by apply (screfs_mono n).
  - intros He Hf. rewrite screfs_root in Hres by done. congruence.
  - by split.
Qed.

Lemma screfs_inherits_witness :
  ∃ res, (∀ fuel, (1 < fuel)%nat → Models.screfs fuel Sample.tree Sample.child = Some res)
         ∧ res = [1%Z].
Proof.
  assert (Models.chain Sample.tree Sample.child 1) as Hchain.
  { apply (Models.chain_step Sample.tree Sample.child Sample.family 0); [reflexivity|].
    apply Models.chain_root. reflexivity. }
  destruct (screfs_inherits Sample.tree Sample.child 1 Hchain) as (res & Hfuel & _ & Hf & _).
  exists res. split; [exact Hfuel|].
  specialize (Hf eq_refl Sample.family eq_refl 1%nat (le_n 1)).
  vm_compute in Hf. congruence.
Defined.

(* ===================================================================== *)
(** * Sparse records *)
(* ===================================================================== *)

(** C6, as the code has it. Line 230 counts the keys of the record,
    whether their values are empty or not: a record with fewer than six
    keys leaves the catalog, the change log and the count of changed
    records as they are, adds one to the count of skipped records, raises
    nothing, and the loop goes on with the records that follow. *)
Theorem sparse_record_skipped (h : helpers) (mode : string)
    (known_ids : gset Z) (maps : lookups) (st : state) (rec : Record_)
    (bib : list Record_) :
  (size (rec_fields rec) < 6)%nat →
  ∃ st',
    body h mode known_ids maps st rec = Ok (st', Skipped)
    ∧ st_db st' = st_db st
    ∧ st_changes st' = st_changes st
    ∧ st_count st' = st_count st
    ∧ st_skipped st' = st_skipped st + 1
    ∧ loop h mode known_ids maps st (rec :: bib)
      = loop h mode known_ids maps st' bib.
Proof.
  intros Hsparse. eexists. split.
  - unfold body. rewrite bool_decide_eq_true_2 by done. reflexivity.
  - repeat split. simpl. unfold body.
    rewrite bool_decide_eq_true_2 by done. reflexivity.
Qed.

Lemma sparse_record_skipped_witness :
  ∃ st',
    body Sample.helpers "update" ∅ Sample.maps (mkState ∅ ∅ 0 0)
      (mkRecord "k" "book" (list_to_map [("glottolog_ref_id", "7");
         ("author", "A"); ("year", "1987"); ("title", "T"); ("volume", "2")]))
    = Ok (st', Skipped)
    ∧ st_db st' = ∅ ∧ st_skipped st' = 1.
Proof.
  destruct (sparse_record_skipped Sample.helpers "update" ∅ Sample.maps
              (mkState ∅ ∅ 0 0)
              (mkRecord "k" "book" (list_to_map [("glottolog_ref_id", "7");
                 ("author", "A"); ("year", "1987"); ("title", "T");
                 ("volume", "2")])) [])
    as (st' & Hbody & Hdb & _ & _ & Hskipped & _).
  { vm_compute. lia. }
  exists st'. split; [exact Hbody|]. split; [exact Hdb|exact Hskipped].
Defined.

(** C6 as stated fails: the record has six keys of which only two are
    populated, and it is not skipped but imported; the count of skipped
    records stays 0. *)
Lemma hollow_record_not_skipped :
  (populated Sample.hollow < 6)%nat
  ∧ body Sample.helpers "insert" ∅ Sample.maps Sample.no_state Sample.hollow
    = Ok (Sample.hollow_imported, Merged true)
  ∧ st_skipped Sample.hollow_imported = 0
  ∧ is_Some (st_db Sample.hollow_imported !! 9).
Proof.
  split; [vm_compute; lia|]. split; [by_vm|]. split; [reflexivity|].
  apply (bool_decide_unpack _). by vm_compute.
Qed.

(* ===================================================================== *)
(** * Relationship collections only grow *)
(* ===================================================================== *)

Section Relationships.
Context (h : helpers).

Lemma update_relationship_extends col new :
  extends col (update_relationship col new).1 new.
Proof.
  unfold update_relationship, extends. simpl.
  exists (filter (λ x, x ∉ col) (remove_dups new)). split; [done|]. split.
  - apply NoDup_filter, NoDup_remove_dups.
  - intros x. rewrite list_elem_of_filter, elem_of_remove_dups. tauto.
Qed.

Lemma append_providers_extends m names attr changed attr' changed' :
  append_providers h m names attr changed = Ok (attr', changed') →
  ∃ ps, map_get_all m (slug h <$> names) = Ok ps ∧ extends attr attr' ps.
Proof.
  revert attr changed. induction names as [|name names IH]; simpl.
  - intros attr changed [= <- <-]. exists []. split; [done|].
    exists []. rewrite app_nil_r. split; [done|]. split; [constructor|].
    intros x. rewrite elem_of_nil. tauto.
  - intros attr changed.
    destruct (map_get m (slug h name)) as [obj|] eqn:Eobj; [|done].
    simpl. unfold append. case_bool_decide as Hin.
    + intros (ps & Hps & added & -> & Hnd & Hadd)%IH. exists (obj :: ps).
      split; [by unfold fmap in Hps |- *; simpl; rewrite Hps|].
      exists (obj :: added).
      rewrite <- app_assoc. split; [done|]. split.
      * constructor; [|done]. intros [_ Hobj]%Hadd.
        apply Hobj, elem_of_app. right. by apply list_elem_of_singleton.
      * intros x.
        rewrite !elem_of_cons, Hadd, elem_of_app, list_elem_of_singleton.
        destruct (decide (x = obj)) as [->|Hx]; tauto.
    + intros (ps & Hps & added & -> & Hnd & Hadd)%IH. exists (obj :: ps).
      split; [by unfold fmap in Hps |- *; simpl; rewrite Hps|].
      exists added. split; [done|]. split; [done|].
      intros x. rewrite elem_of_cons, Hadd.
      destruct (decide (x = obj)) as [->|Hx]; tauto.
Qed.

Lemma setattr_collections ref k v :
  macroareas (setattr ref k v) = macroareas ref
  ∧ providers (setattr ref k v) = providers ref
  ∧ doctypes (setattr ref k v) = doctypes ref.
Proof. done. Qed.

Lemma update_attr_collections kw ref changed changes k :
  same_collections ref (update_attr kw (ref, changed, changes) k).1.1.
Proof.
  unfold update_attr, same_collections, mirror_title, update_jsondata.
  repeat (case_bool_decide || case_match || simplify_eq/=); done.
Qed.

Lemma update_ref_collections kw ref changes :
  same_collections ref (update_ref h kw ref changes).1.1.
Proof.
  unfold update_ref. generalize (kw_keys h kw) false changes.
  intros ks. revert ref. induction ks as [|k ks IH]; intros ref c ch; [done|].
  cbn [foldl].
  destruct (update_attr kw (ref, c, ch) k) as [[ref1 c1] ch1] eqn:E.
  pose proof (update_attr_collections kw ref c ch k) as H1.
  rewrite E in H1. simpl in H1. specialize (IH ref1 c1 ch1).
  unfold same_collections in *. intuition congruence.
Qed.

Lemma reconcile_extends maps kw ref changed ref' changed' :
  reconcile h maps kw ref changed = Ok (ref', changed') →
  attrs ref' = attrs ref
  ∧ ∃ ms ps ds,
      desired_macroareas h maps kw = Ok ms
      ∧ desired_providers h maps kw = Ok ps
      ∧ desired_doctypes maps kw = Ok ds
      ∧ extends (macroareas ref) (macroareas ref') ms
      ∧ extends (providers ref) (providers ref') ps
      ∧ extends (doctypes ref) (doctypes ref') ds.
Proof.
  unfold reconcile. destruct (desired_macroareas h maps kw) as [ms|]; [|done].
  simpl.
  destruct (append_providers h _ _ _ _) as [[ps' c1]|] eqn:Eps; [|done].
  apply append_providers_extends in Eps as (ps & Hps & Hext). simpl.
  destruct (desired_doctypes maps kw) as [ds|]; [|done]. simpl.
  intros [= <- <-]. split; [done|]. exists ms, ps, ds. simpl.
  repeat split; try done; apply update_relationship_extends.
Qed.

End Relationships.

Section MergeSteps.
Context (h : helpers).

(** The steps of [merge], one after the other. *)
Lemma merge_inv maps id_ rec existing changes ref' changed' changes' jsondata :
  merge h maps id_ rec existing changes = Ok (ref', changed', changes', jsondata) →
  ∃ kw ref1 changed1 ref2,
    parse_record h id_ rec = Ok kw
    ∧ match existing with
      | Some ref => update_ref h kw ref changes
      | None => (new_ref kw, true, changes)
      end = (ref1, changed1, changes')
    ∧ reconcile h maps kw ref1 changed1 = Ok (ref2, changed')
    ∧ jsondata = bracket_lgcode (kw_jsondata kw)
    ∧ ref' = (if changed' then finalize else id)
               match existing with
               | Some _ => ref2
               | None => setattr ref2 "jsondata" (VDict jsondata)
               end.
Proof.
  unfold merge. destruct (parse_record h id_ rec) as [kw|]; [|done]. simpl.
  destruct (match existing with
            | Some ref => update_ref h kw ref changes
            | None => (new_ref kw, true, changes)
            end) as [[ref1 changed1] changes1] eqn:E1.
  destruct (reconcile h maps kw ref1 changed1) as [[ref2 changed2]|] eqn:E2;
    [|done].
  simpl. intros [= <- <- <- <-]. exists kw, ref1, changed1, ref2.
  repeat split; try done. by destruct changed2.
Qed.

Lemma finalize_collections ref :
  same_collections ref (finalize ref).
Proof. done. Qed.

End MergeSteps.

(** C1. Whenever a record is merged, each of the three collections of the
    reference (macro-areas, providers, doctypes) is afterwards the
    collection it was (empty for a new reference) followed by the desired
    members it lacked, each once: nothing is removed. With the providers
    A and B and the desired providers B and C, the providers become A, B
    and C. *)
Theorem relationships_only_grow (h : helpers) (maps : lookups) (id_ : Z)
    (rec : Record_) (existing : option Ref) (changes changes' : change_log)
    (ref' : Ref) (changed' : bool) (jsondata : gmap string string) :
  merge h maps id_ rec existing changes = Ok (ref', changed', changes', jsondata) →
  let old := default (mkRef ∅ [] [] []) existing in
  (∃ kw ms ps ds,
     parse_record h id_ rec = Ok kw
     ∧ desired_macroareas h maps kw = Ok ms
     ∧ desired_providers h maps kw = Ok ps
     ∧ desired_doctypes maps kw = Ok ds
     ∧ extends (macroareas old) (macroareas ref') ms
     ∧ extends (providers old) (providers ref') ps
     ∧ extends (doctypes old) (doctypes ref') ds)
  ∧ update_relationship [Sample.A; Sample.B] [Sample.B; Sample.C]
    = ([Sample.A; Sample.B; Sample.C], ([Sample.C], true))
  ∧ append_providers Sample.helpers (provider_map Sample.maps) ["b"; "c"]
      [Sample.A; Sample.B] false
    = Ok ([Sample.A; Sample.B; Sample.C], true).
Proof.
  intros Hmerge old. split; [|by split].
  apply merge_inv in Hmerge
    as (kw & ref1 & changed1 & ref2 & Hkw & Hpath & Hrec & -> & ->).
  apply reconcile_extends in Hrec
    as (_ & ms & ps & ds & Hms & Hps & Hds & Hm & Hp & Hd).
  exists kw, ms, ps, ds. repeat (split; [done|]).
  assert (same_collections old ref1) as (Hm1 & Hp1 & Hd1).
  { subst old. destruct existing as [ref|]; simpl in *.
    - pose proof (update_ref_collections h kw ref changes) as Hc.
      by rewrite Hpath in Hc.
    - by injection Hpath as <- <- <-. }
  rewrite <- Hm1, <- Hp1, <- Hd1.
  destruct changed', existing; simpl; done.
Qed.

Lemma relationships_only_grow_witness :
  providers Sample.merged_stored.1.1.1 = [Sample.A; Sample.B; Sample.C]
  ∧ ∃ ps, extends [Sample.A; Sample.B] (providers Sample.merged_stored.1.1.1) ps.
Proof.
  split; [reflexivity|].
  destruct (relationships_only_grow Sample.helpers Sample.maps 7
              (Sample.record []) (Some Sample.stored) ∅
              Sample.merged_stored.1.2 Sample.merged_stored.1.1.1
              Sample.merged_stored.1.1.2 Sample.merged_stored.2)
    as [(kw & ms & ps & ds & _ & _ & _ & _ & _ & Hp & _) _].
  { by_vm. }
  exists ps. exact Hp.
Defined.

(* ===================================================================== *)
(** * What parsing puts into [kw] *)
(* ===================================================================== *)

Section ParseFacts.
Context (h : helpers).

Lemma FIELD_MAP_NoDup : NoDup FIELD_MAP.*1.
Proof. apply (bool_decide_unpack _). by vm_compute. Qed.

Lemma FIELD_MAP_no_jsondata s : (s, "jsondata") ∉ FIELD_MAP.
Proof.
  intros Hin. apply (list_elem_of_fmap_2 snd) in Hin. simpl in Hin.
  revert Hin. apply (bool_decide_unpack _). by vm_compute.
Qed.

Lemma kw_jsondata_insert_ne kw k v :
  k ≠ "jsondata" → kw_jsondata (<[k := v]> kw) = kw_jsondata kw.
Proof. intros Hk. unfold kw_jsondata. by rewrite lookup_insert_ne. Qed.

Lemma kw_jsondata_insert kw d :
  kw_jsondata (<["jsondata" := VDict d]> kw) = d.
Proof. unfold kw_jsondata. by rewrite lookup_insert_eq. Qed.

Lemma kw_jsondata_ext kw kw' :
  kw' !! "jsondata" = kw !! "jsondata" → kw_jsondata kw' = kw_jsondata kw.
Proof. unfold kw_jsondata. by intros ->. Qed.

(** One round of the field loop: the side-bag gains the unescaped text of
    a populated source without target, a target column is set, or
    nothing happens. *)
Lemma map_field_inv rec kw s t kw' :
  map_field h rec kw (s, t) = Ok kw' →
  (rec_get rec s = None ∧ kw' = kw)
  ∨ (∃ raw, rec_get rec s = Some raw ∧ t = EmptyString
      ∧ kw' = <["jsondata" := VDict (<[s := unescape h raw]> (kw_jsondata kw))]> kw)
  ∨ (∃ raw v, rec_get rec s = Some raw ∧ t ≠ EmptyString
      ∧ convert s (unescape h raw) = Ok v ∧ kw' = <[t := v]> kw).
Proof.
  unfold map_field. destruct (rec_get rec s) as [raw|]; [|intros [= <-]; auto].
  case_bool_decide as Ht.
  - intros [= <-]. right. left. eauto.
  - destruct (convert s (unescape h raw)) as [v|] eqn:Ev; [|done].
    simpl. intros [= <-]. right. right. eauto 10.
Qed.

Lemma map_fields_jsondata rec items kw0 kw :
  NoDup items.*1 →
  (∀ s, (s, "jsondata") ∉ items) →
  map_fields h rec items kw0 = Ok kw →
  ∀ k, kw_jsondata kw !! k =
       match (if bool_decide ((k, EmptyString) ∈ items)
              then rec_get rec k else None) with
       | Some raw => Some (unescape h raw)
       | None => kw_jsondata kw0 !! k
       end.
Proof.
  revert kw0. induction items as [|[s t] items IH]; intros kw0 Hnd Hjs.
  - intros [= <-] k.
    rewrite bool_decide_eq_false_2; [done|apply not_elem_of_nil].
  - cbn [map_fields].
    destruct (map_field h rec kw0 (s, t)) as [kw1|] eqn:E1; [|done].
    cbn [mbind result_bind]. intros Hrest k. rewrite fmap_cons in Hnd.
    apply NoDup_cons in Hnd as [Hs Hnd].
    rewrite (IH kw1 Hnd) by (try done; intros s' Hs'; apply (Hjs s'); by right).
    assert (t ≠ "jsondata") as Ht.
    { intros ->. apply (Hjs s). by left. }
    assert (kw_jsondata kw1 !! k =
            if decide ((s, t) = (k, EmptyString))
            then match rec_get rec k with
                 | Some raw => Some (unescape h raw)
                 | None => kw_jsondata kw0 !! k
                 end
            else kw_jsondata kw0 !! k) as Hstep.
    { apply map_field_inv in E1
        as [[Hget ->]|[(raw & Hget & -> & ->)|(raw & v & _ & ? & _ & ->)]].
      - case_decide as Heq; [|done]. injection Heq as -> _. by rewrite Hget.
      - rewrite kw_jsondata_insert. case_decide as Heq.
        + injection Heq as ->. by rewrite Hget, lookup_insert_eq.
        + rewrite lookup_insert_ne; [done|congruence].
      - rewrite kw_jsondata_insert_ne by done.
        case_decide as Heq; [congruence|done]. }
    rewrite Hstep. clear Hstep.
    destruct (decide ((k, EmptyString) ∈ items)) as [Hin|Hnin].
    + rewrite !bool_decide_eq_true_2; [|by right|done].
      destruct (rec_get rec k); [done|].
      case_decide as Heq; [|done]. injection Heq as -> ->.
      destruct Hs. by apply (list_elem_of_fmap_2 fst) in Hin.
    + rewrite (bool_decide_eq_false_2 _ Hnin).
      case_decide as Heq.
      * rewrite bool_decide_eq_true_2; [done|]. rewrite Heq. by left.
      * rewrite bool_decide_eq_false_2; [done|].
        rewrite elem_of_cons. intros [?|?]; congruence.
Qed.

(** Columns that are not a target keep their value. *)
Lemma map_fields_other rec items kw0 kw k :
  k ≠ "jsondata" → (∀ s, (s, k) ∈ items → k = EmptyString) →
  map_fields h rec items kw0 = Ok kw → kw !! k = kw0 !! k.
Proof.
  intros Hk. revert kw0. induction items as [|[s t] items IH]; intros kw0 Hno.
  - by intros [= <-].
  - cbn [map_fields].
    destruct (map_field h rec kw0 (s, t)) as [kw1|] eqn:E1; [|done].
    cbn [mbind result_bind]. intros Hrest. rewrite (IH kw1) by
      (try done; intros s' Hs'; apply (Hno s'); by right).
    apply map_field_inv in E1
      as [[_ ->]|[(raw & _ & -> & ->)|(raw & v & _ & Ht & _ & ->)]];
      [done| |]; rewrite lookup_insert_ne; try done.
    intros ->. apply Ht, (Hno s). by left.
Qed.

(** A column with a single source that has no converter holds the
    unescaped text of that source. *)
Lemma map_fields_single rec items kw0 kw s t :
  NoDup items.*1 →
  (s, t) ∈ items → t ≠ EmptyString → t ≠ "jsondata" →
  (∀ s', (s', t) ∈ items → s' = s) →
  s ∉ CONVERTER_keys →
  map_fields h rec items kw0 = Ok kw →
  kw !! t = match rec_get rec s with
            | Some raw => Some (VStr (unescape h raw))
            | None => kw0 !! t
            end.
Proof.
  intros Hnd Hin Ht Htj Hone Hconv. revert kw0 Hnd Hin Hone.
  induction items as [|[s1 t1] items IH]; intros kw0 Hnd Hin Hone.
  - by apply elem_of_nil in Hin.
  - cbn [map_fields].
    destruct (map_field h rec kw0 (s1, t1)) as [kw1|] eqn:E1; [|done].
    cbn [mbind result_bind]. intros Hrest. rewrite fmap_cons in Hnd.
    apply NoDup_cons in Hnd as [Hs1 Hnd].
    apply elem_of_cons in Hin as [[= <- <-]|Hin].
    + assert (∀ s', (s', t) ∈ items → t = EmptyString) as Hno.
      { intros s' Hs'. assert (s' = s) as -> by (apply Hone; by right).
        destruct Hs1. by apply (list_elem_of_fmap_2 fst) in Hs'. }
      rewrite (map_fields_other rec items kw1 kw t Htj Hno Hrest).
      apply map_field_inv in E1
        as [[-> ->]|[(raw & _ & ? & _)|(raw & v & -> & _ & Hv & ->)]];
        [done|done|].
      unfold convert in Hv. rewrite bool_decide_eq_false_2 in Hv by done.
      injection Hv as <-. by rewrite lookup_insert_eq.
    + assert (t1 ≠ t) as Ht1.
      { intros ->. assert (s1 = s) as -> by (apply Hone; by left).
        apply Hs1. by apply (list_elem_of_fmap_2 fst) in Hin. }
      rewrite (IH kw1 Hnd Hin) by
        (try done; intros s' Hs'; apply Hone; by right).
      destruct (rec_get rec s); [done|].
      apply map_field_inv in E1
        as [[_ ->]|[(raw & _ & -> & ->)|(raw & v & _ & ? & _ & ->)]];
        [done| |]; by rewrite lookup_insert_ne.
Qed.

Lemma numberofpages_step_other rec kw k :
  k ≠ "pages_int" → numberofpages_step rec kw !! k = kw !! k.
Proof.
  intros Hk. unfold numberofpages_step.
  repeat case_match; try done. by rewrite lookup_insert_ne.
Qed.

Lemma year_step_other kw kw' k :
  year_step kw = Ok kw' → k ≠ "year_int" → kw' !! k = kw !! k.
Proof.
  unfold year_step. intros Hstep Hk.
  repeat (case_match; simplify_eq/=); try done.
  destruct (extract_year _) as [[n|]|]; simplify_eq/=; try done.
  by rewrite lookup_insert_ne.
Qed.

Lemma publisher_step_other kw k :
  k ≠ "address" → k ≠ "publisher" → publisher_step kw !! k = kw !! k.
Proof.
  intros Ha Hp. unfold publisher_step.
  repeat (case_match; simplify_eq/=); try done.
  by rewrite !lookup_insert_ne.
Qed.

Lemma set_if_some_other k v kw k' :
  k' ≠ k → set_if_some k v kw !! k' = kw !! k'.
Proof. intros Hk. destruct v; simpl; [|done]. by rewrite lookup_insert_ne. Qed.

Lemma pages_step_other kw kw' k :
  pages_step h kw = Ok kw' →
  k ≠ "pages_int" → k ≠ "startpage_int" → k ≠ "endpage_int" →
  kw' !! k = kw !! k.
Proof.
  unfold pages_step. intros Hstep H1 H2 H3.
  destruct (kw_get kw "pages") as [| |pages|]; try by simplify_eq.
  destruct (truthy (VStr pages)); [|by simplify_eq].
  destruct (match Re.ROMANPAGESPATTERNra pages with
            | Some m => Some m
            | None => Re.ROMANPAGESPATTERNar pages
            end) as [[roman arabic]|].
  - destruct (kw !! "pages_int"); [by simplify_eq|].
    destruct (Py.int arabic); simplify_eq/=. by rewrite lookup_insert_ne.
  - destruct (compute_pages h pages) as [[start end_] number].
    simplify_eq. by rewrite !set_if_some_other.
Qed.

(** The steps of [parse_record], one after the other. *)
Lemma parse_record_inv id_ rec kw :
  parse_record h id_ rec = Ok kw →
  ∃ kw0 kw2,
    map_fields h rec (field_items h) (kw_init id_ rec) = Ok kw0
    ∧ year_step (numberofpages_step rec kw0) = Ok kw2
    ∧ pages_step h (publisher_step kw2) = Ok kw.
Proof.
  unfold parse_record.
  destruct (map_fields h rec (field_items h) (kw_init id_ rec)) as [kw0|];
    [|done].
  simpl. destruct (year_step (numberofpages_step rec kw0)) as [kw2|] eqn:E;
    [|done].
  simpl. intros Hp. by exists kw0, kw2.
Qed.

(** The side-bag is settled by the field loop. *)
Lemma parse_record_jsondata id_ rec kw kw0 :
  map_fields h rec (field_items h) (kw_init id_ rec) = Ok kw0 →
  parse_record h id_ rec = Ok kw →
  kw !! "jsondata" = kw0 !! "jsondata".
Proof.
  intros H0 (kw0' & kw2 & H0' & Hy & Hp)%parse_record_inv.
  rewrite H0 in H0'. injection H0' as <-.
  rewrite (pages_step_other _ _ _ Hp) by done.
  rewrite publisher_step_other by done.
  rewrite (year_step_other _ _ _ Hy) by done.
  by rewrite numberofpages_step_other.
Qed.

End ParseFacts.

Section FieldItems.
Context (h : helpers) (Hperm : field_items h ≡ₚ FIELD_MAP).

Lemma field_items_NoDup : NoDup (field_items h).*1.
Proof. rewrite Hperm. apply FIELD_MAP_NoDup. Qed.

Lemma field_items_elem x : x ∈ field_items h ↔ x ∈ FIELD_MAP.
Proof. by rewrite Hperm. Qed.

Lemma field_single id_ rec kw0 s t :
  only_source s t → t ≠ EmptyString → t ≠ "jsondata" → s ∉ CONVERTER_keys →
  map_fields h rec (field_items h) (kw_init id_ rec) = Ok kw0 →
  kw0 !! t = match rec_get rec s with
             | Some raw => Some (VStr (unescape h raw))
             | None => kw_init id_ rec !! t
             end.
Proof.
  intros [Hin Hall] Ht Htj Hconv. apply map_fields_single; try done.
  - apply field_items_NoDup.
  - by apply field_items_elem.
  - intros s' Hs'%field_items_elem. rewrite Forall_forall in Hall.
    by apply (Hall (s', t)).
Qed.

Lemma only_source_publisher : only_source "publisher" "publisher".
Proof. split; apply (bool_decide_unpack _); by vm_compute. Qed.

Lemma only_source_title : only_source "title" "title".
Proof. split; apply (bool_decide_unpack _); by vm_compute. Qed.

Lemma only_source_year : only_source "year" "year".
Proof. split; apply (bool_decide_unpack _); by vm_compute. Qed.

(** Keys outside [kw_columns] are never set. *)
Lemma parse_record_keys id_ rec kw k :
  parse_record h id_ rec = Ok kw → k ∉ kw_columns → kw !! k = None.
Proof.
  intros (kw0 & kw2 & H0 & Hy & Hp)%parse_record_inv Hk.
  assert (∀ c, c ∈ kw_columns → k ≠ c) as Hne by (intros c Hc ->; done).
  assert (∀ c, bool_decide (c ∈ kw_columns) = true → k ≠ c) as Hne'.
  { intros c Hc. apply Hne. by apply bool_decide_eq_true in Hc. }
  rewrite (pages_step_other _ _ _ _ Hp) by by apply Hne'.
  rewrite publisher_step_other by by apply Hne'.
  rewrite (year_step_other _ _ _ Hy) by by apply Hne'.
  rewrite numberofpages_step_other by by apply Hne'.
  assert (∀ s, (s, k) ∈ field_items h → k = EmptyString) as Hno.
  { intros s Hs. destruct (decide (k = EmptyString)) as [|Hk']; [done|].
    destruct Hk. unfold kw_columns. apply elem_of_app. right.
    apply list_elem_of_filter. split; [done|].
    apply field_items_elem in Hs. by apply (list_elem_of_fmap_2 snd) in Hs. }
  rewrite (map_fields_other _ _ _ _ _ k (Hne' "jsondata" eq_refl) Hno H0).
  unfold kw_init. rewrite !lookup_insert_ne; [done|..];
    apply not_eq_sym; by apply Hne'.
Qed.

End FieldItems.

(* ===================================================================== *)
(** * Page counts *)
(* ===================================================================== *)

Section Pages.
Context (h : helpers).

(** [pages_int] after the field loop is the one of [numberofpages]. *)
Lemma numberofpages_step_sets rec kw raw n :
  rec_get rec "numberofpages" = Some raw → Py.int (Py.strip raw) = Ok n →
  numberofpages_step rec kw !! "pages_int" = Some (VInt n).
Proof.
  intros Hraw Hn. unfold numberofpages_step. rewrite Hraw, Hn.
  by rewrite lookup_insert_eq.
Qed.

(** The Roman and Arabic total does not replace an earlier [pages_int]. *)
Lemma pages_step_roman_keeps kw kw' pages m v :
  pages_step h kw = Ok kw' → kw_get kw "pages" = VStr pages →
  match Re.ROMANPAGESPATTERNra pages with
  | Some m => Some m
  | None => Re.ROMANPAGESPATTERNar pages
  end = Some m →
  kw !! "pages_int" = Some v → kw' = kw.
Proof.
  unfold pages_step. intros Hstep Hpg Hm Hv. rewrite Hpg, Hm, Hv in Hstep.
  destruct (truthy (VStr pages)), m; by simplify_eq.
Qed.

(** The number of [compute_pages] replaces whatever [pages_int] held. *)
Lemma pages_step_overwrites kw kw' pages start end_ number :
  pages_step h kw = Ok kw' → kw_get kw "pages" = VStr pages →
  pages ≠ EmptyString →
  Re.ROMANPAGESPATTERNra pages = None → Re.ROMANPAGESPATTERNar pages = None →
  compute_pages h pages = (start, end_, Some number) →
  kw' !! "pages_int" = Some (VInt number).
Proof.
  unfold pages_step. intros Hstep Hpg Hne Hra Har Hcp.
  rewrite Hpg, Hra, Har, Hcp in Hstep. simpl in Hstep.
  rewrite bool_decide_eq_false_2 in Hstep by done. simpl in Hstep.
  injection Hstep as <-. by rewrite lookup_insert_eq.
Qed.

End Pages.

(** C3, on the code. A record whose [numberofpages] parses as the integer
    [n] and whose page text matches neither Roman and Arabic pattern gets
    as [pages_int] the number of [compute_pages], not [n]: the branch of
    line 302 assigns without the test of line 292. The sample record has
    [numberofpages] 100 and the pages 12-45, for which the page-range
    computation gives 34. *)
Theorem numberofpages_overwritten (h : helpers) (id_ : Z) (rec : Record_)
    (kw : gmap string value) (raw pages : string) (n number : Z)
    (start end_ : option Z) :
  rec_get rec "numberofpages" = Some raw →
  Py.int (Py.strip raw) = Ok n →
  parse_record h id_ rec = Ok kw →
  kw !! "pages" = Some (VStr pages) →
  pages ≠ EmptyString →
  Re.ROMANPAGESPATTERNra pages = None →
  Re.ROMANPAGESPATTERNar pages = None →
  compute_pages h pages = (start, end_, Some number) →
  kw !! "pages_int" = Some (VInt number).
Proof.
  intros Hraw Hn (kw0 & kw2 & H0 & Hy & Hp)%parse_record_inv Hpages Hne Hra Har Hcp.
  apply (pages_step_overwrites h _ _ pages start end_ number Hp); try done.
  unfold kw_get. rewrite <- (pages_step_other h _ _ "pages" Hp) by done.
  by rewrite Hpages.
Qed.

Lemma numberofpages_overwritten_witness :
  Py.int (Py.strip "100") = Ok 100
  ∧ Sample.kw_paged !! "pages_int" = Some (VInt 34).
Proof.
  split; [reflexivity|].
  apply (numberofpages_overwritten Sample.helpers 7 Sample.paged
           Sample.kw_paged "100" "12-45" 100 34 (Some 12) (Some 45)).
  - by_vm.
  - by_vm.
  - by_vm.
  - by_vm.
  - discriminate.
  - by_vm.
  - by_vm.
  - by_vm.
Defined.

(* ===================================================================== *)
(** * Publisher and address *)
(* ===================================================================== *)

Section Publisher.
Context (h : helpers).

(** Splitting once cuts at the first occurrence. *)
Lemma split_once_spec c s :
  Py.contains c s = true →
  ∃ a b, Py.split_once c s = Some (a, b)
         ∧ s = a +:+ String c b ∧ Py.contains c a = false.
Proof.
  induction s as [|d s IH]; simpl; [done|].
  destruct (Ascii.eqb c d) eqn:Ecd.
  - intros _. apply Ascii.eqb_eq in Ecd as <-.
    by exists EmptyString, s.
  - intros (a & b & Hsplit & -> & Ha)%IH. exists (String d a), b.
    split; [by rewrite Hsplit|]. split; [done|]. simpl. by rewrite Ecd.
Qed.

Lemma publisher_step_spec kw p a b :
  kw_get kw "publisher" = VStr p → Py.split_once ":" p = Some (a, b) →
  publisher_step kw =
    if bool_decide (kw !! "address" = None
                    ∨ kw !! "address" = Some (VStr (Py.strip a)))
    then <["publisher" := VStr (Py.strip b)]>
           (<["address" := VStr (Py.strip a)]> kw)
    else kw.
Proof.
  intros Hp Hsplit. unfold publisher_step, split_publisher.
  rewrite Hp, Hsplit. destruct p; [done|]. done.
Qed.

End Publisher.

(** C4, as the code has it. For a record whose unescaped publisher text
    holds a colon, the text is cut at its first colon and both parts are
    stripped. When no address is present after the field loop, or the one
    present equals the first part, the address becomes the first part and
    the publisher the second. When a different address is present,
    nothing is assigned: the address stays and the publisher keeps the
    whole text. *)
Theorem publisher_split (h : helpers) (id_ : Z) (rec : Record_)
    (kw0 kw : gmap string value) (raw : string) :
  field_items h ≡ₚ FIELD_MAP →
  rec_get rec "publisher" = Some raw →
  Py.contains ":" (unescape h raw) = true →
  map_fields h rec (field_items h) (kw_init id_ rec) = Ok kw0 →
  parse_record h id_ rec = Ok kw →
  ∃ a b,
    unescape h raw = a +:+ String ":" b ∧ Py.contains ":" a = false
    ∧ ((kw0 !! "address" = None ∨ kw0 !! "address" = Some (VStr (Py.strip a))) →
       kw !! "address" = Some (VStr (Py.strip a))
       ∧ kw !! "publisher" = Some (VStr (Py.strip b)))
    ∧ (¬ (kw0 !! "address" = None ∨ kw0 !! "address" = Some (VStr (Py.strip a))) →
       kw !! "address" = kw0 !! "address"
       ∧ kw !! "publisher" = Some (VStr (unescape h raw))).
Proof.
  intros Hperm Hraw Hcolon H0 Hparse.
  destruct (split_once_spec _ _ Hcolon) as (a & b & Hsplit & Heq & Ha).
  exists a, b. split; [done|]. split; [done|].
  pose proof Hparse as (kw0' & kw2 & H0' & Hy & Hp)%parse_record_inv.
  rewrite H0 in H0'. injection H0' as <-.
  assert (∀ k, k ≠ "year_int" → k ≠ "pages_int" → kw2 !! k = kw0 !! k) as H2.
  { intros k ??. rewrite (year_step_other _ _ _ Hy) by done.
    by rewrite numberofpages_step_other. }
  assert (kw0 !! "publisher" = Some (VStr (unescape h raw))) as Hpub.
  { rewrite (field_single h Hperm id_ rec kw0 "publisher" "publisher");
      try done; [by rewrite Hraw|apply only_source_publisher|].
    apply (bool_decide_unpack _). by vm_compute. }
  assert (kw_get kw2 "publisher" = VStr (unescape h raw)) as Hpub2.
  { unfold kw_get. by rewrite H2, Hpub. }
  pose proof (publisher_step_spec kw2 _ a b Hpub2 Hsplit) as Hstep.
  rewrite !(pages_step_other h _ _ _ Hp) by done. rewrite Hstep.
  rewrite (H2 "address") by done. split.
  - intros Haddr. rewrite bool_decide_eq_true_2 by done.
    rewrite lookup_insert_ne by done. by rewrite !lookup_insert_eq.
  - intros Haddr. rewrite bool_decide_eq_false_2 by done.
    by rewrite !H2, Hpub.
Qed.

Lemma publisher_split_witness :
  ∃ a b, "Berlin: Mouton" = a +:+ String ":" b
         ∧ Sample.kw_plain !! "address" = Some (VStr (Py.strip a))
         ∧ Sample.kw_plain !! "publisher" = Some (VStr (Py.strip b)).
Proof.
  destruct (publisher_split Sample.helpers 7 (Sample.record [])
              Sample.kw0_plain Sample.kw_plain "Berlin: Mouton")
    as (a & b & Heq & _ & Hfree & _).
  - apply Permutation_refl.
  - by_vm.
  - by_vm.
  - by_vm.
  - by_vm.
  - exists a, b. split; [exact Heq|]. apply Hfree. left.
    by_vm.
Defined.

(** C4 as stated fails: with the address Leipzig already present, the
    publisher is not extracted; it keeps the whole text. *)
Lemma publisher_not_extracted :
  parse_record Sample.helpers 7 Sample.addressed = Ok Sample.kw_addressed
  ∧ Sample.kw_addressed !! "address" = Some (VStr "Leipzig")
  ∧ Sample.kw_addressed !! "publisher" = Some (VStr "Berlin: Mouton")
  ∧ Sample.kw_addressed !! "publisher" ≠ Some (VStr "Mouton").
Proof.
  split; [by_vm|]. split; [by_vm|].
  split; [by_vm|].
  intros H. vm_compute in H. discriminate H.
Qed.

(* ===================================================================== *)
(** * The side-bag *)
(* ===================================================================== *)

Section SideBag.
Context (h : helpers) (Hperm : field_items h ≡ₚ FIELD_MAP).

Lemma FIELD_MAP_no_bibtexkey : ("bibtexkey", EmptyString) ∉ FIELD_MAP.
Proof. apply (bool_decide_unpack _). by vm_compute. Qed.

Lemma FIELD_MAP_lgcode : ("lgcode", EmptyString) ∈ FIELD_MAP.
Proof. apply (bool_decide_unpack _). by vm_compute. Qed.

Lemma FIELD_MAP_functional k t t' :
  (k, t) ∈ FIELD_MAP → (k, t') ∈ FIELD_MAP → t = t'.
Proof.
  intros Ht Ht'. pose proof FIELD_MAP_NoDup as Hnd.
  apply list_elem_of_lookup in Ht as [i Hi].
  apply list_elem_of_lookup in Ht' as [j Hj].
  assert (i = j) as ->; [|congruence].
  apply (NoDup_lookup _ i j k Hnd); by rewrite list_lookup_fmap, ?Hi, ?Hj.
Qed.

(** The side-bag after parsing: the key of the record, and the unescaped
    text of every populated source without target. *)
Lemma parse_record_side_bag id_ rec kw k :
  parse_record h id_ rec = Ok kw →
  kw_jsondata kw !! k =
    if decide (k = "bibtexkey") then Some (rec_id rec)
    else match rec_get rec k with
         | Some raw =>
             if bool_decide ((k, EmptyString) ∈ FIELD_MAP)
             then Some (unescape h raw) else None
         | None => None
         end.
Proof.
  intros Hparse.
  pose proof Hparse as (kw0 & kw2 & H0 & _)%parse_record_inv.
  rewrite (kw_jsondata_ext _ _ (parse_record_jsondata h _ _ _ _ H0 Hparse)).
  rewrite (map_fields_jsondata h rec _ _ _ (field_items_NoDup h Hperm)
             (λ s Hs, FIELD_MAP_no_jsondata s
                        (proj1 (field_items_elem h Hperm _) Hs)) H0).
  assert (∀ k, bool_decide ((k, EmptyString) ∈ field_items h)
               = bool_decide ((k, EmptyString) ∈ FIELD_MAP)) as ->.
  { intros k'. apply bool_decide_ext, field_items_elem, Hperm. }
  assert (kw_jsondata (kw_init id_ rec) !! k =
          if decide (k = "bibtexkey") then Some (rec_id rec) else None) as ->.
  { assert (kw_jsondata (kw_init id_ rec) = {["bibtexkey" := rec_id rec]})
      as -> by by vm_compute.
    case_decide as Hk.
    - subst. apply lookup_singleton_eq.
    - by apply lookup_singleton_ne. }
  case_decide as Hk.
  - subst. rewrite (bool_decide_eq_false_2 _ FIELD_MAP_no_bibtexkey).
    by destruct (rec_get rec "bibtexkey").
  - case_bool_decide; [|by destruct (rec_get rec k)].
    by destruct (rec_get rec k).
Qed.

Lemma bracket_lgcode_lookup d k :
  bracket_lgcode d !! k = stored_text k <$> d !! k.
Proof.
  unfold bracket_lgcode, stored_text.
  destruct (decide (k = "lgcode")) as [->|Hk].
  - destruct (d !! "lgcode") as [s|] eqn:Hs; simpl.
    + case_bool_decide as H1.
      * rewrite lookup_insert_eq. rewrite bool_decide_eq_true_2; done.
      * rewrite Hs. simpl. rewrite bool_decide_eq_false_2; [done|].
        intros [_ ?]. done.
    + by rewrite Hs.
  - case_bool_decide as H1.
    + rewrite lookup_insert_ne by done. destruct (d !! k); simpl; [|done].
      rewrite bool_decide_eq_false_2; [done|]. intros [? _]. done.
    + destruct (d !! k); simpl; [|done].
      rewrite bool_decide_eq_false_2; [done|]. intros [? _]. done.
Qed.

End SideBag.



(* ===================================================================== *)
(** * The update path *)
(* ===================================================================== *)

Section UpdatePath.
Context (h : helpers).

Lemma getattr_setattr_eq ref k v : getattr (setattr ref k v) k = v.
Proof. unfold getattr, setattr. simpl. by rewrite lookup_insert_eq. Qed.

Lemma getattr_setattr_ne ref k v k' :
  k ≠ k' → getattr (setattr ref k v) k' = getattr ref k'.
Proof. intros Hk. unfold getattr, setattr. simpl. by rewrite lookup_insert_ne. Qed.

Lemma getattr_mirror_title_ne ref k :
  k ≠ "description" → getattr (mirror_title ref) k = getattr ref k.
Proof.
  intros Hk. unfold mirror_title. destruct (truthy _); [|done].
  by apply getattr_setattr_ne.
Qed.

Lemma getattr_update_jsondata_ne ref d k :
  k ≠ "jsondata" → getattr (update_jsondata ref d) k = getattr ref k.
Proof. intros Hk. unfold update_jsondata. by apply getattr_setattr_ne. Qed.

(** A reference whose description mirrors its title. *)
Lemma mirror_title_mirrored ref : mirrored (mirror_title ref).
Proof.
  unfold mirrored, mirror_title. destruct (truthy (getattr ref "title")) eqn:Ht.
  - intros _. rewrite getattr_setattr_eq. by rewrite getattr_setattr_ne.
  - by rewrite Ht.
Qed.

(** One round of the update loop, spelled out. *)
Lemma update_attr_cases kw ref changed changes k :
  update_attr kw (ref, changed, changes) k =
    if bool_decide (k = "pk") then (ref, changed, changes)
    else if bool_decide (kw_get kw k = getattr ref k)
    then (mirror_title ref, changed, changes)
    else if bool_decide (k = "jsondata")
    then (mirror_title (update_jsondata ref (kw_jsondata kw)), changed, changes)
    else (mirror_title (setattr ref k (kw_get kw k)), true,
          record_change changes (ref_id (setattr ref k (kw_get kw k))) k
            (str_of_value (getattr ref k)) (str_of_value (kw_get kw k))).
Proof.
  unfold update_attr. repeat case_bool_decide; try done; naive_solver.
Qed.

(** A round leaves the other columns alone, the description apart. *)
Lemma update_attr_frame kw ref changed changes k k' :
  k' ≠ k → k' ≠ "description" →
  getattr (update_attr kw (ref, changed, changes) k).1.1 k' = getattr ref k'.
Proof.
  intros Hk Hd. rewrite update_attr_cases.
  repeat case_bool_decide; simpl; try done;
    rewrite getattr_mirror_title_ne by done; try done.
  - subst. by apply getattr_update_jsondata_ne.
  - by apply getattr_setattr_ne.
Qed.

(** A round brings its column to the value of [kw]. *)
Lemma update_attr_sets kw ref changed changes k :
  k ≠ "pk" → k ≠ "jsondata" → k ≠ "description" →
  getattr (update_attr kw (ref, changed, changes) k).1.1 k = kw_get kw k.
Proof.
  intros Hpk Hjs Hd. rewrite update_attr_cases.
  repeat case_bool_decide; simpl; try done;
    rewrite getattr_mirror_title_ne by done; try done.
  by apply getattr_setattr_eq.
Qed.

Lemma update_loop_frame kw ks ref changed changes k' :
  k' ∉ ks → k' ≠ "description" →
  getattr (foldl (update_attr kw) (ref, changed, changes) ks).1.1 k'
  = getattr ref k'.
Proof.
  revert ref changed changes.
  induction ks as [|k ks IH]; intros ref c ch Hk Hd; [done|].
  apply not_elem_of_cons in Hk as [Hne Hk]. cbn [foldl].
  destruct (update_attr kw (ref, c, ch) k) as [[ref1 c1] ch1] eqn:E.
  rewrite IH by done.
  pose proof (update_attr_frame kw ref c ch k k' Hne Hd) as Hf.
  by rewrite E in Hf.
Qed.

Lemma update_loop_sets kw ks ref changed changes k :
  NoDup ks → "description" ∉ ks → k ∈ ks → k ≠ "pk" → k ≠ "jsondata" →
  getattr (foldl (update_attr kw) (ref, changed, changes) ks).1.1 k
  = kw_get kw k.
Proof.
  revert ref changed changes.
  induction ks as [|k1 ks IH]; intros ref c ch Hnd Hd Hin Hpk Hjs.
  { by apply elem_of_nil in Hin. }
  apply NoDup_cons in Hnd as [Hk1 Hnd].
  apply not_elem_of_cons in Hd as [Hd1 Hd]. cbn [foldl].
  destruct (update_attr kw (ref, c, ch) k1) as [[ref1 c1] ch1] eqn:E.
  apply elem_of_cons in Hin as [->|Hin].
  - rewrite update_loop_frame by (try done; congruence).
    pose proof (update_attr_sets kw ref c ch k1 Hpk Hjs) as Hs.
    rewrite E in Hs. apply Hs. congruence.
  - by apply IH.
Qed.

(** When only the side-bag differs, the loop neither sets [changed] nor
    writes to the change log. *)
Lemma update_loop_quiet kw ks ref changed changes :
  "description" ∉ ks →
  (∀ k, k ∈ ks → k ≠ "pk" → k ≠ "jsondata" → kw_get kw k = getattr ref k) →
  (foldl (update_attr kw) (ref, changed, changes) ks).1.2 = changed
  ∧ (foldl (update_attr kw) (ref, changed, changes) ks).2 = changes.
Proof.
  revert ref. induction ks as [|k ks IH]; intros ref Hd Heq; [done|].
  apply not_elem_of_cons in Hd as [Hd1 Hd]. cbn [foldl].
  assert (∃ ref1, update_attr kw (ref, changed, changes) k
                  = (ref1, changed, changes)
                  ∧ ∀ k', k' ≠ "description" → k' ≠ "jsondata" →
                          getattr ref1 k' = getattr ref k') as (ref1 & -> & H1).
  { rewrite update_attr_cases. repeat case_bool_decide.
    - by exists ref.
    - exists (mirror_title ref). split; [done|]. intros k' ??.
      by apply getattr_mirror_title_ne.
    - eexists. split; [done|]. intros k' ??.
      rewrite getattr_mirror_title_ne by done.
      by apply getattr_update_jsondata_ne.
    - destruct H0. apply Heq; [by left|done..]. }
  apply IH; [done|]. intros k' Hin Hpk Hjs. rewrite H1; [|congruence|done].
  apply Heq; [by right|done..].
Qed.

(** The side-bag of the row after the loop: merged once, in the round of
    [jsondata], when it differs from the one of [kw]. *)
Lemma update_loop_jsondata kw ks ref changed changes :
  NoDup ks → "jsondata" ∈ ks →
  getattr (foldl (update_attr kw) (ref, changed, changes) ks).1.1 "jsondata"
  = if bool_decide (kw_get kw "jsondata" = getattr ref "jsondata")
    then getattr ref "jsondata"
    else getattr (update_jsondata ref (kw_jsondata kw)) "jsondata".
Proof.
  revert ref changed changes.
  induction ks as [|k ks IH]; intros ref c ch Hnd Hin.
  { by apply elem_of_nil in Hin. }
  apply NoDup_cons in Hnd as [Hk Hnd]. cbn [foldl].
  destruct (update_attr kw (ref, c, ch) k) as [[ref1 c1] ch1] eqn:E.
  apply elem_of_cons in Hin as [<-|Hin].
  - rewrite update_loop_frame by done.
    rewrite update_attr_cases in E. repeat case_bool_decide; try done;
      injection E as <- <- <-; by rewrite getattr_mirror_title_ne.
  - rewrite IH by done.
    assert (k ≠ "jsondata") as Hne by (intros ->; done).
    pose proof (update_attr_frame kw ref c ch k "jsondata"
                  (not_eq_sym Hne)) as Hf.
    rewrite E in Hf. simpl in Hf. rewrite Hf by done.
    case_bool_decide; [done|].
    unfold update_jsondata, ref_jsondata. rewrite !getattr_setattr_eq.
    by rewrite Hf.
Qed.

(** After a round other than the one of [pk], the description mirrors
    the title; the loop keeps it so. *)
Lemma update_loop_mirrors kw ks ref changed changes :
  mirrored ref ∨ (∃ k, k ∈ ks ∧ k ≠ "pk") →
  mirrored (foldl (update_attr kw) (ref, changed, changes) ks).1.1.
Proof.
  revert ref changed changes.
  induction ks as [|k ks IH]; intros ref c ch Hm.
  { destruct Hm as [Hm|(k & Hk%elem_of_nil & _)]; done. }
  cbn [foldl].
  destruct (update_attr kw (ref, c, ch) k) as [[ref1 c1] ch1] eqn:E.
  apply IH. rewrite update_attr_cases in E.
  destruct (decide (k = "pk")) as [->|Hpk].
  - rewrite bool_decide_eq_true_2 in E by done. injection E as <- <- <-.
    destruct Hm as [Hm|(k & [->|Hk]%elem_of_cons & Hne)]; [by left|done|].
    right. by exists k.
  - left. rewrite (bool_decide_eq_false_2 _ Hpk) in E.
    repeat case_bool_decide; injection E as <- <- <-;
      apply mirror_title_mirrored.
Qed.

(** Once set, [changed] stays set. *)
Lemma update_loop_changed kw ks ref changes :
  (foldl (update_attr kw) (ref, true, changes) ks).1.2 = true.
Proof.
  revert ref changes. induction ks as [|k ks IH]; intros ref ch; [done|].
  cbn [foldl]. rewrite update_attr_cases.
  repeat case_bool_decide; apply IH.
Qed.

Lemma record_change_lookup changes id k old new id' k' :
  record_change changes id k old new !! id' ≫= (.!! k')
  = if bool_decide (id' = id ∧ k' = k) then Some (old, new)
    else changes !! id' ≫= (.!! k').
Proof.
  unfold record_change. destruct (decide (id' = id)) as [->|Hid].
  - rewrite lookup_insert_eq. simpl. destruct (decide (k' = k)) as [->|Hk].
    + rewrite lookup_insert_eq. by rewrite bool_decide_eq_true_2.
    + rewrite lookup_insert_ne by done.
      rewrite bool_decide_eq_false_2 by naive_solver.
      destruct (changes !! id); simpl; [done|apply lookup_empty].
  - rewrite lookup_insert_ne by done.
    by rewrite bool_decide_eq_false_2 by naive_solver.
Qed.

(** An entry of the change log outlives the rounds of other columns. *)
Lemma update_loop_keeps_entry kw ks ref changed changes id k p :
  k ∉ ks → changes !! id ≫= (.!! k) = Some p →
  (foldl (update_attr kw) (ref, changed, changes) ks).2 !! id ≫= (.!! k)
  = Some p.
Proof.
  revert ref changed changes.
  induction ks as [|k1 ks IH]; intros ref c ch Hk Hp; [done|].
  apply not_elem_of_cons in Hk as [Hne Hk]. cbn [foldl].
  rewrite update_attr_cases. repeat case_bool_decide; apply IH; try done.
  rewrite record_change_lookup.
  by rewrite bool_decide_eq_false_2 by naive_solver.
Qed.

(** A column that differs sets [changed] and is written to the change
    log with its old and its new text. *)
Lemma update_loop_records kw ks ref changed changes k :
  NoDup ks → "description" ∉ ks → k ∈ ks → k ≠ "pk" → k ≠ "jsondata" →
  kw_get kw k ≠ getattr ref k →
  (foldl (update_attr kw) (ref, changed, changes) ks).1.2 = true
  ∧ ∃ id, (foldl (update_attr kw) (ref, changed, changes) ks).2
            !! id ≫= (.!! k)
          = Some (str_of_value (getattr ref k), str_of_value (kw_get kw k)).
Proof.
  revert ref changed changes.
  induction ks as [|k1 ks IH]; intros ref c ch Hnd Hd Hin Hpk Hjs Hne.
  { by apply elem_of_nil in Hin. }
  apply NoDup_cons in Hnd as [Hk1 Hnd].
  apply not_elem_of_cons in Hd as [Hd1 Hd]. cbn [foldl].
  apply elem_of_cons in Hin as [->|Hin].
  - rewrite update_attr_cases.
    rewrite !bool_decide_eq_false_2 by done.
    split; [apply update_loop_changed|].
    eexists. apply update_loop_keeps_entry; [done|].
    rewrite record_change_lookup. by rewrite bool_decide_eq_true_2.
  - destruct (update_attr kw (ref, c, ch) k1) as [[ref1 c1] ch1] eqn:E.
    assert (k ≠ k1) as Hkk by (intros ->; done).
    pose proof (update_attr_frame kw ref c ch k1 k Hkk) as Hf.
    rewrite E in Hf. simpl in Hf. rewrite <- Hf by congruence.
    apply IH; try done. rewrite Hf by congruence. done.
Qed.

End UpdatePath.

(* ===================================================================== *)
(** * The columns of a merged reference *)
(* ===================================================================== *)

Lemma append_providers_changed (h : helpers) m names attr attr' changed' :
  append_providers h m names attr true = Ok (attr', changed') → changed' = true.
Proof.
  revert attr. induction names as [|n ns IH]; intros attr; simpl.
  - by intros [= _ <-].
  - destruct (map_get m (slug h n)) as [obj|]; [|done]. simpl.
    destruct (append attr obj) as [attr1 r]. apply IH.
Qed.

Section Keys.
Context (h : helpers).
Context (Hkeys : ∀ kw, kw_keys h kw ≡ₚ (map_to_list kw).*1).

Lemma kw_keys_NoDup kw : NoDup (kw_keys h kw).
Proof. rewrite Hkeys. apply NoDup_fst_map_to_list. Qed.

Lemma kw_keys_elem kw k : k ∈ kw_keys h kw ↔ is_Some (kw !! k).
Proof.
  rewrite Hkeys, list_elem_of_fmap. split.
  - intros ([k' v] & -> & Hin%elem_of_map_to_list). by exists v.
  - intros [v Hv]. exists (k, v). split; [done|].
    by apply elem_of_map_to_list.
Qed.

End Keys.

Section Columns.
Context (h : helpers).
Context (Hperm : field_items h ≡ₚ FIELD_MAP).

Lemma parse_record_column id_ rec kw k :
  parse_record h id_ rec = Ok kw → is_Some (kw !! k) → k ∈ kw_columns.
Proof.
  intros Hparse [v Hv]. destruct (decide (k ∈ kw_columns)) as [|Hk]; [done|].
  rewrite (parse_record_keys h Hperm id_ rec kw k Hparse Hk) in Hv. done.
Qed.

Lemma parse_record_no_key id_ rec kw k :
  (∀ kw, kw_keys h kw ≡ₚ (map_to_list kw).*1) →
  parse_record h id_ rec = Ok kw → bool_decide (k ∈ kw_columns) = false →
  k ∉ kw_keys h kw.
Proof.
  intros Hkeys Hparse Hk%bool_decide_eq_false Hin%(kw_keys_elem h Hkeys).
  by apply Hk, (parse_record_column id_ rec kw).
Qed.

(** [kw] always holds the id of the reference. *)
Lemma parse_record_id id_ rec kw :
  parse_record h id_ rec = Ok kw → kw !! "id" = Some (VStr (Py.str_of_Z id_)).
Proof.
  intros (kw0 & kw2 & H0 & Hy & Hp)%parse_record_inv.
  rewrite (pages_step_other h _ _ _ Hp) by done.
  rewrite publisher_step_other by done.
  rewrite (year_step_other _ _ _ Hy) by done.
  rewrite numberofpages_step_other by done.
  assert (∀ s, (s, "id") ∈ field_items h → "id" = EmptyString) as Hno.
  { intros s Hs%(field_items_elem h Hperm). exfalso.
    apply (list_elem_of_fmap_2 snd) in Hs. simpl in Hs. revert Hs.
    apply (bool_decide_unpack _). by vm_compute. }
  rewrite (map_fields_other h _ _ _ _ "id" ltac:(done) Hno H0).
  by vm_compute.
Qed.

(** A column with a single source holds the unescaped text of it. *)
Lemma parse_record_single id_ rec kw s t raw :
  only_source s t → t ≠ EmptyString → s ∉ CONVERTER_keys →
  t ∉ ["jsondata"; "pages_int"; "year_int"; "startpage_int"; "endpage_int";
       "address"; "publisher"] →
  rec_get rec s = Some raw →
  parse_record h id_ rec = Ok kw →
  kw !! t = Some (VStr (unescape h raw)).
Proof.
  intros Hone Ht Hconv Hnot Hraw (kw0 & kw2 & H0 & Hy & Hp)%parse_record_inv.
  assert (∀ c, bool_decide
                 (c ∈ ["jsondata"; "pages_int"; "year_int"; "startpage_int";
                       "endpage_int"; "address"; "publisher"]) = true →
               t ≠ c) as Hne.
  { intros c Hc%bool_decide_eq_true ->. done. }
  rewrite (pages_step_other h _ _ _ Hp) by by apply Hne.
  rewrite publisher_step_other by by apply Hne.
  rewrite (year_step_other _ _ _ Hy) by by apply Hne.
  rewrite numberofpages_step_other by by apply Hne.
  rewrite (field_single h Hperm id_ rec kw0 s t Hone Ht) by
    (try done; by apply Hne).
  by rewrite Hraw.
Qed.

End Columns.

Section MergedColumns.
Context (h : helpers).

(** The columns of a reference created from a record are those of [kw],
    the side-bag, the name and the two summaries apart. *)
Lemma created_columns maps id_ rec changes ref' changed' changes' bag :
  merge h maps id_ rec None changes = Ok (ref', changed', changes', bag) →
  ∃ kw, parse_record h id_ rec = Ok kw
        ∧ changed' = true ∧ changes' = changes
        ∧ ∀ k, k ∉ ["jsondata"; "name"; "doctypes_str"; "providers_str"] →
               getattr ref' k = kw_get kw k.
Proof.
  intros (kw & ref1 & changed1 & ref2 & Hkw & Hpath & Hrec & -> & ->)%merge_inv.
  injection Hpath as <- <- <-. exists kw. split; [done|].
  assert (changed' = true) as ->.
  { unfold reconcile in Hrec.
    destruct (desired_macroareas h maps kw); [|done]. simpl in Hrec.
    destruct (append_providers _ _ _ _ _) as [[ps c]|] eqn:Eps; [|done].
    simpl in Hrec. destruct (desired_doctypes maps kw); [|done].
    simpl in Hrec. injection Hrec as _ <-.
    by rewrite (append_providers_changed _ _ _ _ _ _ Eps). }
  split; [done|]. split; [done|]. intros k Hk.
  apply reconcile_extends in Hrec as [Hattrs _].
  unfold finalize, getattr, setattr, kw_get. simpl. rewrite Hattrs.
  unfold new_ref. simpl.
  rewrite !lookup_insert_ne; [done|..]; intros <-; apply Hk; set_solver.
Qed.

(** The columns of an updated reference are those the update loop left,
    the two summaries apart. *)
Lemma updated_columns maps id_ rec ref changes ref' changed' changes' bag :
  merge h maps id_ rec (Some ref) changes = Ok (ref', changed', changes', bag) →
  ∃ kw ref1 changed1 ref2,
    parse_record h id_ rec = Ok kw
    ∧ update_ref h kw ref changes = (ref1, changed1, changes')
    ∧ reconcile h maps kw ref1 changed1 = Ok (ref2, changed')
    ∧ ref' = (if changed' then finalize else id) ref2
    ∧ ∀ k, k ∉ ["doctypes_str"; "providers_str"] →
           getattr ref' k = getattr ref1 k.
Proof.
  intros (kw & ref1 & changed1 & ref2 & Hkw & Hpath & Hrec & -> & ->)%merge_inv.
  exists kw, ref1, changed1, ref2. repeat (split; [done|]). intros k Hk.
  apply reconcile_extends in Hrec as [Hattrs _].
  unfold getattr. destruct changed'; simpl; rewrite ?Hattrs; [|done].
  rewrite !lookup_insert_ne; [done|..];
    intros <-; apply Hk; set_solver.
Qed.

End MergedColumns.

Section StoredSideBag.
Context (h : helpers).
Context (Hperm : field_items h ≡ₚ FIELD_MAP).
Context (Hkeys : ∀ kw, kw_keys h kw ≡ₚ (map_to_list kw).*1).

(** The side-bag of an updated reference: the side-bag of [kw], as it is
    before line 359, merged over the one stored before. *)
Lemma updated_side_bag maps id_ rec ref changes ref' changed' changes' bag k :
  merge h maps id_ rec (Some ref) changes = Ok (ref', changed', changes', bag) →
  ref_jsondata ref' !! k =
    if decide (k = "bibtexkey") then Some (rec_id rec)
    else match rec_get rec k with
         | Some raw =>
             if bool_decide ((k, EmptyString) ∈ FIELD_MAP)
             then Some (unescape h raw) else ref_jsondata ref !! k
         | None => ref_jsondata ref !! k
         end.
Proof.
  intros Hmerge.
  apply updated_columns in Hmerge
    as (kw & ref1 & changed1 & ref2 & Hkw & Hup & _ & _ & Hcols).
  assert (ref_jsondata ref' = kw_jsondata kw ∪ ref_jsondata ref) as ->.
  { unfold ref_jsondata at 1.
    rewrite Hcols by (apply (bool_decide_unpack _); by vm_compute).
    unfold update_ref in Hup.
    pose proof (update_loop_jsondata kw (kw_keys h kw) ref false changes
                  (kw_keys_NoDup h Hkeys kw)) as Hj.
    rewrite Hup in Hj. simpl in Hj. rewrite Hj.
    2:{ apply (kw_keys_elem h Hkeys).
        pose proof (parse_record_side_bag h Hperm id_ rec kw "bibtexkey" Hkw)
          as Hb.
        unfold kw_jsondata in Hb. destruct (kw !! "jsondata"); [done|].
        by rewrite lookup_empty in Hb. }
    case_bool_decide as Heq.
    - rewrite <- Heq. unfold ref_jsondata. rewrite <- Heq.
      unfold kw_get, kw_jsondata.
      destruct (kw !! "jsondata") as [[| | |d]|]; simpl;
        by rewrite ?map_union_idemp, ?(left_id_L ∅ (∪)).
    - unfold update_jsondata. by rewrite getattr_setattr_eq. }
  rewrite lookup_union.
  rewrite (parse_record_side_bag h Hperm id_ rec kw k Hkw).
  case_decide; [by destruct (ref_jsondata ref !! k)|].
  destruct (rec_get rec k); [|by rewrite (left_id_L None _)].
  case_bool_decide; [by destruct (ref_jsondata ref !! k)|].
  by rewrite (left_id_L None _).
Qed.

End StoredSideBag.

(** C9, as the code has it. When a record has been merged, the side-bag
    [kw['jsondata']] built for it holds the key of the record under
    [bibtexkey] and, besides, exactly the populated source fields that
    [FIELD_MAP] lists with an empty target, each with its unescaped text,
    except that line 359 has put a language code of three characters in
    brackets; it holds no key that [FIELD_MAP] maps to a target. A
    reference created from the record stores this very side-bag, brackets
    included. A reference updated from the record stores the same entries
    with the language code as the record has it, without brackets, merged
    over the entries it held before. *)
Theorem side_bag_contents (h : helpers) (maps : lookups) (id_ : Z)
    (rec : Record_) (existing : option Ref) (changes changes' : change_log)
    (ref' : Ref) (changed' : bool) (bag : gmap string string) :
  field_items h ≡ₚ FIELD_MAP →
  (∀ kw, kw_keys h kw ≡ₚ (map_to_list kw).*1) →
  merge h maps id_ rec existing changes = Ok (ref', changed', changes', bag) →
  (∀ k, bag !! k =
        if decide (k = "bibtexkey") then Some (rec_id rec)
        else match rec_get rec k with
             | Some raw =>
                 if bool_decide ((k, EmptyString) ∈ FIELD_MAP)
                 then Some (stored_text k (unescape h raw)) else None
             | None => None
             end)
  ∧ (∀ k t, is_Some (bag !! k) → (k, t) ∈ FIELD_MAP → t = EmptyString)
  ∧ (existing = None → getattr ref' "jsondata" = VDict bag)
  ∧ (∀ ref k, existing = Some ref →
       ref_jsondata ref' !! k =
         if decide (k = "bibtexkey") then Some (rec_id rec)
         else match rec_get rec k with
              | Some raw =>
                  if bool_decide ((k, EmptyString) ∈ FIELD_MAP)
                  then Some (unescape h raw) else ref_jsondata ref !! k
              | None => ref_jsondata ref !! k
              end).
Proof.
  intros Hperm Hkeys Hmerge. pose proof Hmerge as Hmerge'.
  apply merge_inv in Hmerge
    as (kw & ref1 & changed1 & ref2 & Hkw & Hpath & Hrec & -> & ->).
  assert (∀ k, bracket_lgcode (kw_jsondata kw) !! k =
               if decide (k = "bibtexkey") then Some (rec_id rec)
               else match rec_get rec k with
                    | Some raw =>
                        if bool_decide ((k, EmptyString) ∈ FIELD_MAP)
                        then Some (stored_text k (unescape h raw)) else None
                    | None => None
                    end) as Hbag.
  { intros k. rewrite bracket_lgcode_lookup.
    rewrite (parse_record_side_bag h Hperm id_ rec kw k Hkw).
    case_decide as Hk; [by subst|].
    destruct (rec_get rec k); [|done]. by case_bool_decide. }
  split; [done|]. split; [|split].
  - intros k t [v Hv] Hin. rewrite Hbag in Hv. case_decide as Hk.
    + subst. destruct FIELD_MAP_no_bibtexkey.
      revert Hin. clear. intros Hin.
      apply (list_elem_of_fmap_2 fst) in Hin. simpl in Hin. revert Hin.
      apply (bool_decide_unpack _). by vm_compute.
    + destruct (rec_get rec k); [|done]. case_bool_decide as Hk'; [|done].
      by apply (FIELD_MAP_functional k).
  - intros ->. unfold getattr, finalize, setattr.
    destruct changed'; simpl; rewrite ?lookup_insert_ne by done;
      by rewrite lookup_insert_eq.
  - intros ref k ->.
    by apply (updated_side_bag h Hperm Hkeys maps id_ rec ref changes _
                changed' changes' (bracket_lgcode (kw_jsondata kw))).
Qed.

Lemma side_bag_contents_witness :
  getattr Sample.merged_coded.1.1.1 "jsondata" = VDict Sample.merged_coded.2
  ∧ Sample.merged_coded.2 !! "lgcode" = Some (stored_text "lgcode" "abc")
  ∧ Sample.merged_coded.2 !! "bibtexkey" = Some "key2014"
  ∧ ref_jsondata Sample.updated_coded.1.1.1 !! "lgcode" = Some "abc".
Proof.
  destruct (side_bag_contents Sample.helpers Sample.maps 7 Sample.coded None
              ∅ Sample.merged_coded.1.2 Sample.merged_coded.1.1.1
              Sample.merged_coded.1.1.2 Sample.merged_coded.2)
    as (Hbag & _ & Hstored & _).
  - apply Permutation_refl.
  - intros kw. apply Permutation_refl.
  - by_vm.
  - destruct (side_bag_contents Sample.helpers Sample.maps 7 Sample.coded
                (Some Sample.stored) ∅ Sample.updated_coded.1.2
                Sample.updated_coded.1.1.1 Sample.updated_coded.1.1.2
                Sample.updated_coded.2)
      as (_ & _ & _ & Hupdated).
    + apply Permutation_refl.
    + intros kw. apply Permutation_refl.
    + by_vm.
    + split; [exact (Hstored eq_refl)|].
      split; [exact (Hbag "lgcode")|]. split; [exact (Hbag "bibtexkey")|].
      rewrite (Hupdated Sample.stored "lgcode" eq_refl). by_vm.
Defined.

(** C9 as stated fails: the side-bag of the sample record with the language
    code abc holds that code in brackets, and it holds the key of the
    record, which is no field of the record. *)
Lemma side_bag_not_as_claimed :
  merge Sample.helpers Sample.maps 7 Sample.coded None ∅
  = Ok Sample.merged_coded
  ∧ getattr Sample.merged_coded.1.1.1 "jsondata" = VDict Sample.merged_coded.2
  ∧ Sample.merged_coded.2 !! "lgcode" = Some "[abc]"
  ∧ Sample.merged_coded.2 !! "bibtexkey" = Some "key2014"
  ∧ ¬ side_bag_as_claimed Sample.helpers Sample.coded Sample.merged_coded.2.
Proof.
  split; [by_vm|]. split; [by_vm|].
  split; [by_vm|]. split; [by_vm|].
  intros Hclaim. specialize (Hclaim "lgcode"). vm_compute in Hclaim.
  discriminate Hclaim.
Qed.


(** C5, on the code. A reference created from a record with a title holds
    the unescaped title in its title column, but its description column
    is left empty: line 329 passes [kw] to the constructor and nothing on
    the create path sets the description, which only the update loop
    (lines 325-326) does. *)
Theorem created_reference_lacks_description (h : helpers) (maps : lookups)
    (id_ : Z) (rec : Record_) (changes changes' : change_log) (ref' : Ref)
    (changed' : bool) (bag : gmap string string) (raw : string) :
  field_items h ≡ₚ FIELD_MAP →
  rec_get rec "title" = Some raw →
  merge h maps id_ rec None changes = Ok (ref', changed', changes', bag) →
  getattr ref' "title" = VStr (unescape h raw)
  ∧ getattr ref' "description" = VNone.
Proof.
  intros Hperm Hraw Hmerge.
  destruct (created_columns h maps id_ rec changes ref' changed' changes' bag
              Hmerge) as (kw & Hkw & _ & _ & Hcols).
  rewrite !Hcols by set_solver. unfold kw_get. split.
  - rewrite (parse_record_single h Hperm id_ rec kw "title" "title" raw);
      try done; [apply only_source_title|..];
      apply (bool_decide_unpack _); by vm_compute.
  - rewrite (parse_record_keys h Hperm id_ rec kw "description" Hkw); [done|].
    apply (bool_decide_unpack _). by vm_compute.
Qed.

Lemma created_reference_lacks_description_witness :
  getattr Sample.merged_new.1.1.1 "title" = VStr "A grammar"
  ∧ getattr Sample.merged_new.1.1.1 "description" = VNone.
Proof.
  apply (created_reference_lacks_description Sample.helpers Sample.maps 7
           (Sample.record []) ∅ Sample.merged_new.1.2 Sample.merged_new.1.1.1
           Sample.merged_new.1.1.2 Sample.merged_new.2 "A grammar").
  - apply Permutation_refl.
  - by_vm.
  - by_vm.
Defined.

(* ===================================================================== *)
(** * The loop body *)
(* ===================================================================== *)

Section Body.
Context (h : helpers).

(** The body on a record that is merged. *)
Lemma body_merged mode known_ids maps st rec raw id_ ref' changed' changes' bag :
  ¬ (size (rec_fields rec) < 6)%nat →
  rec_get rec "glottolog_ref_id" = Some raw → Py.int raw = Ok id_ →
  ¬ (mode ≠ "update" ∧ id_ ∈ known_ids) →
  merge h maps id_ rec (st_db st !! id_) (st_changes st)
  = Ok (ref', changed', changes', bag) →
  body h mode known_ids maps st rec
  = Ok (mkState (<[id_ := ref']> (st_db st)) changes'
          (if changed' then st_count st + 1 else st_count st)
          (st_skipped st),
        Merged changed').
Proof.
  intros Hsize Hraw Hid Hmode Hmerge. unfold body.
  rewrite bool_decide_eq_false_2 by done. rewrite Hraw, Hid. simpl.
  rewrite bool_decide_eq_false_2 by done. by rewrite Hmerge.
Qed.

(** The three ways the body ends without raising. *)
Lemma body_inv mode known_ids maps st rec st' o :
  body h mode known_ids maps st rec = Ok (st', o) →
  ((size (rec_fields rec) < 6)%nat ∧ o = Skipped
   ∧ st' = mkState (st_db st) (st_changes st) (st_count st) (st_skipped st + 1))
  ∨ ∃ raw id_,
      ¬ (size (rec_fields rec) < 6)%nat
      ∧ rec_get rec "glottolog_ref_id" = Some raw ∧ Py.int raw = Ok id_
      ∧ ((mode ≠ "update" ∧ id_ ∈ known_ids ∧ o = Known ∧ st' = st)
         ∨ (¬ (mode ≠ "update" ∧ id_ ∈ known_ids)
            ∧ ∃ ref' changed' changes' bag,
                merge h maps id_ rec (st_db st !! id_) (st_changes st)
                = Ok (ref', changed', changes', bag)
                ∧ o = Merged changed'
                ∧ st' = mkState (<[id_ := ref']> (st_db st)) changes'
                          (if changed' then st_count st + 1 else st_count st)
                          (st_skipped st))).
Proof.
  unfold body. case_bool_decide as Hsize.
  - intros [= <- <-]. by left.
  - destruct (rec_get rec "glottolog_ref_id") as [raw|]; [|done].
    destruct (Py.int raw) as [id_|] eqn:Hid; [|done]. simpl.
    intros Hbody. right. exists raw, id_. repeat (split; [done|]).
    case_bool_decide as Hmode.
    + injection Hbody as <- <-. left. naive_solver.
    + right. split; [done|].
      destruct (merge h maps id_ rec (st_db st !! id_) (st_changes st))
        as [[[[ref' changed'] changes'] bag]|]; [|done].
      simpl in Hbody. injection Hbody as <- <-. by exists ref', changed', changes', bag.
Qed.

End Body.

(** C10, as the code has it. On the update path, when the parsed columns
    other than the side-bag all equal those of the stored reference and
    the side-bag differs, the update loop merges the side-bag into the
    stored one and returns [changed] unset and the change log as it was.
    Only if the relationship reconciliation of lines 336-353 reports
    nothing either does the body leave the count of changed records as it
    was and the two summary columns as they were. Any other column that
    differs sets [changed] and is written to the change log with its old
    and its new text. *)
Theorem side_bag_difference_is_silent (h : helpers) (mode : string)
    (known_ids : gset Z) (maps : lookups) (st : state) (rec : Record_)
    (raw : string) (id_ : Z) (kw : gmap string value) (ref : Ref) :
  field_items h ≡ₚ FIELD_MAP →
  (∀ kw, kw_keys h kw ≡ₚ (map_to_list kw).*1) →
  ¬ (size (rec_fields rec) < 6)%nat →
  rec_get rec "glottolog_ref_id" = Some raw → Py.int raw = Ok id_ →
  ¬ (mode ≠ "update" ∧ id_ ∈ known_ids) →
  st_db st !! id_ = Some ref →
  parse_record h id_ rec = Ok kw →
  (∀ k, is_Some (kw !! k) → k ≠ "pk" → k ≠ "jsondata" →
        kw_get kw k = getattr ref k) →
  kw_get kw "jsondata" ≠ getattr ref "jsondata" →
  (∃ ref1,
     update_ref h kw ref (st_changes st) = (ref1, false, st_changes st)
     ∧ getattr ref1 "jsondata" = VDict (kw_jsondata kw ∪ ref_jsondata ref)
     ∧ ∀ ref2, reconcile h maps kw ref1 false = Ok (ref2, false) →
         body h mode known_ids maps st rec
         = Ok (mkState (<[id_ := ref2]> (st_db st)) (st_changes st)
                 (st_count st) (st_skipped st), Merged false)
         ∧ getattr ref2 "jsondata" = VDict (kw_jsondata kw ∪ ref_jsondata ref)
         ∧ getattr ref2 "doctypes_str" = getattr ref "doctypes_str"
         ∧ getattr ref2 "providers_str" = getattr ref "providers_str")
  ∧ (∀ ref0 changes k,
       is_Some (kw !! k) → k ≠ "pk" → k ≠ "jsondata" →
       kw_get kw k ≠ getattr ref0 k →
       (update_ref h kw ref0 changes).1.2 = true
       ∧ ∃ id, (update_ref h kw ref0 changes).2 !! id ≫= (.!! k)
               = Some (str_of_value (getattr ref0 k),
                       str_of_value (kw_get kw k))).
Proof.
  intros Hperm Hkeys Hsize Hraw Hid Hmode Hdb Hkw Hsame Hdiff.
  assert (∀ k, bool_decide (k ∈ kw_columns) = false → k ∉ kw_keys h kw) as Hno.
  { intros k. by apply (parse_record_no_key h Hperm id_ rec). }
  assert ("description" ∉ kw_keys h kw) as Hd by by apply Hno.
  split.
  - destruct (update_ref h kw ref (st_changes st)) as [[ref1 c1] ch1] eqn:Eup.
    pose proof (update_loop_quiet kw (kw_keys h kw) ref false (st_changes st) Hd)
      as [Hc Hch].
    { intros k Hk%(kw_keys_elem h Hkeys). by apply Hsame. }
    unfold update_ref in Eup. rewrite Eup in Hc, Hch. simpl in Hc, Hch.
    subst c1 ch1. exists ref1. split; [done|].
    assert (getattr ref1 "jsondata" = VDict (kw_jsondata kw ∪ ref_jsondata ref))
      as Hjs.
    { pose proof (update_loop_jsondata kw (kw_keys h kw) ref false
                    (st_changes st) (kw_keys_NoDup h Hkeys kw)) as Hj.
      rewrite Eup in Hj. simpl in Hj. rewrite Hj.
      - rewrite bool_decide_eq_false_2 by done. unfold update_jsondata.
        by rewrite getattr_setattr_eq.
      - apply (kw_keys_elem h Hkeys). unfold kw_get in Hdiff.
        destruct (kw !! "jsondata") eqn:E; [done|].
        pose proof (parse_record_side_bag h Hperm id_ rec kw "bibtexkey" Hkw)
          as Hb.
        unfold kw_jsondata in Hb. rewrite E in Hb. simpl in Hb.
        by rewrite lookup_empty in Hb. }
    split; [done|]. intros ref2 Hrec.
    assert (merge h maps id_ rec (st_db st !! id_) (st_changes st)
            = Ok (ref2, false, st_changes st, bracket_lgcode (kw_jsondata kw)))
      as Hmerge.
    { unfold merge. rewrite Hkw, Hdb. simpl. unfold update_ref.
      rewrite Eup. by rewrite Hrec. }
    rewrite (body_merged h mode known_ids maps st rec raw id_ _ _ _ _
               Hsize Hraw Hid Hmode Hmerge).
    split; [done|]. apply reconcile_extends in Hrec as [Hattrs _].
    unfold getattr in *. rewrite !Hattrs. split; [done|].
    pose proof (update_loop_frame kw (kw_keys h kw) ref false (st_changes st))
      as Hf.
    rewrite Eup in Hf. simpl in Hf. unfold getattr in Hf.
    split; apply Hf; try done; by apply Hno.
  - intros ref0 changes k Hk Hpk Hjs Hne. unfold update_ref.
    apply update_loop_records; try done.
    + apply (kw_keys_NoDup h Hkeys).
    + by apply (kw_keys_elem h Hkeys).
Qed.

Lemma side_bag_difference_is_silent_witness :
  body Sample.helpers "update" {[7]} Sample.maps Sample.imported Sample.coded
  = Ok (Sample.imported_again, Merged false)
  ∧ st_changes Sample.imported_again = ∅
  ∧ st_count Sample.imported_again = st_count Sample.imported.
Proof.
  destruct (created_columns Sample.helpers Sample.maps 7 Sample.coded ∅
              Sample.merged_coded.1.1.1 Sample.merged_coded.1.1.2
              Sample.merged_coded.1.2 Sample.merged_coded.2)
    as (kw & Hkw & _ & _ & Hcols); [by_vm|].
  assert (kw = Sample.kw_coded) as ->.
  { assert (parse_record Sample.helpers 7 Sample.coded = Ok Sample.kw_coded)
      as Hkw' by by_vm.
    rewrite Hkw' in Hkw. by injection Hkw. }
  destruct (side_bag_difference_is_silent Sample.helpers "update" {[7]}
              Sample.maps Sample.imported Sample.coded "7" 7 Sample.kw_coded
              Sample.merged_coded.1.1.1)
    as [(ref1 & Hup & Hjs & Hbody) _].
  - apply Permutation_refl.
  - intros kw. apply Permutation_refl.
  - vm_compute. lia.
  - by_vm.
  - by_vm.
  - intros [Hm _]. by apply Hm.
  - by_vm.
  - exact Hkw.
  - intros k Hk Hpk Hj. symmetry. apply Hcols.
    intros [->|[->|[->|[->|[]%elem_of_nil]%elem_of_cons]%elem_of_cons
                   ]%elem_of_cons]%elem_of_cons; try done;
      destruct Hk as [v Hv]; vm_compute in Hv; discriminate Hv.
  - intros H. vm_compute in H. discriminate H.
  - assert (ref1 = Sample.updated_ref) as ->.
    { assert (update_ref Sample.helpers Sample.kw_coded
                Sample.merged_coded.1.1.1 (st_changes Sample.imported)
              = (Sample.updated_ref, false, ∅)) as Hup' by by_vm.
      rewrite Hup' in Hup. by injection Hup. }
    destruct (Hbody Sample.updated_ref) as (Hb & _); [by_vm|].
    split; [rewrite Hb; by_vm|]. split; reflexivity.
Defined.

(** C10 as stated fails: the stored reference was imported with the
    provider b, the record names the providers b and c, and the two differ
    in the side-bag only. The provider loop of lines 345-347 appends c and
    sets [changed]: nothing is written to the change log, but the record
    is counted as changed and the summary of the providers is recomputed. *)
Lemma side_bag_difference_not_silent :
  parse_record Sample.helpers 7 (Sample.record []) = Ok Sample.kw_plain
  ∧ (∀ k, is_Some (Sample.kw_plain !! k) → k ≠ "pk" → k ≠ "jsondata" →
          kw_get Sample.kw_plain k = getattr Sample.merged_b.1.1.1 k)
  ∧ kw_get Sample.kw_plain "jsondata" ≠ getattr Sample.merged_b.1.1.1 "jsondata"
  ∧ body Sample.helpers "update" {[7]} Sample.maps Sample.imported_b
      (Sample.record []) = Ok (Sample.imported_bc, Merged true)
  ∧ st_changes Sample.imported_bc = st_changes Sample.imported_b
  ∧ st_count Sample.imported_bc = st_count Sample.imported_b + 1
  ∧ getattr Sample.merged_b.1.1.1 "providers_str" = VStr "b"
  ∧ (λ ref2, getattr ref2 "providers_str") <$> st_db Sample.imported_bc !! 7
    = Some (VStr "b, c").
Proof.
  split; [by_vm|]. split.
  { assert (Forall (λ k, k = "pk" ∨ k = "jsondata"
                         ∨ kw_get Sample.kw_plain k
                           = getattr Sample.merged_b.1.1.1 k)
              (map_to_list Sample.kw_plain).*1) as Hall.
    { apply (bool_decide_unpack _). by vm_compute. }
    rewrite Forall_forall in Hall. intros k [v Hv] Hpk Hjs.
    destruct (Hall k) as [?|[?|?]]; try done.
    apply (list_elem_of_fmap_2 fst _ (k, v)). by apply elem_of_map_to_list. }
  split; [intros H; vm_compute in H; discriminate H|].
  split; [by_vm|]. split; [reflexivity|]. split; [reflexivity|].
  split; by_vm.
Qed.

(* ===================================================================== *)
(** * Importing a record twice *)
(* ===================================================================== *)

Section Rerun.
Context (h : helpers).

(** The provider loop appends nothing to a collection that already holds
    the providers the record names, and leaves [changed] as it is. *)
Lemma append_providers_again m names attr changed ps :
  map_get_all m (slug h <$> names) = Ok ps → (∀ x, x ∈ ps → x ∈ attr) →
  append_providers h m names attr changed = Ok (attr, changed).
Proof.
  revert ps attr changed.
  induction names as [|n ns IH]; intros ps attr changed; [by intros _ _|].
  rewrite fmap_cons. cbn [map_get_all append_providers].
  destruct (map_get m (slug h n)) as [obj|]; [|done].
  cbn [mbind result_bind].
  destruct (map_get_all m (slug h <$> ns)) as [ps'|] eqn:Eps; [|done].
  cbn [mbind result_bind]. intros [= <-] Hin. unfold append.
  rewrite bool_decide_eq_false_2 by (intros Hno; apply Hno, Hin; by left).
  rewrite orb_false_r. apply (IH ps'); [done|].
  intros x Hx. apply Hin. by right.
Qed.

Lemma extends_elem old col new x : extends old col new → x ∈ new → x ∈ col.
Proof.
  intros (added & -> & _ & Hadd) Hx. apply elem_of_app.
  destruct (decide (x ∈ old)); [by left|]. right. by apply Hadd.
Qed.

End Rerun.

Section RerunMerge.
Context (h : helpers).
Context (Hperm : field_items h ≡ₚ FIELD_MAP).
Context (Hkeys : ∀ kw, kw_keys h kw ≡ₚ (map_to_list kw).*1).

Lemma reserved_not_column k :
  k ∈ kw_columns →
  k ∉ ["name"; "doctypes_str"; "providers_str"; "description"].
Proof.
  intros Hk Hin.
  assert (Forall (λ x, x ∉ kw_columns)
            ["name"; "doctypes_str"; "providers_str"; "description"]) as Hall.
  { apply (bool_decide_unpack _). by vm_compute. }
  rewrite Forall_forall in Hall. by apply (Hall k).
Qed.

(** After a merge the columns of the reference are those of [kw]. *)
Lemma merged_columns maps id_ rec existing changes ref1 changed1 changes1 bag kw k :
  merge h maps id_ rec existing changes = Ok (ref1, changed1, changes1, bag) →
  parse_record h id_ rec = Ok kw →
  is_Some (kw !! k) → k ≠ "pk" → k ≠ "jsondata" →
  kw_get kw k = getattr ref1 k.
Proof.
  intros Hmerge Hkw Hk Hpk Hjs.
  pose proof (parse_record_column h Hperm id_ rec kw k Hkw Hk) as Hcol.
  pose proof (reserved_not_column k Hcol) as Hres.
  rewrite !not_elem_of_cons in Hres.
  destruct Hres as (Hn1 & Hn2 & Hn3 & Hn4 & _).
  destruct existing as [ref|].
  - apply updated_columns in Hmerge
      as (kw' & ref' & c' & ref2 & Hkw' & Hup & _ & _ & Hcols).
    rewrite Hkw in Hkw'. injection Hkw' as <-.
    rewrite Hcols.
    + unfold update_ref in Hup. symmetry.
      pose proof (update_loop_sets kw (kw_keys h kw) ref false changes k
                    (kw_keys_NoDup h Hkeys kw)) as Hs.
      rewrite Hup in Hs. apply Hs; try done.
      * by apply (parse_record_no_key h Hperm id_ rec).
      * by apply (kw_keys_elem h Hkeys).
    + rewrite !not_elem_of_cons. by repeat split; try apply not_elem_of_nil.
  - apply created_columns in Hmerge as (kw' & Hkw' & _ & _ & Hcols).
    rewrite Hkw in Hkw'. injection Hkw' as <-. symmetry. apply Hcols.
    rewrite !not_elem_of_cons. by repeat split; try apply not_elem_of_nil.
Qed.

End RerunMerge.

(** When a merge has stored a record, the update loop run again on the
    same record and on the reference the merge returned leaves [changed]
    unset, the change log as it is and the relationship collections as
    they are, and the provider loop that follows appends nothing and
    leaves [changed] as it finds it. *)
Theorem rerun_loops_are_quiet (h : helpers) (maps : lookups) (id_ : Z)
    (rec : Record_) (existing : option Ref) (changes changes1 : change_log)
    (ref1 : Ref) (changed1 : bool) (bag : gmap string string) :
  field_items h ≡ₚ FIELD_MAP →
  (∀ kw, kw_keys h kw ≡ₚ (map_to_list kw).*1) →
  merge h maps id_ rec existing changes = Ok (ref1, changed1, changes1, bag) →
  ∃ kw ref2,
    parse_record h id_ rec = Ok kw
    ∧ update_ref h kw ref1 changes1 = (ref2, false, changes1)
    ∧ same_collections ref1 ref2
    ∧ ∀ c, append_providers h (provider_map maps)
             (tag_names h (jsondata_get kw "src")) (providers ref2) c
           = Ok (providers ref2, c).
Proof.
  intros Hperm Hkeys Hmerge.
  pose proof Hmerge
    as (kw & r1 & c1 & r2 & Hkw & Hpath & Hrec & Hbag & Href)%merge_inv.
  destruct (update_ref h kw ref1 changes1) as [[ref2 cu] chu] eqn:Eup.
  assert ("description" ∉ kw_keys h kw) as Hd
    by by apply (parse_record_no_key h Hperm id_ rec).
  pose proof (update_loop_quiet kw (kw_keys h kw) ref1 false changes1 Hd)
    as [Hc Hch].
  { intros k Hk%(kw_keys_elem h Hkeys) Hpk Hjs.
    by apply (merged_columns h Hperm Hkeys maps id_ rec existing changes
                ref1 changed1 changes1 bag kw). }
  pose proof (update_ref_collections h kw ref1 changes1) as Hcoll.
  unfold update_ref in Eup, Hcoll. rewrite Eup in Hc, Hch, Hcoll.
  simpl in Hc, Hch, Hcoll. subst cu chu.
  exists kw, ref2. split; [done|]. split; [done|]. split; [done|].
  intros c. destruct Hcoll as (_ & Hp & _). rewrite Hp.
  assert (providers ref1 = providers r2) as ->.
  { subst ref1. by destruct changed1, existing. }
  apply reconcile_extends in Hrec
    as (_ & ms & ps & ds & _ & Hps & _ & _ & Hep & _).
  apply (append_providers_again h _ _ _ _ ps Hps).
  intros x. by apply (extends_elem _ _ _ _ Hep).
Qed.

Lemma rerun_loops_are_quiet_witness :
  ∃ ref2, update_ref Sample.helpers Sample.kw_coded Sample.merged_coded.1.1.1
            Sample.merged_coded.1.2
          = (ref2, false, Sample.merged_coded.1.2).
Proof.
  destruct (rerun_loops_are_quiet Sample.helpers Sample.maps 7 Sample.coded
              None ∅ Sample.merged_coded.1.2 Sample.merged_coded.1.1.1
              Sample.merged_coded.1.1.2 Sample.merged_coded.2)
    as (kw & ref2 & Hkw & Hup & _).
  - apply Permutation_refl.
  - intros kw. apply Permutation_refl.
  - by_vm.
  - assert (parse_record Sample.helpers 7 Sample.coded = Ok Sample.kw_coded)
      as Hkw' by by_vm.
    rewrite Hkw' in Hkw. injection Hkw as <-. by exists ref2.
Defined.

(* ===================================================================== *)
(** * The run as a whole *)
(* ===================================================================== *)

Section Run.
Context (h : helpers).

Lemma loop_app mode known_ids maps st pre post :
  loop h mode known_ids maps st (pre ++ post)
  = st' ← loop h mode known_ids maps st pre;
    loop h mode known_ids maps st' post.
Proof.
  revert st. induction pre as [|rec pre IH]; intros st; [done|].
  cbn [app loop].
  destruct (body h mode known_ids maps st rec) as [[st1 o]|]; [|done].
  cbn [mbind result_bind]. apply IH.
Qed.

(** What one round does to the catalog and to the counters. *)
Lemma body_effect mode known_ids maps st rec st' o :
  body h mode known_ids maps st rec = Ok (st', o) →
  (∀ id_, is_Some (st_db st !! id_) → is_Some (st_db st' !! id_))
  ∧ (∀ id_, is_Some (st_db st' !! id_) →
            is_Some (st_db st !! id_) ∨ (sparse rec = false ∧ carries_id rec id_))
  ∧ (mode ≠ "update" → ∀ id_, id_ ∈ known_ids → st_db st' !! id_ = st_db st !! id_)
  ∧ st_skipped st' = st_skipped st + (if sparse rec then 1 else 0)
  ∧ st_count st ≤ st_count st' ≤ st_count st + (if sparse rec then 0 else 1).
Proof.
  intros Hbody. unfold sparse, carries_id.
  apply body_inv in Hbody
    as [(Hsize & -> & ->)|(raw & id_ & Hsize & Hraw & Hid &
         [(Hmode & Hknown & -> & ->)|(Hmode & ref1 & c1 & ch1 & bag
                                       & Hmerge & -> & ->)])].
  - rewrite bool_decide_eq_true_2 by done. simpl.
    repeat split; auto; lia.
  - rewrite bool_decide_eq_false_2 by done.
    repeat split; auto; lia.
  - rewrite bool_decide_eq_false_2 by done. simpl. repeat split.
    + intros i Hi. destruct (decide (i = id_)) as [->|Hne].
      * rewrite lookup_insert_eq. by eexists.
      * by rewrite lookup_insert_ne.
    + intros i Hi. destruct (decide (i = id_)) as [->|Hne].
      * right. split; [done|]. by exists raw.
      * left. by rewrite lookup_insert_ne in Hi.
    + intros Hm i Hi. rewrite lookup_insert_ne; [done|].
      intros ->. by apply Hmode.
    + lia.
    + destruct c1; lia.
    + destruct c1; lia.
Qed.

Lemma loop_effect mode known_ids maps bib st st' :
  loop h mode known_ids maps st bib = Ok st' →
  (∀ id_, is_Some (st_db st !! id_) → is_Some (st_db st' !! id_))
  ∧ (∀ id_, is_Some (st_db st' !! id_) →
            is_Some (st_db st !! id_)
            ∨ ∃ rec, rec ∈ bib ∧ sparse rec = false ∧ carries_id rec id_)
  ∧ (mode ≠ "update" → ∀ id_, id_ ∈ known_ids → st_db st' !! id_ = st_db st !! id_)
  ∧ st_skipped st' = st_skipped st + Z.of_nat (length (filter (λ r, sparse r = true) bib))
  ∧ st_count st ≤ st_count st'
    ≤ st_count st + Z.of_nat (length (filter (λ r, sparse r = false) bib)).
Proof.
  revert st. induction bib as [|rec bib IH]; intros st.
  - intros [= <-]. simpl. repeat split; auto; lia.
  - cbn [loop].
    destruct (body h mode known_ids maps st rec) as [[st1 o]|] eqn:Hbody; [|done].
    cbn [mbind result_bind]. intros Hloop.
    apply body_effect in Hbody as (Hb1 & Hb2 & Hb3 & Hb4 & Hb5).
    apply IH in Hloop as (Hl1 & Hl2 & Hl3 & Hl4 & Hl5).
    split; [by auto|]. split; [|split; [|split]].
    + intros i Hi. destruct (Hl2 i Hi) as [Hi1|(r & Hr & Hs & Hc)].
      * destruct (Hb2 i Hi1) as [?|[Hs Hc]]; [by left|].
        right. exists rec. split; [by left|done].
      * right. exists r. split; [by right|done].
    + intros Hm i Hi. rewrite Hl3, Hb3 by done. done.
    + rewrite Hl4, Hb4. destruct (sparse rec) eqn:Es.
      * rewrite filter_cons_True by done. cbn [length]. lia.
      * rewrite filter_cons_False by (by rewrite Es). lia.
    + destruct (sparse rec) eqn:Es.
      * rewrite filter_cons_False by (by rewrite Es). lia.
      * rewrite filter_cons_True by done. cbn [length]. lia.
Qed.

End Run.

(** In a mode other than [update], a run that ends leaves every reference
    the catalog held at its start exactly as it was. *)
Theorem insert_keeps_known_references (h : helpers) (mode : string)
    (maps : lookups) (bib : list Record_) (db : gmap Z Ref) (st : state)
    (id_ : Z) :
  mode ≠ "update" →
  main h mode maps bib db = Ok st →
  is_Some (db !! id_) →
  st_db st !! id_ = db !! id_.
Proof.
  intros Hmode Hmain Hid. unfold main in Hmain.
  apply loop_effect in Hmain as (_ & _ & Hkeep & _).
  apply (Hkeep Hmode). by apply elem_of_dom.
Qed.

Lemma insert_keeps_known_references_witness :
  st_db Sample.inserted !! 7 = Some Sample.stored.
Proof.
  apply (insert_keeps_known_references Sample.helpers "insert" Sample.maps
           Sample.bib3 Sample.catalog7 Sample.inserted 7).
  - discriminate.
  - by_vm.
  - by eexists.
Defined.

(** A run that ends deletes no reference, and every reference it adds is
    keyed by the id that a record of six fields or more carries. *)
Theorem run_only_adds_record_ids (h : helpers) (mode : string)
    (maps : lookups) (bib : list Record_) (db : gmap Z Ref) (st : state) :
  main h mode maps bib db = Ok st →
  (∀ id_, is_Some (db !! id_) → is_Some (st_db st !! id_))
  ∧ (∀ id_, is_Some (st_db st !! id_) →
            is_Some (db !! id_)
            ∨ ∃ rec, rec ∈ bib ∧ sparse rec = false ∧ carries_id rec id_).
Proof.
  intros Hmain. unfold main in Hmain.
  apply loop_effect in Hmain as (H1 & H2 & _). by split.
Qed.

Lemma run_only_adds_record_ids_witness :
  is_Some (st_db Sample.inserted !! 7)
  ∧ (is_Some (st_db Sample.inserted !! 8) →
     is_Some (Sample.catalog7 !! 8)
     ∨ ∃ rec, rec ∈ Sample.bib3 ∧ sparse rec = false ∧ carries_id rec 8).
Proof.
  destruct (run_only_adds_record_ids Sample.helpers "insert" Sample.maps
              Sample.bib3 Sample.catalog7 Sample.inserted) as [H1 H2];
    [by_vm|].
  split; [apply H1; by eexists|apply H2].
Defined.

(** When a run ends, the count of skipped records is the number of
    records with fewer than six keys, and the count of changed records is
    at most the number of the others. *)
Theorem run_counters (h : helpers) (mode : string) (maps : lookups)
    (bib : list Record_) (db : gmap Z Ref) (st : state) :
  main h mode maps bib db = Ok st →
  st_skipped st = Z.of_nat (length (filter (λ r, sparse r = true) bib))
  ∧ 0 ≤ st_count st ≤ Z.of_nat (length (filter (λ r, sparse r = false) bib)).
Proof.
  intros Hmain. unfold main in Hmain.
  apply loop_effect in Hmain as (_ & _ & _ & H4 & H5). simpl in *. lia.
Qed.

Lemma run_counters_witness :
  st_skipped Sample.inserted = 1 ∧ 0 ≤ st_count Sample.inserted ≤ 2.
Proof.
  destruct (run_counters Sample.helpers "insert" Sample.maps Sample.bib3
              Sample.catalog7 Sample.inserted) as [H1 H2]; [by_vm|].
  split; [exact H1|exact H2].
Defined.

(** A record of six keys or more without (or with an empty) reference id
    fails the assertion of line 237 in every mode, and the run ends there
    with that error, whatever records follow; with fewer than six keys the
    same record is skipped before the assertion is reached. *)
Theorem missing_id_aborts_run (h : helpers) (mode : string)
    (known_ids : gset Z) (maps : lookups) (st st1 : state)
    (pre post : list Record_) (rec : Record_) :
  rec_get rec "glottolog_ref_id" = None →
  loop h mode known_ids maps st pre = Ok st1 →
  loop h mode known_ids maps st (pre ++ rec :: post)
  = if sparse rec
    then loop h mode known_ids maps
           (mkState (st_db st1) (st_changes st1) (st_count st1)
              (st_skipped st1 + 1)) post
    else Raise AssertionError.
Proof.
  intros Hnone Hpre. rewrite loop_app, Hpre. cbn [mbind result_bind loop].
  unfold body, sparse. case_bool_decide; [done|]. by rewrite Hnone.
Qed.

Lemma missing_id_aborts_run_witness :
  main Sample.helpers "insert" Sample.maps
    ([Sample.scant] ++ Sample.anonymous :: [Sample.record []]) ∅
  = Raise AssertionError.
Proof.
  unfold main.
  rewrite (missing_id_aborts_run Sample.helpers "insert" (dom ∅) Sample.maps
             (mkState ∅ ∅ 0 0) (mkState ∅ ∅ 0 1) [Sample.scant]
             [Sample.record []] Sample.anonymous); [reflexivity|by_vm|by_vm].
Defined.

(* ===================================================================== *)
(** * Names that no row stands for *)
(* ===================================================================== *)

Section UnknownNames.
Context (h : helpers).

Lemma map_get_all_Ok m ks es k :
  map_get_all m ks = Ok es → k ∈ ks → is_Some (m !! k).
Proof.
  revert es. induction ks as [|k1 ks IH]; intros es; simpl.
  - intros _ Hk. by apply elem_of_nil in Hk.
  - unfold map_get at 1. destruct (m !! k1) as [e|] eqn:E; [|done]. simpl.
    destruct (map_get_all m ks) as [es'|]; [|done]. simpl.
    intros _ [->|Hk]%elem_of_cons; [by rewrite E|]. by apply (IH es').
Qed.

Lemma map_get_all_Raise m ks e :
  map_get_all m ks = Raise e → ∃ k, e = KeyError k ∧ k ∈ ks ∧ m !! k = None.
Proof.
  induction ks as [|k1 ks IH]; simpl; [done|].
  unfold map_get at 1. destruct (m !! k1) as [x|] eqn:E; simpl.
  - destruct (map_get_all m ks) as [es'|]; [done|]. simpl.
    intros [= <-]. destruct (IH eq_refl) as (k & -> & Hk & Hm).
    exists k. split; [done|]. split; [by right|done].
  - intros [= <-]. exists k1. split; [done|]. split; [by left|done].
Qed.

Lemma append_providers_Ok m names attr changed r n :
  append_providers h m names attr changed = Ok r → n ∈ names →
  is_Some (m !! slug h n).
Proof.
  revert attr changed. induction names as [|n1 ns IH]; intros attr c; simpl.
  - intros _ Hn. by apply elem_of_nil in Hn.
  - unfold map_get at 1. destruct (m !! slug h n1) as [obj|] eqn:E; [|done].
    simpl. destruct (append attr obj) as [attr1 r1].
    intros Hrest [->|Hn]%elem_of_cons; [by rewrite E|]. by eapply IH.
Qed.

Lemma append_providers_Raise m names attr changed e :
  append_providers h m names attr changed = Raise e →
  ∃ n, e = KeyError (slug h n) ∧ n ∈ names ∧ m !! slug h n = None.
Proof.
  revert attr changed. induction names as [|n1 ns IH]; intros attr c; simpl;
    [done|].
  unfold map_get at 1. destruct (m !! slug h n1) as [obj|] eqn:E; simpl.
  - destruct (append attr obj) as [attr1 r1].
    intros (n & -> & Hn & Hm)%IH. exists n. split; [done|].
    split; [by right|done].
  - intros [= <-]. exists n1. split; [done|]. split; [by left|done].
Qed.

End UnknownNames.

(** A record that names a macro-area, a provider or a doctype for which the
    lookup maps hold no row makes the merge raise [KeyError] for a missing
    name: nothing of the record is stored. *)
Theorem unknown_name_raises_KeyError (h : helpers) (maps : lookups) (id_ : Z)
    (rec : Record_) (existing : option Ref) (changes : change_log)
    (kw : gmap string value) :
  parse_record h id_ rec = Ok kw →
  (∃ n, n ∈ tag_names h (jsondata_get kw "macro_area")
        ∧ macroarea_map maps !! n = None)
  ∨ (∃ n, n ∈ tag_names h (jsondata_get kw "src")
          ∧ provider_map maps !! slug h n = None)
  ∨ (∃ n, n ∈ Re.DOCTYPE_PATTERN (jsondata_get kw "hhtype")
          ∧ doctype_map maps !! n = None) →
  ∃ k, merge h maps id_ rec existing changes = Raise (KeyError k)
       ∧ (macroarea_map maps !! k = None ∨ provider_map maps !! k = None
          ∨ doctype_map maps !! k = None).
Proof.
  intros Hkw Hmissing. unfold merge. rewrite Hkw. cbn [mbind result_bind].
  destruct (match existing with
            | Some ref => update_ref h kw ref changes
            | None => (new_ref kw, true, changes)
            end) as [[ref1 c1] ch1].
  unfold reconcile, desired_macroareas, desired_doctypes.
  destruct (map_get_all (macroarea_map maps) _) as [ms|e] eqn:Ems.
  2:{ apply map_get_all_Raise in Ems as (k & -> & _ & Hk). exists k. auto. }
  cbn [mbind result_bind].
  destruct (update_relationship (macroareas ref1) ms) as [m' [a r]].
  destruct (append_providers h _ _ _ _) as [[ps c2]|e] eqn:Eps.
  2:{ apply append_providers_Raise in Eps as (n & -> & _ & Hn).
      exists (slug h n). auto. }
  cbn [mbind result_bind].
  destruct (map_get_all (doctype_map maps) _) as [ds|e] eqn:Eds.
  2:{ apply map_get_all_Raise in Eds as (k & -> & _ & Hk). exists k. auto. }
  exfalso. destruct Hmissing as [(n & Hn & Hm)|[(n & Hn & Hm)|(n & Hn & Hm)]].
  - destruct (map_get_all_Ok _ _ _ _ Ems Hn) as [x Hx]. congruence.
  - destruct (append_providers_Ok h _ _ _ _ _ _ Eps Hn) as [x Hx]. congruence.
  - destruct (map_get_all_Ok _ _ _ _ Eds Hn) as [x Hx]. congruence.
Qed.

Lemma unknown_name_raises_KeyError_witness :
  ∃ k, merge Sample.helpers Sample.maps 7 Sample.unprovided None ∅
       = Raise (KeyError k)
       ∧ (macroarea_map Sample.maps !! k = None
          ∨ provider_map Sample.maps !! k = None
          ∨ doctype_map Sample.maps !! k = None).
Proof.
  apply (unknown_name_raises_KeyError Sample.helpers Sample.maps 7
           Sample.unprovided None ∅ Sample.kw_unprovided); [by_vm|].
  right. left. exists "zzz". split; [|by_vm].
  apply (bool_decide_unpack _). by vm_compute.
Defined.

(* ===================================================================== *)
(** * Parsing never fails on years and pages *)
(* ===================================================================== *)

Section Digits.

Lemma rev_app_rev_app s a b :
  String.rev_app (String.rev_app s a) b = String.rev_app a (s +:+ b).
Proof.
  revert a b. induction s as [|c s IH]; intros a b; simpl; [done|].
  rewrite IH. simpl. by rewrite app_cons.
Qed.

Lemma rev_rev s : String.rev (String.rev s) = s.
Proof.
  unfold String.rev. rewrite rev_app_rev_app. simpl.
  induction s as [|c s IH]; [done|]. rewrite app_cons. by f_equal.
Qed.

Lemma no_space_rev_app s a :
  no_space (String.rev_app s a) = no_space s && no_space a.
Proof.
  revert a. induction s as [|c s IH]; intros a; simpl; [done|].
  rewrite IH. simpl. destruct (Py.isspace c), (no_space s); simpl; try done.
Qed.

Lemma lstrip_no_space s : no_space s = true → Py.lstrip s = s.
Proof.
  destruct s as [|c s]; simpl; [done|].
  by destruct (Py.isspace c).
Qed.

(** Stripping a text without white space changes nothing. *)
Lemma strip_no_space s : no_space s = true → Py.strip s = s.
Proof.
  intros Hs. unfold Py.strip, Py.rstrip. rewrite (lstrip_no_space s Hs).
  rewrite lstrip_no_space; [apply rev_rev|].
  unfold String.rev. rewrite no_space_rev_app. by rewrite Hs.
Qed.

Lemma all_digits_no_space s : Py.all_digits s = true → no_space s = true.
Proof.
  induction s as [|c s IH]; simpl; [done|].
  intros [Hc Hs]%andb_prop. by rewrite (digit_not_space c Hc), IH.
Qed.

(** [int] of a non-empty run of digits is its decimal value. *)
Lemma int_digits s :
  s ≠ EmptyString → Py.all_digits s = true → Py.int s = Ok (Py.digits_value 0 s).
Proof.
  intros Hne Hs. unfold Py.int.
  rewrite (strip_no_space s (all_digits_no_space s Hs)).
  destruct s as [|c s]; [done|].
  assert (Py.unsigned_int (String c s) = Some (Py.digits_value 0 (String c s)))
    as Hu by (unfold Py.unsigned_int; by rewrite Hs).
  simpl in Hs. apply andb_prop in Hs as [Hc _].
  destruct (decide (c = "-"%char)) as [->|H1]; [done|].
  destruct (decide (c = "+"%char)) as [->|H2]; [done|].
  revert Hu. generalize (Py.digits_value 0 (String c s)).
  generalize (Py.unsigned_int (String c s)). intros o z ->. clear -H1 H2.
  destruct c as [[] [] [] [] [] [] [] []]; done.
Qed.

Lemma span_spec p s a b :
  Re.span p s = (a, b) →
  s = a +:+ b ∧ (∀ q, (∀ c, p c = true → q c = true) →
                      (fix all s := match s with
                                    | String c t => q c && all t
                                    | EmptyString => true
                                    end) a = true).
Proof.
  revert a b. induction s as [|c s IH]; intros a b; simpl.
  - by intros [= <- <-].
  - destruct (p c) eqn:Hc.
    + destruct (Re.span p s) as [a' b'] eqn:E. intros [= <- <-].
      destruct (IH a' b' eq_refl) as [-> Hall]. split; [done|].
      intros q Hq. rewrite (Hq c Hc). simpl. by apply Hall.
    + by intros [= <- <-].
Qed.

Lemma span_all_digits s a b :
  Re.span Re.digit s = (a, b) → Py.all_digits a = true.
Proof.
  intros [_ Hall]%span_spec. apply (Hall Py.isdigit). by intros c.
Qed.

Lemma span_first p s a b :
  Re.span p s = (a, b) → match b with String c _ => p c = false | _ => True end.
Proof.
  revert a b. induction s as [|c s IH]; intros a b; simpl.
  - by intros [= <- <-].
  - destruct (p c) eqn:Hc.
    + destruct (Re.span p s) as [a' b'] eqn:E. intros [= <- <-].
      by apply (IH a').
    + by intros [= <- <-].
Qed.

Lemma plus_match_inv p q s a b :
  Re.plus_match p q s = Some (a, b) →
  ∃ t rest, Re.span p s = (a, String "+" t) ∧ Re.span q t = (b, rest)
            ∧ a ≠ EmptyString ∧ b ≠ EmptyString.
Proof.
  unfold Re.plus_match. destruct (Re.span p s) as [x y] eqn:E1.
  destruct x as [|c x]; [done|]. destruct y as [|d y]; [done|].
  destruct (decide (d = "+"%char)) as [->|Hd].
  - destruct (Re.span q y) as [x' y'] eqn:E2.
    destruct x' as [|c' x']; [done|]. intros [= <- <-]. by exists y, y'.
  - intros H. exfalso. revert H. clear -Hd.
    destruct d as [[] [] [] [] [] [] [] []]; done.
Qed.

(** The Arabic group of a match of the page patterns is a run of digits,
    so [int] reads it without raising. *)
Lemma page_match_arabic pages roman arabic :
  match Re.ROMANPAGESPATTERNra pages with
  | Some m => Some m
  | None => Re.ROMANPAGESPATTERNar pages
  end = Some (roman, arabic) →
  Py.int arabic = Ok (Py.digits_value 0 arabic).
Proof.
  unfold Re.ROMANPAGESPATTERNra, Re.ROMANPAGESPATTERNar.
  destruct (Re.search (Re.plus_match Re.roman Re.digit) pages)
    as [[r a]|] eqn:Era.
  - intros [= -> ->].
    apply search_Some in Era as (pre & post & _ & Hm & _).
    apply plus_match_inv in Hm as (t & rest & _ & Hq & _ & Hne).
    apply int_digits; [done|]. by apply (span_all_digits t _ rest).
  - destruct (Re.search (Re.plus_match Re.digit Re.roman) pages)
      as [[a r]|] eqn:Ear; [|done].
    intros [= -> ->].
    apply search_Some in Ear as (pre & post & _ & Hm & _).
    apply plus_match_inv in Hm as (t & rest & Hp & _ & Hne & _).
    apply int_digits; [done|]. by apply (span_all_digits post _ (String "+" t)).
Qed.

End Digits.

Section ParseTotal.
Context (h : helpers).

(** Year extraction never raises. *)
Lemma extract_year_total raw : ∃ oy, extract_year raw = Ok oy.
Proof.
  unfold extract_year.
  destruct (Re.PREF_YEAR_PATTERN raw) as [y|] eqn:Ep.
  - apply PREF_YEAR_PATTERN_Some_inv in Ep as (pre & (post & _ & Hy & _) & _).
    rewrite (int_four_digit_year y Hy). by eexists.
  - destruct (Re.YEAR_PATTERN raw) as [y|] eqn:Ey; [|by eexists].
    apply YEAR_PATTERN_Some_inv in Ey as (pre & (post & _ & Hy) & _).
    rewrite (int_four_digit_year y Hy). by eexists.
Qed.

Lemma year_step_spec kw :
  ∃ oy, (match kw_get kw "year" with
         | VStr y => extract_year y
         | _ => Ok None
         end) = Ok oy
        ∧ year_step kw = Ok (match oy with
                             | Some n => <["year_int" := VInt n]> kw
                             | None => kw
                             end).
Proof.
  unfold year_step. destruct (kw_get kw "year") as [| |y|];
    try (exists None; by split).
  destruct (extract_year_total y) as [oy Hoy]. rewrite Hoy.
  destruct y as [|c y].
  - vm_compute in Hoy. injection Hoy as <-. exists None. by split.
  - exists oy. split; [done|]. simpl. by destruct oy.
Qed.

Lemma pages_step_total kw : ∃ kw', pages_step h kw = Ok kw'.
Proof.
  unfold pages_step. destruct (kw_get kw "pages") as [| |pages|];
    try by eexists.
  destruct (truthy (VStr pages)); [|by eexists].
  destruct (match Re.ROMANPAGESPATTERNra pages with
            | Some m => Some m
            | None => Re.ROMANPAGESPATTERNar pages
            end) as [[roman arabic]|] eqn:Em.
  - destruct (kw !! "pages_int"); [by eexists|].
    rewrite (page_match_arabic pages roman arabic Em). by eexists.
  - destruct (compute_pages h pages) as [[s e] n]. by eexists.
Qed.

(** The field loop raises only in the converter of a source. *)
Lemma map_fields_Raise rec items kw0 e :
  map_fields h rec items kw0 = Raise e →
  ∃ s t raw, (s, t) ∈ items ∧ t ≠ EmptyString ∧ s ∈ CONVERTER_keys
             ∧ rec_get rec s = Some raw ∧ Py.int (unescape h raw) = Raise e.
Proof.
  revert kw0. induction items as [|[s t] items IH]; intros kw0; [done|].
  cbn [map_fields].
  destruct (map_field h rec kw0 (s, t)) as [kw1|e1] eqn:E1;
    cbn [mbind result_bind].
  - intros (s' & t' & raw & Hin & ?)%IH. exists s', t', raw.
    split; [by right|done].
  - intros [= <-]. unfold map_field in E1.
    destruct (rec_get rec s) as [raw|] eqn:Hraw; [|done].
    case_bool_decide as Ht; [done|]. unfold convert in E1.
    case_bool_decide as Hs; [|done].
    destruct (Py.int (unescape h raw)) as [n|e'] eqn:Hn; [done|].
    simpl in E1. injection E1 as ->. exists s, t, raw.
    split; [by left|done].
Qed.

Lemma map_fields_Ok_converted rec items kw0 kw s t raw :
  map_fields h rec items kw0 = Ok kw →
  (s, t) ∈ items → t ≠ EmptyString → s ∈ CONVERTER_keys →
  rec_get rec s = Some raw → ∃ n, Py.int (unescape h raw) = Ok n.
Proof.
  revert kw0. induction items as [|[s1 t1] items IH]; intros kw0.
  - intros _ Hin. by apply elem_of_nil in Hin.
  - cbn [map_fields].
    destruct (map_field h rec kw0 (s1, t1)) as [kw1|] eqn:E1; [|done].
    cbn [mbind result_bind].
    intros Hrest [[= <- <-]|Hin]%elem_of_cons Ht Hs Hraw; [|by eapply IH].
    unfold map_field in E1. rewrite Hraw in E1.
    rewrite bool_decide_eq_false_2 in E1 by done. unfold convert in E1.
    rewrite bool_decide_eq_true_2 in E1 by done.
    destruct (Py.int (unescape h raw)) as [n|]; [by exists n|done].
Qed.

(** Parsing raises only in the converter of [ozbib_id]. *)
Lemma parse_record_Raise id_ rec e :
  parse_record h id_ rec = Raise e →
  ∃ raw, rec_get rec "ozbib_id" = Some raw
         ∧ Py.int (unescape h raw) = Raise e.
Proof.
  unfold parse_record.
  destruct (map_fields h rec (field_items h) (kw_init id_ rec))
    as [kw0|e0] eqn:E0; cbn [mbind result_bind].
  - destruct (year_step_spec (numberofpages_step rec kw0)) as (oy & _ & ->).
    cbn [mbind result_bind].
    destruct (pages_step_total
                (publisher_step
                   match oy with
                   | Some n => <["year_int":=VInt n]> (numberofpages_step rec kw0)
                   | None => numberofpages_step rec kw0
                   end)) as [kw' ->]. done.
  - intros [= <-].
    apply map_fields_Raise in E0 as (s & t & raw & _ & _ & Hs & Hraw & Hint).
    apply list_elem_of_singleton in Hs as ->. by exists raw.
Qed.

End ParseTotal.

(** Parsing a record raises exactly when the record has an [ozbib_id] whose
    unescaped text is no integer, and then with the [ValueError] of
    [int]: malformed years, pages and page counts never raise. The helpers
    that are not part of these sources are taken to return. *)
Theorem parse_raises_only_on_ozbib_id (h : helpers) (id_ : Z) (rec : Record_)
    (e : exn) :
  field_items h ≡ₚ FIELD_MAP →
  parse_record h id_ rec = Raise e ↔
  ∃ raw, rec_get rec "ozbib_id" = Some raw ∧ Py.int (unescape h raw) = Raise e.
Proof.
  intros Hperm.
  pose proof (parse_record_Raise h id_ rec) as Hraise.
  split; [apply Hraise|]. intros (raw & Hraw & Hint).
  destruct (parse_record h id_ rec) as [kw|e'] eqn:Hparse.
  - apply parse_record_inv in Hparse as (kw0 & _ & H0 & _).
    destruct (map_fields_Ok_converted h rec _ _ _ "ozbib_id" "ozbib_id" raw H0)
      as [n Hn]; try done; [|by left|congruence].
    apply (field_items_elem h Hperm). apply (bool_decide_unpack _).
    by vm_compute.
  - destruct (Hraise e' eq_refl) as (raw' & Hraw' & Hint'). congruence.
Qed.

Lemma parse_raises_only_on_ozbib_id_witness :
  parse_record Sample.helpers 7 (Sample.record [("ozbib_id", "12a")])
  = Raise (ValueError "12a").
Proof.
  apply (parse_raises_only_on_ozbib_id Sample.helpers 7
           (Sample.record [("ozbib_id", "12a")]) (ValueError "12a")).
  - apply Permutation_refl.
  - exists "12a". split; by_vm.
Defined.

(* ===================================================================== *)
(** * The derived numbers of a record *)
(* ===================================================================== *)

Section Derived.
Context (h : helpers) (Hperm : field_items h ≡ₚ FIELD_MAP).

(** A key that is no target of [FIELD_MAP] is as [kw] was initialised. *)
Lemma map_fields_not_target id_ rec kw0 k :
  k ≠ "jsondata" → bool_decide (k ∈ FIELD_MAP.*2) = false →
  map_fields h rec (field_items h) (kw_init id_ rec) = Ok kw0 →
  kw0 !! k = kw_init id_ rec !! k.
Proof.
  intros Hk Hno%bool_decide_eq_false. apply map_fields_other; [done|].
  intros s Hs%(field_items_elem h Hperm). destruct Hno.
  by apply (list_elem_of_fmap_2 snd) in Hs.
Qed.

(** The page count before the page text is looked at. *)
Lemma pages_int_before id_ rec kw0 kw2 :
  map_fields h rec (field_items h) (kw_init id_ rec) = Ok kw0 →
  year_step (numberofpages_step rec kw0) = Ok kw2 →
  publisher_step kw2 !! "pages_int" =
    match rec_get rec "numberofpages" with
    | Some raw => match Py.int (Py.strip raw) with
                  | Ok n => Some (VInt n)
                  | Raise _ => None
                  end
    | None => None
    end.
Proof.
  intros H0 Hy. rewrite publisher_step_other by done.
  rewrite (year_step_other _ _ _ Hy) by done.
  pose proof (map_fields_not_target id_ rec kw0 "pages_int"
                ltac:(done) ltac:(by vm_compute) H0) as Hnone.
  unfold numberofpages_step. destruct (rec_get rec "numberofpages"); [|done].
  destruct (Py.int _); [|done]. by rewrite lookup_insert_eq.
Qed.

(** A column with a single source and no converter holds the unescaped
    text of the source, or nothing when the record lacks the source. *)
Lemma parse_record_single_opt id_ rec kw s t :
  only_source s t → t ≠ EmptyString → s ∉ CONVERTER_keys →
  bool_decide (t ∈ ["pk"; "bibtex_type"; "id"; "jsondata"; "pages_int";
                    "year_int"; "startpage_int"; "endpage_int"; "address";
                    "publisher"]) = false →
  parse_record h id_ rec = Ok kw →
  kw !! t = VStr <$> (unescape h <$> rec_get rec s).
Proof.
  intros Hone Ht Hconv Hnot%bool_decide_eq_false
    (kw0 & kw2 & H0 & Hy & Hp)%parse_record_inv.
  rewrite !not_elem_of_cons in Hnot.
  destruct Hnot as (? & ? & ? & ? & ? & ? & ? & ? & ? & ? & _).
  rewrite (pages_step_other h _ _ _ Hp) by done.
  rewrite publisher_step_other by done.
  rewrite (year_step_other _ _ _ Hy) by done.
  rewrite numberofpages_step_other by done.
  rewrite (field_single h Hperm id_ rec kw0 s t Hone Ht) by done.
  destruct (rec_get rec s); [done|]. unfold kw_init.
  by rewrite !lookup_insert_ne.
Qed.

Lemma only_source_author : only_source "author" "author".
Proof. split; apply (bool_decide_unpack _); by vm_compute. Qed.

Lemma roman_pages_nonempty pages m : roman_pages pages = Some m → pages ≠ EmptyString.
Proof. by intros Hm ->. Qed.

End Derived.

(** The numeric year of a parsed record is the year extracted from the
    unescaped text of its [year] field; a record without that field, or
    with a text that holds no year, has no numeric year. *)
Theorem year_int_of_record (h : helpers) (id_ : Z) (rec : Record_)
    (kw : gmap string value) :
  field_items h ≡ₚ FIELD_MAP →
  parse_record h id_ rec = Ok kw →
  kw !! "year_int" =
    match rec_get rec "year" with
    | Some raw => match extract_year (unescape h raw) with
                  | Ok (Some n) => Some (VInt n)
                  | _ => None
                  end
    | None => None
    end.
Proof.
  intros Hperm (kw0 & kw2 & H0 & Hy & Hp)%parse_record_inv.
  rewrite (pages_step_other h _ _ _ Hp) by done.
  rewrite publisher_step_other by done.
  destruct (year_step_spec (numberofpages_step rec kw0)) as (oy & Hoy & Hstep).
  rewrite Hstep in Hy. injection Hy as <-.
  assert (numberofpages_step rec kw0 !! "year_int" = None) as Hnone.
  { rewrite numberofpages_step_other by done.
    by rewrite (map_fields_not_target h Hperm id_ rec kw0 "year_int"
                  ltac:(done) ltac:(by vm_compute) H0). }
  unfold kw_get in Hoy. rewrite numberofpages_step_other in Hoy by done.
  rewrite (field_single h Hperm id_ rec kw0 "year" "year" only_source_year)
    in Hoy; [|done|done|by apply (bool_decide_unpack _)|done].
  destruct (rec_get rec "year") as [raw|]; simpl in Hoy.
  - rewrite Hoy. destruct oy; [by rewrite lookup_insert_eq|done].
  - injection Hoy as <-. done.
Qed.

Lemma year_int_of_record_witness :
  Sample.kw_plain !! "year_int" = Some (VInt 1987).
Proof.
  rewrite (year_int_of_record Sample.helpers 7 (Sample.record [])
             Sample.kw_plain); [by_vm|apply Permutation_refl|by_vm].
Defined.

(** When the page text of a parsed record matches one of the two patterns
    for Roman and Arabic page counts, the total is the page count of a
    numeric [numberofpages] field if the record has one, else the value
    of the Roman group plus the decimal value of the Arabic group; the
    start page and the end page are not set. *)
Theorem roman_pages_total (h : helpers) (id_ : Z) (rec : Record_)
    (kw : gmap string value) (pages roman arabic : string) :
  field_items h ≡ₚ FIELD_MAP →
  parse_record h id_ rec = Ok kw →
  kw !! "pages" = Some (VStr pages) →
  roman_pages pages = Some (roman, arabic) →
  let total := roman_to_int h roman + Py.digits_value 0 arabic in
  kw !! "pages_int" =
    Some (VInt match rec_get rec "numberofpages" with
               | Some raw => match Py.int (Py.strip raw) with
                             | Ok n => n
                             | Raise _ => total
                             end
               | None => total
               end)
  ∧ kw !! "startpage_int" = None ∧ kw !! "endpage_int" = None.
Proof.
  intros Hperm (kw0 & kw2 & H0 & Hy & Hp)%parse_record_inv Hpages Hm total.
  pose proof (pages_int_before h Hperm id_ rec kw0 kw2 H0 Hy) as Hbefore.
  assert (∀ k, bool_decide (k ∈ ["startpage_int"; "endpage_int"]) = true →
               publisher_step kw2 !! k = None) as Hnone.
  { intros k Hk%bool_decide_eq_true. rewrite !elem_of_cons in Hk.
    destruct Hk as [->|[->|Hk]]; [| |by apply elem_of_nil in Hk];
      (rewrite publisher_step_other by done;
       rewrite (year_step_other _ _ _ Hy) by done;
       rewrite numberofpages_step_other by done;
       by rewrite (map_fields_not_target h Hperm id_ rec kw0)). }
  rewrite (pages_step_other h _ _ "pages" Hp) in Hpages by done.
  pose proof (roman_pages_nonempty pages _ Hm) as Hne.
  pose proof (page_match_arabic pages roman arabic Hm) as Hint.
  unfold pages_step, kw_get in Hp. rewrite Hpages in Hp. simpl in Hp.
  rewrite (bool_decide_eq_false_2 _ Hne) in Hp. simpl in Hp.
  unfold roman_pages in Hm. rewrite Hm in Hp. rewrite Hbefore in Hp.
  destruct (rec_get rec "numberofpages") as [raw|].
  - destruct (Py.int (Py.strip raw)) as [n|].
    + injection Hp as <-. rewrite Hbefore. by rewrite !Hnone.
    + rewrite Hint in Hp. simpl in Hp. injection Hp as <-.
      rewrite lookup_insert_eq, !lookup_insert_ne by done. by rewrite !Hnone.
  - rewrite Hint in Hp. simpl in Hp. injection Hp as <-.
    rewrite lookup_insert_eq, !lookup_insert_ne by done. by rewrite !Hnone.
Qed.

Lemma roman_pages_total_witness :
  Sample.kw_record8 !! "pages_int" = Some (VInt 46)
  ∧ Sample.kw_record8 !! "startpage_int" = None.
Proof.
  destruct (roman_pages_total Sample.helpers 8 Sample.record8
              Sample.kw_record8 "xii+34" "xii" "34") as (H1 & H2 & _).
  - apply Permutation_refl.
  - by_vm.
  - by_vm.
  - by_vm.
  - split; [|exact H2]. rewrite H1. by_vm.
Defined.

(* ===================================================================== *)
(** * What a merge stores *)
(* ===================================================================== *)

Section Stored.
Context (h : helpers).

(** The update loop never writes the primary key. *)
Lemma update_loop_pk kw ks ref changed changes :
  getattr (foldl (update_attr kw) (ref, changed, changes) ks).1.1 "pk"
  = getattr ref "pk".
Proof.
  revert ref changed changes.
  induction ks as [|k ks IH]; intros ref c ch; [done|]. cbn [foldl].
  destruct (update_attr kw (ref, c, ch) k) as [[ref1 c1] ch1] eqn:E.
  rewrite IH. destruct (decide (k = "pk")) as [->|Hk].
  - rewrite update_attr_cases in E. by injection E as <- _ _.
  - pose proof (update_attr_frame kw ref c ch k "pk" (not_eq_sym Hk)
                  ltac:(done)) as Hf.
    by rewrite E in Hf.
Qed.

Lemma finalize_getattr ref k :
  k ≠ "doctypes_str" → k ≠ "providers_str" →
  getattr (finalize ref) k = getattr ref k.
Proof.
  intros H1 H2. unfold finalize. by rewrite !getattr_setattr_ne.
Qed.

Lemma reconcile_getattr maps kw ref changed ref' changed' k :
  reconcile h maps kw ref changed = Ok (ref', changed') →
  getattr ref' k = getattr ref k.
Proof.
  intros [Hattrs _]%reconcile_extends. unfold getattr. by rewrite Hattrs.
Qed.

End Stored.

(** A reference created from a record is named by the unescaped author
    text and the unescaped year text of the record, with [na] for a missing
    author and [nd] for a missing year, joined by a blank. *)
Theorem created_reference_name (h : helpers) (maps : lookups) (id_ : Z)
    (rec : Record_) (changes changes' : change_log) (ref' : Ref)
    (changed' : bool) (bag : gmap string string) :
  field_items h ≡ₚ FIELD_MAP →
  merge h maps id_ rec None changes = Ok (ref', changed', changes', bag) →
  getattr ref' "name" =
    VStr (default "na" (unescape h <$> rec_get rec "author")
          +:+ " " +:+ default "nd" (unescape h <$> rec_get rec "year")).
Proof.
  intros Hperm
    (kw & ref1 & changed1 & ref2 & Hkw & Hpath & Hrec & -> & ->)%merge_inv.
  injection Hpath as <- <- <-.
  assert (getattr ref2 "name" = getattr (new_ref kw) "name") as Hname
    by by apply (reconcile_getattr h maps kw _ true ref2 changed').
  assert (getattr ((if changed' then finalize else id)
                     (setattr ref2 "jsondata"
                        (VDict (bracket_lgcode (kw_jsondata kw))))) "name"
          = getattr ref2 "name") as ->.
  { destruct changed'; simpl; rewrite ?finalize_getattr by done;
      by rewrite getattr_setattr_ne. }
  rewrite Hname. unfold new_ref, getattr. simpl. rewrite lookup_insert_eq.
  simpl.
  rewrite (parse_record_single_opt h Hperm id_ rec kw "author" "author"
             only_source_author); [|done|by apply (bool_decide_unpack _)
                                   |by vm_compute|done].
  rewrite (parse_record_single_opt h Hperm id_ rec kw "year" "year"
             only_source_year); [|done|by apply (bool_decide_unpack _)
                                 |by vm_compute|done].
  by destruct (rec_get rec "author"), (rec_get rec "year").
Qed.

Lemma created_reference_name_witness :
  getattr Sample.merged_new.1.1.1 "name" = VStr "Doe, J. [1987]".
Proof.
  rewrite (created_reference_name Sample.helpers Sample.maps 7
             (Sample.record []) ∅ Sample.merged_new.1.2
             Sample.merged_new.1.1.1 Sample.merged_new.1.1.2
             Sample.merged_new.2); [by_vm|apply Permutation_refl|by_vm].
Defined.

(** After a record was merged into a stored reference, the description of
    the reference is its title whenever it has a non-empty title, whether
    the title came with the record or was stored before. *)
Theorem updated_reference_mirrors_title (h : helpers) (maps : lookups)
    (id_ : Z) (rec : Record_) (ref : Ref) (changes changes' : change_log)
    (ref' : Ref) (changed' : bool) (bag : gmap string string) :
  field_items h ≡ₚ FIELD_MAP →
  (∀ kw, kw_keys h kw ≡ₚ (map_to_list kw).*1) →
  merge h maps id_ rec (Some ref) changes = Ok (ref', changed', changes', bag) →
  truthy (getattr ref' "title") = true →
  getattr ref' "description" = getattr ref' "title".
Proof.
  intros Hperm Hkeys Hmerge.
  apply updated_columns in Hmerge
    as (kw & ref1 & changed1 & ref2 & Hkw & Hup & _ & _ & Hcols).
  rewrite !Hcols by (apply (bool_decide_unpack _); by vm_compute).
  unfold update_ref in Hup.
  pose proof (update_loop_mirrors kw (kw_keys h kw) ref false changes) as Hm.
  rewrite Hup in Hm. apply Hm. right. exists "id". split; [|done].
  apply (kw_keys_elem h Hkeys). rewrite (parse_record_id h Hperm _ _ _ Hkw).
  by eexists.
Qed.

Lemma updated_reference_mirrors_title_witness :
  getattr Sample.merged_stored.1.1.1 "description" = VStr "A grammar".
Proof.
  rewrite (updated_reference_mirrors_title Sample.helpers Sample.maps 7
             (Sample.record []) Sample.stored ∅ Sample.merged_stored.1.2
             Sample.merged_stored.1.1.1 Sample.merged_stored.1.1.2
             Sample.merged_stored.2);
    [by_vm|apply Permutation_refl|done|by_vm|by_vm].
Defined.

(** After a record was merged into a stored reference, the side-bag of
    the reference holds the key of the record and the unescaped text of
    every populated source without target, a language code of three
    characters not being bracketed, and every other entry is the one
    stored before: no key is ever dropped. *)
Theorem update_merges_side_bag (h : helpers) (maps : lookups)
    (id_ : Z) (rec : Record_) (ref : Ref) (changes changes' : change_log)
    (ref' : Ref) (changed' : bool) (bag : gmap string string) (k : string) :
  field_items h ≡ₚ FIELD_MAP →
  (∀ kw, kw_keys h kw ≡ₚ (map_to_list kw).*1) →
  merge h maps id_ rec (Some ref) changes = Ok (ref', changed', changes', bag) →
  ref_jsondata ref' !! k =
    if decide (k = "bibtexkey") then Some (rec_id rec)
    else match rec_get rec k with
         | Some raw =>
             if bool_decide ((k, EmptyString) ∈ FIELD_MAP)
             then Some (unescape h raw) else ref_jsondata ref !! k
         | None => ref_jsondata ref !! k
         end.
Proof.
  intros Hperm Hkeys.
  apply (updated_side_bag h Hperm Hkeys maps id_ rec ref changes ref' changed'
           changes' bag k).
Qed.

Lemma update_merges_side_bag_witness :
  ref_jsondata Sample.updated_coded.1.1.1 !! "lgcode" = Some "abc".
Proof.
  rewrite (update_merges_side_bag Sample.helpers Sample.maps 7 Sample.coded
             Sample.stored ∅ Sample.updated_coded.1.2
             Sample.updated_coded.1.1.1 Sample.updated_coded.1.1.2
             Sample.updated_coded.2 "lgcode");
    [by_vm|apply Permutation_refl|done|by_vm].
Defined.

(** A merge brings every column that the parsed record holds, the primary
    key and the side-bag apart, to the parsed value. Merging into a
    stored reference never writes the primary key and leaves every column
    that the parsed record does not hold as it was stored, apart from the
    description and the two summaries. *)
Theorem merge_columns (h : helpers) (maps : lookups) (id_ : Z)
    (rec : Record_) (existing : option Ref) (changes changes' : change_log)
    (ref' : Ref) (changed' : bool) (bag : gmap string string)
    (kw : gmap string value) :
  field_items h ≡ₚ FIELD_MAP →
  (∀ kw, kw_keys h kw ≡ₚ (map_to_list kw).*1) →
  merge h maps id_ rec existing changes = Ok (ref', changed', changes', bag) →
  parse_record h id_ rec = Ok kw →
  (∀ k, is_Some (kw !! k) → k ≠ "pk" → k ≠ "jsondata" →
        getattr ref' k = kw_get kw k)
  ∧ (∀ ref k, existing = Some ref →
        kw !! k = None ∨ k = "pk" →
        k ∉ ["description"; "doctypes_str"; "providers_str"] →
        getattr ref' k = getattr ref k).
Proof.
  intros Hperm Hkeys Hmerge Hkw. split.
  - intros k Hk Hpk Hjs. symmetry.
    by apply (merged_columns h Hperm Hkeys maps id_ rec existing changes
                ref' changed' changes' bag).
  - intros ref k -> Hk Hres. rewrite !not_elem_of_cons in Hres.
    destruct Hres as (Hd & Hds & Hps & _).
    apply updated_columns in Hmerge
      as (kw' & ref1 & changed1 & ref2 & Hkw' & Hup & _ & _ & Hcols).
    rewrite Hkw in Hkw'. injection Hkw' as <-.
    rewrite Hcols.
    2:{ rewrite !not_elem_of_cons.
        by repeat split; try apply not_elem_of_nil. }
    unfold update_ref in Hup.
    destruct Hk as [Hk| ->].
    + pose proof (update_loop_frame kw (kw_keys h kw) ref false changes k)
        as Hf.
      rewrite Hup in Hf. apply Hf; [|done].
      rewrite (kw_keys_elem h Hkeys), Hk. by intros [? ?].
    + pose proof (update_loop_pk kw (kw_keys h kw) ref false changes) as Hf.
      by rewrite Hup in Hf.
Qed.

Lemma merge_columns_witness :
  getattr Sample.merged_stored.1.1.1 "year_int" = VInt 1987
  ∧ getattr Sample.merged_stored.1.1.1 "url" = VNone.
Proof.
  destruct (merge_columns Sample.helpers Sample.maps 7 (Sample.record [])
              (Some Sample.stored) ∅ Sample.merged_stored.1.2
              Sample.merged_stored.1.1.1 Sample.merged_stored.1.1.2
              Sample.merged_stored.2 Sample.kw_plain) as [H1 H2].
  - apply Permutation_refl.
  - done.
  - by_vm.
  - by_vm.
  - split.
    + rewrite (H1 "year_int"); [by_vm|by eexists|done|done].
    + rewrite (H2 Sample.stored "url" eq_refl); [by_vm|by left|].
      apply (bool_decide_unpack _). by vm_compute.
Defined.

(** Whenever a merge reports a change, and so for every reference it
    creates, the two summary columns list the ids of the doctypes and of
    the providers the reference ends with, in their order and joined by a
    comma and a blank; when a merge into a stored reference reports no
    change, both summaries stay as they were stored. *)
Theorem summaries_follow_collections (h : helpers) (maps : lookups)
    (id_ : Z) (rec : Record_) (existing : option Ref)
    (changes changes' : change_log) (ref' : Ref) (changed' : bool)
    (bag : gmap string string) :
  field_items h ≡ₚ FIELD_MAP →
  (∀ kw, kw_keys h kw ≡ₚ (map_to_list kw).*1) →
  merge h maps id_ rec existing changes = Ok (ref', changed', changes', bag) →
  (existing = None → changed' = true)
  ∧ (changed' = true →
       getattr ref' "doctypes_str"
       = VStr (Py.join ", " (ent_id <$> doctypes ref'))
       ∧ getattr ref' "providers_str"
         = VStr (Py.join ", " (ent_id <$> providers ref')))
  ∧ (∀ ref, existing = Some ref → changed' = false →
       getattr ref' "doctypes_str" = getattr ref "doctypes_str"
       ∧ getattr ref' "providers_str" = getattr ref "providers_str").
Proof.
  intros Hperm Hkeys Hmerge. split; [|split].
  - intros ->.
    by apply created_columns in Hmerge as (kw & _ & -> & _).
  - intros ->.
    apply merge_inv in Hmerge as (kw & ref1 & c1 & ref2 & _ & _ & _ & _ & ->).
    unfold finalize. split.
    + by rewrite getattr_setattr_ne, getattr_setattr_eq.
    + by rewrite getattr_setattr_eq.
  - intros ref -> ->.
    apply merge_inv in Hmerge
      as (kw & ref1 & c1 & ref2 & Hkw & Hup & Hrec & _ & ->). simpl.
    rewrite !(reconcile_getattr h maps kw ref1 c1 ref2 false _ Hrec).
    unfold update_ref in Hup.
    split.
    + pose proof (update_loop_frame kw (kw_keys h kw) ref false changes
                    "doctypes_str") as Hf.
      rewrite Hup in Hf. apply Hf; [|done].
      by apply (parse_record_no_key h Hperm id_ rec).
    + pose proof (update_loop_frame kw (kw_keys h kw) ref false changes
                    "providers_str") as Hf.
      rewrite Hup in Hf. apply Hf; [|done].
      by apply (parse_record_no_key h Hperm id_ rec).
Qed.

Lemma summaries_follow_collections_witness :
  getattr Sample.merged_new.1.1.1 "providers_str" = VStr "b, c".
Proof.
  destruct (summaries_follow_collections Sample.helpers Sample.maps 7
              (Sample.record []) None ∅ Sample.merged_new.1.2
              Sample.merged_new.1.1.1 Sample.merged_new.1.1.2
              Sample.merged_new.2) as (H1 & H2 & _).
  - apply Permutation_refl.
  - done.
  - by_vm.
  - destruct (H2 (H1 eq_refl)) as [_ ->]. by_vm.
Defined.

(* ===================================================================== *)
(** * The classification of a languoid *)
(* ===================================================================== *)

Section Classification.

Lemma valueset_fold_spec (vss : list Models.ValueSet) t vs :
  foldl (λ (d : gmap string Models.ValueSet) v,
           <[Models.parameter_id v := v]> d) ∅ vss !! t = Some vs ↔
  ∃ pre post, vss = pre ++ vs :: post ∧ Models.parameter_id vs = t
              ∧ Forall (λ v, Models.parameter_id v ≠ t) post.
Proof.
  revert vs. induction vss as [|x vss IH] using rev_ind; intros vs.
  - simpl. rewrite lookup_empty. split; [done|].
    intros (pre & post & Heq & _). by destruct pre.
  - rewrite foldl_app. simpl.
    destruct (decide (Models.parameter_id x = t)) as [Hx|Hx].
    + rewrite Hx, lookup_insert_eq. split.
      * intros [= <-]. exists vss, []. by repeat split.
      * intros (pre & post & Heq & Hid & Hall).
        destruct post as [|p post _] using rev_ind.
        -- apply (app_inj_tail vss pre x vs) in Heq as [_ ->]. done.
        -- exfalso. rewrite app_comm_cons, app_assoc in Heq.
           apply app_inj_tail in Heq as [_ ->].
           rewrite Forall_app, Forall_singleton in Hall. by destruct Hall.
    + rewrite lookup_insert_ne by done. rewrite IH. split.
      * intros (pre & post & -> & Hid & Hall).
        exists pre, (post ++ [x]). rewrite <- app_assoc. split; [done|].
        split; [done|]. rewrite Forall_app, Forall_singleton. done.
      * intros (pre & post & Heq & Hid & Hall).
        destruct post as [|p post _] using rev_ind.
        -- apply (app_inj_tail vss pre x vs) in Heq as [_ ->]. done.
        -- rewrite app_comm_cons, app_assoc in Heq.
           apply app_inj_tail in Heq as [-> ->].
           rewrite Forall_app in Hall. destruct Hall as [Hall _].
           by exists pre, post.
Qed.

End Classification.

(** The dictionary of the value sets of a languoid holds, under a
    parameter id, the last value set of the languoid with that id: of
    several value sets of one parameter it keeps the last, and so does
    the classification that is looked up in it. *)
Theorem valueset_dict_last_wins (l : Models.Languoid) (t : string)
    (vs : Models.ValueSet) :
  Models.valueset_dict l !! t = Some vs ↔
  ∃ pre post, Models.valuesets l = pre ++ vs :: post
              ∧ Models.parameter_id vs = t
              ∧ Forall (λ v, Models.parameter_id v ≠ t) post.
Proof. apply valueset_fold_spec. Qed.

(* ===================================================================== *)
(** * The references of a classification, by year *)
(* ===================================================================== *)

Section Sorted.
Context {A : Type} (key : A → Z).

Lemma insert_by_Permutation x l : Py.insert_by key x l ≡ₚ x :: l.
Proof.
  induction l as [|y l IH]; simpl; [done|].
  destruct (key x <=? key y); [done|]. rewrite IH. apply Permutation_swap.
Qed.

Lemma sorted_Permutation l : Py.sorted key l ≡ₚ l.
Proof.
  induction l as [|x l IH]; simpl; [done|].
  fold (Py.sorted key l). by rewrite insert_by_Permutation, IH.
Qed.

Lemma insert_by_sorted x l :
  StronglySorted (λ a b, key a ≤ key b) l →
  StronglySorted (λ a b, key a ≤ key b) (Py.insert_by key x l).
Proof.
  induction 1 as [|y l Hs IH Hall]; simpl.
  - repeat constructor.
  - destruct (key x <=? key y) eqn:Hxy.
    + apply Z.leb_le in Hxy. constructor; [by constructor|].
      constructor; [done|]. eapply Forall_impl; [exact Hall|].
      simpl. intros. lia.
    + apply Z.leb_gt in Hxy. constructor; [done|].
      rewrite insert_by_Permutation. constructor; [lia|done].
Qed.

Lemma sorted_StronglySorted l :
  StronglySorted (λ a b, key a ≤ key b) (Py.sorted key l).
Proof.
  induction l as [|x l IH]; simpl; [constructor|].
  by apply insert_by_sorted.
Qed.

(** The elements of one key keep their order. *)
Lemma insert_by_stable k x l :
  filter (λ a, key a = k) (Py.insert_by key x l)
  = filter (λ a, key a = k) (x :: l).
Proof.
  induction l as [|y l IH]; simpl; [done|].
  destruct (key x <=? key y) eqn:Hxy; [done|]. apply Z.leb_gt in Hxy.
  destruct (decide (key y = k)) as [Hy|Hy].
  - rewrite (filter_cons_True _ y) by done. rewrite IH.
    rewrite (filter_cons_False _ x) by lia.
    rewrite (filter_cons_False _ x) by lia.
    by rewrite (filter_cons_True _ y).
  - rewrite (filter_cons_False _ y) by done. rewrite IH.
    destruct (decide (key x = k)) as [Hx|Hx].
    + rewrite !(filter_cons_True _ x) by done.
      by rewrite (filter_cons_False _ y).
    + rewrite !(filter_cons_False _ x) by done.
      by rewrite (filter_cons_False _ y).
Qed.

Lemma sorted_stable k l :
  filter (λ a, key a = k) (Py.sorted key l) = filter (λ a, key a = k) l.
Proof.
  induction l as [|x l IH]; simpl; [done|]. fold (Py.sorted key l).
  rewrite insert_by_stable.
  destruct (decide (key x = k)).
  - rewrite !(filter_cons_True _ x) by done. by rewrite IH.
  - rewrite !(filter_cons_False _ x) by done. by rewrite IH.
Qed.

End Sorted.

Lemma StronglySorted_weaken {A} (R1 R2 : A → A → Prop) l :
  (∀ a b, R1 a b → R2 a b) → StronglySorted R1 l → StronglySorted R2 l.
Proof.
  intros HR. induction 1 as [|x l Hs IH Hall]; constructor; [done|].
  eapply Forall_impl; [exact Hall|]. apply HR.
Qed.

(** On a father chain of [n] links, the references of the classification
    are returned: the references of the family classification of the
    languoid and the inherited references of the sub-classification,
    rearranged by descending year of their sources, a source without year
    counting as of the year 0, and references of one year in the order
    they had. *)
Theorem crefs_sorted_by_year (year_int : Z → option Z)
    (t : gmap Z Models.Languoid) (l : Models.Languoid) (n : nat) :
  Models.chain t l n →
  ∃ inherited rs,
    Models.screfs (S n) t l = Some inherited
    ∧ Models.crefs (S n) year_int t l = Some rs
    ∧ rs ≡ₚ Models._crefs l "fc" ++ inherited
    ∧ StronglySorted
        (λ a b, default 0 (year_int b) ≤ default 0 (year_int a)) rs
    ∧ ∀ y, filter (λ r, default 0 (year_int r) = y) rs
           = filter (λ r, default 0 (year_int r) = y)
               (Models._crefs l "fc" ++ inherited).
Proof.
  intros [inherited Hs]%screfs_terminates.
  exists inherited, (Py.sorted (λ r, - default 0 (year_int r))
                       (Models._crefs l "fc" ++ inherited)).
  split; [done|]. split; [unfold Models.crefs; by rewrite Hs|].
  split; [apply sorted_Permutation|]. split.
  - eapply StronglySorted_weaken;
      [|apply (sorted_StronglySorted (λ r, - default 0 (year_int r)))].
    simpl. intros. lia.
  - intros y.
    pose proof (sorted_stable (λ r, - default 0 (year_int r)) (- y)
                  (Models._crefs l "fc" ++ inherited)) as Hst.
    etrans; [apply (list_filter_iff _ (λ r, - default 0 (year_int r) = - y));
             intros; lia|].
    rewrite Hst. apply list_filter_iff. intros. lia.
Qed.

Lemma crefs_sorted_by_year_witness :
  ∃ rs, Models.crefs 2 Sample.dated Sample.tree Sample.child = Some rs
        ∧ rs ≡ₚ [5; 1]
        ∧ StronglySorted
            (λ a b, default 0 (Sample.dated b) ≤ default 0 (Sample.dated a))
            rs.
Proof.
  destruct (crefs_sorted_by_year Sample.dated Sample.tree Sample.child 1)
    as (inherited & rs & Hs & Hc & Hp & Hsorted & _).
  - apply (Models.chain_step _ _ Sample.family); [done|].
    by apply Models.chain_root.
  - exists rs. split; [done|]. split; [|done].
    vm_compute in Hs. injection Hs as <-. exact Hp.
Defined.

(* ===================================================================== *)
(** * What a created reference exports *)
(* ===================================================================== *)

Section Bibtex.
Context (h : helpers).

Lemma bibtex_fold ref ks res k :
  foldl (λ (res : gmap string string) attr,
           let v := getattr ref attr in
           if truthy v then <[attr := str_of_value v]> res else res)
    res ks !! k
  = if bool_decide (k ∈ ks)
    then if truthy (getattr ref k) then Some (str_of_value (getattr ref k))
         else res !! k
    else res !! k.
Proof.
  revert res. induction ks as [|a ks IH]; intros res; [done|].
  cbn [foldl]. rewrite IH. cbv zeta.
  destruct (decide (k = a)) as [->|Hk].
  - rewrite (bool_decide_eq_true_2 (a ∈ a :: ks)) by by left.
    destruct (truthy (getattr ref a)) eqn:Ht.
    + rewrite lookup_insert_eq. by case_bool_decide.
    + by case_bool_decide.
  - assert (bool_decide (k ∈ a :: ks) = bool_decide (k ∈ ks)) as ->.
    { apply bool_decide_ext. rewrite elem_of_cons. naive_solver. }
    destruct (truthy (getattr ref a)); [|done].
    by rewrite lookup_insert_ne.
Qed.

(** The export holds the listed attributes that are set, as text. *)
Lemma bibtex_lookup ref k :
  Models.__bibtex__ ref !! k
  = if bool_decide (k ∈ Models.bibtex_attrs)
    then if truthy (getattr ref k) then Some (str_of_value (getattr ref k))
         else None
    else None.
Proof. unfold Models.__bibtex__. by rewrite bibtex_fold, lookup_empty. Qed.

(** A column with a single source holds the converted unescaped text. *)
Lemma map_fields_single_conv rec items kw0 kw s t :
  NoDup items.*1 →
  (s, t) ∈ items → t ≠ EmptyString → t ≠ "jsondata" →
  (∀ s', (s', t) ∈ items → s' = s) →
  map_fields h rec items kw0 = Ok kw →
  kw !! t = match rec_get rec s with
            | Some raw => match convert s (unescape h raw) with
                          | Ok v => Some v
                          | Raise _ => None
                          end
            | None => kw0 !! t
            end.
Proof.
  intros Hnd Hin Ht Htj Hone. revert kw0 Hnd Hin Hone.
  induction items as [|[s1 t1] items IH]; intros kw0 Hnd Hin Hone.
  - by apply elem_of_nil in Hin.
  - cbn [map_fields].
    destruct (map_field h rec kw0 (s1, t1)) as [kw1|] eqn:E1; [|done].
    cbn [mbind result_bind]. intros Hrest. rewrite fmap_cons in Hnd.
    apply NoDup_cons in Hnd as [Hs1 Hnd].
    apply elem_of_cons in Hin as [[= <- <-]|Hin].
    + assert (∀ s', (s', t) ∈ items → t = EmptyString) as Hno.
      { intros s' Hs'. assert (s' = s) as -> by (apply Hone; by right).
        destruct Hs1. by apply (list_elem_of_fmap_2 fst) in Hs'. }
      rewrite (map_fields_other h rec items kw1 kw t Htj Hno Hrest).
      apply map_field_inv in E1
        as [[-> ->]|[(raw & _ & ? & _)|(raw & v & -> & _ & Hv & ->)]];
        [done|done|].
      rewrite Hv. by rewrite lookup_insert_eq.
    + assert (t1 ≠ t) as Ht1.
      { intros ->. assert (s1 = s) as -> by (apply Hone; by left).
        apply Hs1. by apply (list_elem_of_fmap_2 fst) in Hin. }
      rewrite (IH kw1 Hnd Hin) by
        (try done; intros s' Hs'; apply Hone; by right).
      destruct (rec_get rec s); [done|].
      apply map_field_inv in E1
        as [[_ ->]|[(raw & _ & -> & ->)|(raw & v & _ & ? & _ & ->)]];
        [done| |]; by rewrite lookup_insert_ne.
Qed.

Lemma only_source_ozbib_id : only_source "ozbib_id" "ozbib_id".
Proof. split; apply (bool_decide_unpack _); by vm_compute. Qed.

Lemma parse_record_ozbib_id id_ rec kw :
  field_items h ≡ₚ FIELD_MAP →
  parse_record h id_ rec = Ok kw →
  kw !! "ozbib_id" = match rec_get rec "ozbib_id" with
                     | Some raw => match Py.int (unescape h raw) with
                                   | Ok n => Some (VInt n)
                                   | Raise _ => None
                                   end
                     | None => None
                     end.
Proof.
  intros Hperm (kw0 & kw2 & H0 & Hy & Hp)%parse_record_inv.
  rewrite (pages_step_other h _ _ _ Hp) by done.
  rewrite publisher_step_other by done.
  rewrite (year_step_other _ _ _ Hy) by done.
  rewrite numberofpages_step_other by done.
  destruct only_source_ozbib_id as [Hin Hall].
  rewrite (map_fields_single_conv rec (field_items h) (kw_init id_ rec) kw0
             "ozbib_id" "ozbib_id"); try done.
  - destruct (rec_get rec "ozbib_id"); [|done]. unfold convert.
    rewrite bool_decide_eq_true_2 by (apply (bool_decide_unpack _); by vm_compute).
    by destruct (Py.int _).
  - by apply field_items_NoDup.
  - by apply field_items_elem.
  - intros s' Hs'%(field_items_elem h Hperm). rewrite Forall_forall in Hall.
    by apply (Hall (s', "ozbib_id")).
Qed.

End Bibtex.

(** What the export of a reference created from a record holds: the
    identifier of OZBIB as the decimal text of the integer read from the
    record, unless that integer is 0; the language of the text, the
    subject and the subject headings as the unescaped text of the record,
    unless it is empty; and nothing else, so neither keywords nor a
    language code, which no field of a record reaches. *)
Theorem created_reference_bibtex (h : helpers) (maps : lookups) (id_ : Z)
    (rec : Record_) (changes changes' : change_log) (ref' : Ref)
    (changed' : bool) (bag : gmap string string) :
  field_items h ≡ₚ FIELD_MAP →
  merge h maps id_ rec None changes = Ok (ref', changed', changes', bag) →
  Models.__bibtex__ ref' !! "ozbib_id" =
    match rec_get rec "ozbib_id" with
    | Some raw => match Py.int (unescape h raw) with
                  | Ok n => if n =? 0 then None else Some (Py.str_of_Z n)
                  | Raise _ => None
                  end
    | None => None
    end
  ∧ (∀ k, k ∈ ["inlg"; "subject"; "subject_headings"] →
       Models.__bibtex__ ref' !! k =
         match rec_get rec k with
         | Some raw => if bool_decide (unescape h raw = EmptyString)
                       then None else Some (unescape h raw)
         | None => None
         end)
  ∧ (∀ k, k ∉ ["inlg"; "subject"; "subject_headings"; "ozbib_id"] →
       Models.__bibtex__ ref' !! k = None).
Proof.
  intros Hperm Hmerge.
  apply created_columns in Hmerge as (kw & Hkw & _ & _ & Hcols).
  assert (∀ k, bool_decide (k ∈ Models.bibtex_attrs) = true →
               getattr ref' k = kw_get kw k) as Hget.
  { intros k Hk%bool_decide_eq_true. apply Hcols. intros Hin.
    assert (Forall (λ x, x ∉ Models.bibtex_attrs)
              ["jsondata"; "name"; "doctypes_str"; "providers_str"]) as Hall
      by (apply (bool_decide_unpack _); by vm_compute).
    rewrite Forall_forall in Hall. by apply (Hall k). }
  split; [|split].
  - rewrite bibtex_lookup, Hget by done. simpl. unfold kw_get.
    rewrite (parse_record_ozbib_id h id_ rec kw Hperm Hkw).
    destruct (rec_get rec "ozbib_id"); [|done].
    destruct (Py.int _) as [n|]; [|done]. simpl. by destruct (n =? 0).
  - intros k Hk. rewrite bibtex_lookup.
    assert (bool_decide (k ∈ Models.bibtex_attrs) = true
            ∧ only_source k k ∧ k ≠ EmptyString ∧ (k ∉ CONVERTER_keys)
            ∧ (bool_decide (k ∈ ["pk"; "bibtex_type"; "id"; "jsondata";
                                 "pages_int"; "year_int"; "startpage_int";
                                 "endpage_int"; "address"; "publisher"])
               = false)) as (Hb & Hone & Hne & Hconv & Hnot).
    { rewrite !elem_of_cons in Hk.
      destruct Hk as [->|[->|[->|Hk]]]; [| | |by apply elem_of_nil in Hk];
        (split; [done|]; split;
         [split; apply (bool_decide_unpack _); by vm_compute|];
         split; [done|]; split; [|done];
         apply (bool_decide_unpack _); by vm_compute). }
    rewrite Hb, Hget by done. unfold kw_get.
    rewrite (parse_record_single_opt h Hperm id_ rec kw k k Hone Hne Hconv
               Hnot Hkw).
    destruct (rec_get rec k) as [raw|]; [|done]. simpl.
    by destruct (bool_decide (unescape h raw = EmptyString)).
  - intros k Hk. rewrite bibtex_lookup. case_bool_decide as Hin; [|done].
    rewrite Hget by by apply bool_decide_eq_true.
    assert (k = "inlg_code" ∨ k = "keywords") as Hcase.
    { unfold Models.bibtex_attrs in Hin. rewrite !elem_of_cons in Hin.
      rewrite !not_elem_of_cons in Hk. naive_solver. }
    unfold kw_get.
    rewrite (parse_record_keys h Hperm id_ rec kw k Hkw); [done|].
    destruct Hcase as [->| ->]; apply (bool_decide_unpack _); by vm_compute.
Qed.

Lemma created_reference_bibtex_witness :
  Models.__bibtex__ Sample.merged_ozbib.1.1.1 !! "ozbib_id" = Some "12"
  ∧ Models.__bibtex__ Sample.merged_ozbib.1.1.1 !! "inlg" = Some "German"
  ∧ Models.__bibtex__ Sample.merged_ozbib.1.1.1 !! "keywords" = None.
Proof.
  destruct (created_reference_bibtex Sample.helpers Sample.maps 7
              Sample.ozbib ∅ Sample.merged_ozbib.1.2
              Sample.merged_ozbib.1.1.1 Sample.merged_ozbib.1.1.2
              Sample.merged_ozbib.2) as (H1 & H2 & H3).
  - apply Permutation_refl.
  - by_vm.
  - split; [rewrite H1; by_vm|]. split.
    + rewrite (H2 "inlg"); [by_vm|]. apply (bool_decide_unpack _).
      by vm_compute.
    + apply (H3 "keywords"). apply (bool_decide_unpack _). by vm_compute.
Defined.


(* ===================================================================== *)
(** * The names of doctypes *)
(* ===================================================================== *)

Section Doctypes.

Lemma span_all_chars p s a b : Re.span p s = (a, b) → all_chars p a = true.
Proof.
  revert a b. induction s as [|c s IH]; intros a b; simpl.
  - by intros [= <- <-].
  - destruct (p c) eqn:Hc.
    + destruct (Re.span p s) as [a' b'] eqn:E. intros [= <- <-]. simpl.
      rewrite Hc. by apply (IH a' b').
    + by intros [= <- <-].
Qed.

(** A run of [p] is taken whole when what follows does not go on with [p]. *)
Lemma span_app_stop p a b :
  all_chars p a = true →
  match b with String c _ => p c = false | EmptyString => True end →
  Re.span p (a +:+ b) = (a, b).
Proof.
  intros Ha Hb. induction a as [|c a IH].
  - rewrite app_empty_l. destruct b as [|c b]; [done|]. simpl. by rewrite Hb.
  - simpl in Ha. apply andb_true_iff in Ha as [Hc Ha].
    rewrite app_cons. simpl. rewrite Hc. by rewrite (IH Ha).
Qed.

Lemma DOCTYPE_PATTERN_match_name s name rest :
  Re.DOCTYPE_PATTERN_match s = Some (name, rest) → doctype_name name.
Proof.
  unfold Re.DOCTYPE_PATTERN_match.
  destruct (Re.span Re.name_char s) as [a r1] eqn:E.
  apply span_all_chars in E. destruct a as [|c a]; [done|].
  intros H. assert (name = String c a) as ->; [|by split].
  revert H. repeat case_match; naive_solver.
Qed.

Lemma finditer_go_name skip s name :
  name ∈ Re.finditer_go skip s → doctype_name name.
Proof.
  revert skip. induction s as [|c t IH]; intros skip.
  - destruct skip; simpl; [|by intros ?%elem_of_nil].
    by intros ?%elem_of_nil.
  - destruct skip as [|k]; [|apply IH].
    cbn [Re.finditer_go].
    destruct (Re.DOCTYPE_PATTERN_match (String c t)) as [[n rest]|] eqn:E;
      [|apply IH].
    intros [->|Hin]%elem_of_cons; [|by eapply IH].
    by eapply DOCTYPE_PATTERN_match_name.
Qed.

(** Characters still to be passed over are passed over. *)
Lemma finditer_go_skip a b :
  Re.finditer_go (String.length a) (a +:+ b) = Re.finditer_go O b.
Proof. induction a as [|c a IH]; [done|]. rewrite app_cons. apply IH. Qed.

Lemma length_app_s (a b : string) :
  String.length (a +:+ b) = (String.length a + String.length b)%nat.
Proof.
  induction a as [|c a IH]; [done|]. rewrite app_cons. simpl. by rewrite IH.
Qed.

Lemma app_empty_r (s : string) : s +:+ EmptyString = s.
Proof. induction s as [|c s IH]; [done|]. rewrite app_cons. by f_equal. Qed.

Lemma name_char_not_semicolon : Re.name_char ";" = false.
Proof. done. Qed.

(** A name at the end of the text is matched up to the end. *)
Lemma DOCTYPE_PATTERN_match_last name :
  doctype_name name →
  Re.DOCTYPE_PATTERN_match name = Some (name, EmptyString).
Proof.
  intros [Hne Hall]. unfold Re.DOCTYPE_PATTERN_match.
  pose proof (span_app_stop Re.name_char name EmptyString Hall I) as Hs.
  rewrite app_empty_r in Hs. rewrite Hs. by destruct name.
Qed.

(** A name before a semicolon is matched up to and with the semicolon. *)
Lemma DOCTYPE_PATTERN_match_next name r :
  doctype_name name →
  Re.DOCTYPE_PATTERN_match (name +:+ String ";" r) = Some (name, r).
Proof.
  intros [Hne Hall]. unfold Re.DOCTYPE_PATTERN_match.
  rewrite (span_app_stop Re.name_char name (String ";" r) Hall
             name_char_not_semicolon).
  by destruct name.
Qed.

End Doctypes.

(** Every doctype name that is looked up for a text is a run of one
    character or more out of the small letters and the underscore:
    whatever else the text holds is passed over, never looked up. *)
Theorem doctype_names_are_lowercase (s name : string) :
  name ∈ Re.DOCTYPE_PATTERN s → doctype_name name.
Proof. apply finditer_go_name. Qed.

Lemma doctype_names_are_lowercase_witness : doctype_name "rammar".
Proof.
  apply (doctype_names_are_lowercase "Grammar (of a dialect); 2").
  apply (bool_decide_unpack _). by vm_compute.
Defined.

(** Names joined by semicolons are found again, each once and in their
    order. *)
Theorem doctype_names_round_trip (names : list string) :
  Forall doctype_name names →
  Re.DOCTYPE_PATTERN (Py.join ";" names) = names.
Proof.
  unfold Re.DOCTYPE_PATTERN.
  induction 1 as [|name names Hname Hall IH]; [done|].
  destruct names as [|name' names].
  - simpl. pose proof (DOCTYPE_PATTERN_match_last name Hname) as Hm.
    destruct Hname as [Hne _]. destruct name as [|c n]; [done|].
    cbn [Re.finditer_go]. rewrite Hm. f_equal. simpl.
    rewrite Nat.sub_0_r.
    rewrite <- (app_empty_r n) at 2. by rewrite finditer_go_skip.
  - change (Py.join ";" (name :: name' :: names))
      with (name +:+ ";" +:+ Py.join ";" (name' :: names)).
    remember (Py.join ";" (name' :: names)) as J eqn:HJ.
    pose proof (DOCTYPE_PATTERN_match_next name J Hname) as Hm.
    destruct Hname as [Hne _]. destruct name as [|c n]; [done|].
    change (";" +:+ J) with (String ";" J).
    rewrite app_cons in Hm |- *.
    cbn [Re.finditer_go]. rewrite Hm. f_equal.
    replace (String.length (String c (n +:+ String ";" J))
             - String.length J - 1)%nat
      with (String.length (n +:+ ";")).
    2:{ simpl. rewrite !length_app_s. simpl. lia. }
    replace (n +:+ String ";" J) with ((n +:+ ";") +:+ J)
      by by rewrite app_assoc_s.
    rewrite finditer_go_skip. apply IH.
Qed.

Lemma doctype_names_round_trip_witness :
  Re.DOCTYPE_PATTERN "grammar_sketch;dictionary"
  = ["grammar_sketch"; "dictionary"].
Proof.
  apply (doctype_names_round_trip ["grammar_sketch"; "dictionary"]).
  repeat constructor; done.
Defined.

(* ===================================================================== *)
(** * The errors of a merge and the reach of the change log *)
(* ===================================================================== *)

Section ChangeLog.

Lemma ref_id_setattr_ne ref k v :
  k ≠ "id" → ref_id (setattr ref k v) = ref_id ref.
Proof. intros Hk. unfold ref_id. by rewrite getattr_setattr_ne. Qed.

Lemma ref_id_mirror_title ref : ref_id (mirror_title ref) = ref_id ref.
Proof. unfold ref_id. by rewrite getattr_mirror_title_ne. Qed.

Lemma ref_id_update_jsondata ref d : ref_id (update_jsondata ref d) = ref_id ref.
Proof. unfold ref_id. by rewrite getattr_update_jsondata_ne. Qed.

(** The update loop writes to the change log under the id of the
    reference only, as stored or as the record gives it. *)
Lemma update_loop_log kw ks ref changed changes i :
  i ≠ ref_id ref → i ≠ str_of_value (kw_get kw "id") →
  (foldl (update_attr kw) (ref, changed, changes) ks).2 !! i = changes !! i.
Proof.
  intros Hi Hkw. revert ref changed changes Hi.
  induction ks as [|k ks IH]; intros ref c ch Hi; [done|]. cbn [foldl].
  rewrite update_attr_cases. repeat case_bool_decide.
  - by apply IH.
  - apply IH. by rewrite ref_id_mirror_title.
  - apply IH. by rewrite ref_id_mirror_title, ref_id_update_jsondata.
  - assert (i ≠ ref_id (setattr ref k (kw_get kw k))) as Hi'.
    { destruct (decide (k = "id")) as [->|Hk].
      - unfold ref_id. by rewrite getattr_setattr_eq.
      - by rewrite ref_id_setattr_ne. }
    rewrite IH by by rewrite ref_id_mirror_title.
    unfold record_change. by rewrite lookup_insert_ne.
Qed.

(** The update loop drops no reference from the change log. *)
Lemma update_loop_log_mono kw ks ref changed changes i :
  is_Some (changes !! i) →
  is_Some ((foldl (update_attr kw) (ref, changed, changes) ks).2 !! i).
Proof.
  revert ref changed changes.
  induction ks as [|k ks IH]; intros ref c ch Hi; [done|]. cbn [foldl].
  rewrite update_attr_cases. repeat case_bool_decide; apply IH; try done.
  unfold record_change.
  destruct (decide (i = ref_id (setattr ref k (kw_get kw k)))) as [->|Hne].
  - rewrite lookup_insert_eq. by eexists.
  - by rewrite lookup_insert_ne.
Qed.

End ChangeLog.

(** A merge that raises does so for one of two reasons only: the record
    has an [ozbib_id] that is no integer, and the error is the one of
    [int]; or the record was parsed and names a macro-area, a provider or
    a doctype that the lookup maps do not hold, and the error is the
    [KeyError] of that name. The helpers that are not part of these
    sources are taken to return. *)
Theorem merge_raises_only (h : helpers) (maps : lookups) (id_ : Z)
    (rec : Record_) (existing : option Ref) (changes : change_log)
    (e : exn) :
  merge h maps id_ rec existing changes = Raise e →
  (∃ raw, rec_get rec "ozbib_id" = Some raw
          ∧ Py.int (unescape h raw) = Raise e)
  ∨ (∃ kw n, parse_record h id_ rec = Ok kw ∧ e = KeyError n
       ∧ ((n ∈ tag_names h (jsondata_get kw "macro_area")
           ∧ macroarea_map maps !! n = None)
          ∨ (∃ n', n = slug h n'
                   ∧ n' ∈ tag_names h (jsondata_get kw "src")
                   ∧ provider_map maps !! n = None)
          ∨ (n ∈ Re.DOCTYPE_PATTERN (jsondata_get kw "hhtype")
             ∧ doctype_map maps !! n = None))).
Proof.
  unfold merge.
  destruct (parse_record h id_ rec) as [kw|e0] eqn:Hkw;
    cbn [mbind result_bind].
  2:{ intros [= <-]. left.
      by apply (parse_record_Raise h id_ rec e0). }
  destruct (match existing with
            | Some ref => update_ref h kw ref changes
            | None => (new_ref kw, true, changes)
            end) as [[ref1 c1] ch1].
  unfold reconcile, desired_macroareas, desired_doctypes.
  destruct (map_get_all (macroarea_map maps) _) as [ms|e1] eqn:Ems.
  2:{ apply map_get_all_Raise in Ems as (k & -> & Hin & Hk).
      intros [= <-]. right. exists kw, k.
      split; [done|]. split; [done|]. by left. }
  cbn [mbind result_bind].
  destruct (update_relationship (macroareas ref1) ms) as [m' [a r]].
  destruct (append_providers h _ _ _ _) as [[ps c2]|e1] eqn:Eps.
  2:{ apply append_providers_Raise in Eps as (n & -> & Hin & Hn).
      intros [= <-]. right. exists kw, (slug h n).
      split; [done|]. split; [done|]. right. left. by exists n. }
  cbn [mbind result_bind].
  destruct (map_get_all (doctype_map maps) _) as [ds|e1] eqn:Eds.
  2:{ apply map_get_all_Raise in Eds as (k & -> & Hin & Hk).
      intros [= <-]. right. exists kw, k.
      split; [done|]. split; [done|]. by right; right. }
  cbn [mbind result_bind].
  destruct (update_relationship (doctypes ref1) ds) as [d' [a' r']]. done.
Qed.

Lemma merge_raises_only_witness :
  (∃ raw, rec_get Sample.unprovided "ozbib_id" = Some raw
          ∧ Py.int (unescape Sample.helpers raw) = Raise (KeyError "zzz"))
  ∨ (∃ kw n, parse_record Sample.helpers 7 Sample.unprovided = Ok kw
       ∧ KeyError "zzz" = KeyError n
       ∧ ((n ∈ tag_names Sample.helpers (jsondata_get kw "macro_area")
           ∧ macroarea_map Sample.maps !! n = None)
          ∨ (∃ n', n = slug Sample.helpers n'
                   ∧ n' ∈ tag_names Sample.helpers (jsondata_get kw "src")
                   ∧ provider_map Sample.maps !! n = None)
          ∨ (n ∈ Re.DOCTYPE_PATTERN (jsondata_get kw "hhtype")
             ∧ doctype_map Sample.maps !! n = None))).
Proof.
  apply (merge_raises_only Sample.helpers Sample.maps 7 Sample.unprovided
           None ∅ (KeyError "zzz")).
  by_vm.
Defined.

(** A merge that creates a reference leaves the change log as it was. A
    merge into a stored reference drops no reference from the change log
    and writes to it under the id of that reference only, as stored or as
    the text of the reference id of the record. *)
Theorem change_log_reach (h : helpers) (maps : lookups) (id_ : Z)
    (rec : Record_) (existing : option Ref) (changes changes' : change_log)
    (ref' : Ref) (changed' : bool) (bag : gmap string string) :
  field_items h ≡ₚ FIELD_MAP →
  merge h maps id_ rec existing changes = Ok (ref', changed', changes', bag) →
  (existing = None → changes' = changes)
  ∧ (∀ i, is_Some (changes !! i) → is_Some (changes' !! i))
  ∧ (∀ ref i, existing = Some ref →
       i ≠ ref_id ref → i ≠ Py.str_of_Z id_ →
       changes' !! i = changes !! i).
Proof.
  intros Hperm Hmerge.
  apply merge_inv in Hmerge
    as (kw & ref1 & c1 & ref2 & Hkw & Hpath & _ & _ & _).
  split; [|split].
  - intros ->. by injection Hpath as _ _ <-.
  - intros i Hi. destruct existing as [ref|].
    + unfold update_ref in Hpath.
      pose proof (update_loop_log_mono kw (kw_keys h kw) ref false changes i
                    Hi) as Hm.
      by rewrite Hpath in Hm.
    + by injection Hpath as _ _ <-.
  - intros ref i -> Hi Hid. unfold update_ref in Hpath.
    pose proof (update_loop_log kw (kw_keys h kw) ref false changes i Hi)
      as Hl.
    rewrite Hpath in Hl. apply Hl. unfold kw_get.
    by rewrite (parse_record_id h Hperm id_ rec kw Hkw).
Qed.

Lemma change_log_reach_witness :
  Sample.merged_new.1.2 = ∅.
Proof.
  destruct (change_log_reach Sample.helpers Sample.maps 7 (Sample.record [])
              None ∅ Sample.merged_new.1.2 Sample.merged_new.1.1.1
              Sample.merged_new.1.1.2 Sample.merged_new.2) as (H1 & _).
  - apply Permutation_refl.
  - by_vm.
  - exact (H1 eq_refl).
Defined.

(* ===================================================================== *)
(** * Page ranges, and the modes of a run *)
(* ===================================================================== *)

(** When the page text of a parsed record is not empty and matches neither
    pattern for Roman and Arabic page counts, the start page and the end
    page are those that [compute_pages] returns for it, if any, and the
    page count is the number it returns or, when it returns none, the
    page count of a numeric [numberofpages] field. *)
Theorem computed_pages (h : helpers) (id_ : Z) (rec : Record_)
    (kw : gmap string value) (pages : string) (start end_ number : option Z) :
  field_items h ≡ₚ FIELD_MAP →
  parse_record h id_ rec = Ok kw →
  kw !! "pages" = Some (VStr pages) → pages ≠ EmptyString →
  roman_pages pages = None →
  compute_pages h pages = (start, end_, number) →
  kw !! "startpage_int" = VInt <$> start
  ∧ kw !! "endpage_int" = VInt <$> end_
  ∧ kw !! "pages_int" =
      match number with
      | Some n => Some (VInt n)
      | None => match rec_get rec "numberofpages" with
                | Some raw => match Py.int (Py.strip raw) with
                              | Ok n => Some (VInt n)
                              | Raise _ => None
                              end
                | None => None
                end
      end.
Proof.
  intros Hperm (kw0 & kw2 & H0 & Hy & Hp)%parse_record_inv Hpages Hne Hm Hcp.
  pose proof (pages_int_before h Hperm id_ rec kw0 kw2 H0 Hy) as Hbefore.
  assert (∀ k, bool_decide (k ∈ ["startpage_int"; "endpage_int"]) = true →
               publisher_step kw2 !! k = None) as Hnone.
  { intros k Hk%bool_decide_eq_true. rewrite !elem_of_cons in Hk.
    destruct Hk as [->|[->|Hk]]; [| |by apply elem_of_nil in Hk];
      (rewrite publisher_step_other by done;
       rewrite (year_step_other _ _ _ Hy) by done;
       rewrite numberofpages_step_other by done;
       by rewrite (map_fields_not_target h Hperm id_ rec kw0)). }
  rewrite (pages_step_other h _ _ "pages" Hp) in Hpages by done.
  unfold pages_step, kw_get in Hp. rewrite Hpages in Hp. simpl in Hp.
  rewrite (bool_decide_eq_false_2 _ Hne) in Hp. simpl in Hp.
  unfold roman_pages in Hm. rewrite Hm, Hcp in Hp. injection Hp as <-.
  split; [|split].
  - rewrite !set_if_some_other by done.
    destruct start; simpl; [by rewrite lookup_insert_eq|by apply Hnone].
  - rewrite set_if_some_other by done.
    destruct end_; simpl.
    + by rewrite lookup_insert_eq.
    + rewrite set_if_some_other by done. by apply Hnone.
  - destruct number; simpl; [by rewrite lookup_insert_eq|].
    by rewrite !set_if_some_other.
Qed.

Lemma computed_pages_witness :
  Sample.kw_paged_only !! "startpage_int" = Some (VInt 12)
  ∧ Sample.kw_paged_only !! "endpage_int" = Some (VInt 45)
  ∧ Sample.kw_paged_only !! "pages_int" = Some (VInt 34).
Proof.
  apply (computed_pages Sample.helpers 7 (Sample.record [("pages", "12-45")])
           Sample.kw_paged_only "12-45" (Some 12) (Some 45) (Some 34)).
  - apply Permutation_refl.
  - by_vm.
  - by_vm.
  - done.
  - by_vm.
  - by_vm.
Defined.

(** The loop tells the mode [update] from every other mode and nothing
    more: two runs in modes other than [update] end alike. *)
Theorem modes_other_than_update_agree (h : helpers) (mode mode' : string)
    (maps : lookups) (bib : list Record_) (db : gmap Z Ref) :
  mode ≠ "update" → mode' ≠ "update" →
  main h mode maps bib db = main h mode' maps bib db.
Proof.
  intros Hm Hm'. unfold main. generalize (mkState db ∅ 0 0).
  generalize (dom db). intros known_ids.
  induction bib as [|rec bib IH]; intros st; [done|]. cbn [loop].
  assert (body h mode known_ids maps st rec
          = body h mode' known_ids maps st rec) as ->.
  { unfold body. case_bool_decide; [done|].
    destruct (rec_get rec "glottolog_ref_id"); [|done].
    destruct (Py.int _) as [id_|]; [|done]. cbn [mbind result_bind].
    assert (bool_decide (mode ≠ "update" ∧ id_ ∈ known_ids)
            = bool_decide (mode' ≠ "update" ∧ id_ ∈ known_ids)) as ->; [|done].
    apply bool_decide_ext. naive_solver. }
  destruct (body h mode' known_ids maps st rec) as [[st' o]|]; [|done].
  cbn [mbind result_bind]. apply IH.
Qed.

Lemma modes_other_than_update_agree_witness :
  main Sample.helpers "compare" Sample.maps Sample.bib3 Sample.catalog7
  = Ok Sample.inserted.
Proof.
  rewrite (modes_other_than_update_agree Sample.helpers "compare" "insert"
             Sample.maps Sample.bib3 Sample.catalog7);
    [by_vm|discriminate|discriminate].
Defined.
